(** * multi_RAG_agent: the streaming tool-orchestration engine

    A shallow embedding of the parts of the backend that drive a chat
    request:

    - [web_search_tool.py]: the text the search results are formatted as;
    - [search_review_tool.py]: the parser of that text, the tokenizer, the
      relevance and recency scorers, the selection of the recommended
      search results and the review that puts them together;
    - [main.py]: the model factory, the tool dispatcher with its review
      filter, the generator [generate_streaming_response_with_tools] and
      its sibling without tools, the conversion of the history and the
      extraction of the references of an answer.

    Python strings are sequences of Unicode code points, floats that only
    ever hold short decimal constants are rationals, and every effect of
    the generator (events pushed to the client, calls to the model, the
    tools and the conversation store) is recorded in a trace. *)

From Stdlib Require Import ZArith NArith QArith String Ascii List Lia Permutation Sorted.
From stdpp Require Import gmap list.

Set Default Goal Selector "!".

(** ** Python strings *)

Module Py.

(** A [str] is a sequence of code points. *)
Definition char := N.
Definition str := list char.

(** String literals of the source are written as UTF-8 text and decoded. *)
Fixpoint utf8_decode (bs : list N) : str :=
  match bs with
  | [] => []
  | b0 :: r0 =>
    if (b0 <? 128)%N then b0 :: utf8_decode r0
    else match r0 with
    | [] => []
    | b1 :: r1 =>
      if (b0 <? 224)%N then ((b0 - 192) * 64 + (b1 - 128))%N :: utf8_decode r1
      else match r1 with
      | [] => []
      | b2 :: r2 =>
        if (b0 <? 240)%N
        then ((b0 - 224) * 4096 + (b1 - 128) * 64 + (b2 - 128))%N :: utf8_decode r2
        else match r2 with
        | [] => []
        | b3 :: r3 =>
          ((b0 - 240) * 262144 + (b1 - 128) * 4096 + (b2 - 128) * 64 + (b3 - 128))%N
            :: utf8_decode r3
        end
      end
    end
  end.

Definition lit (s : string) : str :=
  utf8_decode (map N_of_ascii (list_ascii_of_string s)).
Arguments lit : simpl never.

(** [bool(s)]: a string is truthy when it is not empty. *)
Definition truthy {A} (s : list A) : bool :=
  match s with [] => false | _ :: _ => true end.

Definition char_eqb (a b : char) : bool := (a =? b)%N.

Fixpoint str_eqb (a b : str) : bool :=
  match a, b with
  | [], [] => true
  | x :: a', y :: b' => char_eqb x y && str_eqb a' b'
  | _, _ => false
  end.

(** [s.startswith(p)] *)
Fixpoint startswith (p s : str) : bool :=
  match p, s with
  | [], _ => true
  | _ :: _, [] => false
  | x :: p', y :: s' => char_eqb x y && startswith p' s'
  end.

(** [sub in s] *)
Fixpoint str_in (sub s : str) : bool :=
  startswith sub s ||
  match s with
  | [] => false
  | _ :: s' => str_in sub s'
  end.

(** [c in s] for a single character [c] *)
Definition char_in (c : char) (s : str) : bool := existsb (char_eqb c) s.

(** [s.replace(old, new)] for a one-character [old] *)
Definition replace_char (old : char) (new : str) (s : str) : str :=
  flat_map (fun c => if char_eqb c old then new else [c]) s.

(** [s.split(sep)[0]] for a one-character [sep] *)
Fixpoint split_head (sep : char) (s : str) : str :=
  match s with
  | [] => []
  | c :: s' => if char_eqb c sep then [] else c :: split_head sep s'
  end.

(** [sep.join(parts)] *)
Fixpoint join (sep : str) (parts : list str) : str :=
  match parts with
  | [] => []
  | [p] => p
  | p :: rest => p ++ sep ++ join sep rest
  end.

(** [str(n)] for a non-negative integer *)
Fixpoint uint_chars (u : Decimal.uint) : str :=
  match u with
  | Decimal.Nil => []
  | Decimal.D0 u' => 48%N :: uint_chars u'
  | Decimal.D1 u' => 49%N :: uint_chars u'
  | Decimal.D2 u' => 50%N :: uint_chars u'
  | Decimal.D3 u' => 51%N :: uint_chars u'
  | Decimal.D4 u' => 52%N :: uint_chars u'
  | Decimal.D5 u' => 53%N :: uint_chars u'
  | Decimal.D6 u' => 54%N :: uint_chars u'
  | Decimal.D7 u' => 55%N :: uint_chars u'
  | Decimal.D8 u' => 56%N :: uint_chars u'
  | Decimal.D9 u' => 57%N :: uint_chars u'
  end.

Definition str_of_nat (n : nat) : str := uint_chars (Nat.to_uint n).

(** [s.lower()] on ASCII text (the registered tool names are ASCII). *)
Definition lower_char (c : char) : char :=
  if ((65 <=? c) && (c <=? 90))%N then (c + 32)%N else c.
Definition lower (s : str) : str := map lower_char s.

(** [sorted(l, key=key, reverse=True)]: descending, and stable (elements
    with equal keys keep their order). *)
Fixpoint insert_desc {A} (key : A -> Q) (x : A) (l : list A) : list A :=
  match l with
  | [] => [x]
  | y :: l' =>
    if Qle_bool (key y) (key x) then x :: l else y :: insert_desc key x l'
  end.
Definition sorted_desc {A} (key : A -> Q) (l : list A) : list A :=
  foldr (insert_desc key) [] l.

(** What the interpreter and its [re] module decide, and the repository
    does not: which code points are decimal digits ([\d]), which are white
    space ([str.strip]), and what [int(s)] returns ([None] when it raises
    [ValueError]). *)
Class Builtins := {
  is_digit : char -> bool;
  is_space : char -> bool;
  py_int : str -> option Z;
}.

Section WithBuiltins.
Context {B : Builtins}.

(** [s.strip()] *)
Fixpoint lstrip (s : str) : str :=
  match s with
  | [] => []
  | c :: s' => if is_space c then lstrip s' else s
  end.
Definition rstrip (s : str) : str := rev (lstrip (rev s)).
Definition strip (s : str) : str := rstrip (lstrip s).

End WithBuiltins.

End Py.

(** ** [tools/search_review_tool.py] *)

Module Review.
Import Py.

(** The characters of the date patterns. *)
Definition dash : char := 45%N.
Definition nian : char := Eval vm_compute in hd 0%N (lit "年").

(** The alternatives of the relative-recency pattern
    [最近|日前|小时|今天|昨日|昨天|本周|本月|刚刚]. *)
Definition recency_markers : list str := Eval vm_compute in
  map lit ["最近"; "日前"; "小时"; "今天"; "昨日"; "昨天"; "本周"; "本月"; "刚刚"]%string.

Section WithBuiltins.
Context {B : Builtins}.

(** The pattern [(\d{4})年] anchored at the head of [s]: group 1. *)
Definition year_at (s : str) : option str :=
  match s with
  | d1 :: d2 :: d3 :: d4 :: c :: _ =>
    if is_digit d1 && is_digit d2 && is_digit d3 && is_digit d4 && char_eqb c nian
    then Some [d1; d2; d3; d4] else None
  | _ => None
  end.

(** [re.search(r"(\d{4})年", s)]: group 1 of the leftmost match. *)
Fixpoint search_year (s : str) : option str :=
  match year_at s with
  | Some y => Some y
  | None => match s with [] => None | _ :: s' => search_year s' end
  end.

(** [re.findall(r"(\d{4})年", s)]: the matches do not overlap, so the four
    characters after the start of a match are skipped. *)
Fixpoint findall_year_from (skip : nat) (s : str) : list str :=
  match s with
  | [] => []
  | _ :: s' =>
    match skip with
    | S k => findall_year_from k s'
    | O =>
      match year_at s with
      | Some y => y :: findall_year_from 4 s'
      | None => findall_year_from 0 s'
      end
    end
  end.
Definition findall_year (s : str) : list str := findall_year_from 0 s.

(** [re.search(r"最近|日前|...", text)] as a truth value. *)
Definition search_recency_marker (text : str) : bool :=
  existsb (fun m => str_in m text) recency_markers.

(** The [try] block at the head of [_compute_recency_score]; [None] is both
    the initial value and the value set by the [except] clause. *)
Definition now_year_of (current_date : str) : option Z :=
  if truthy current_date then
    if char_in nian current_date then
      match search_year current_date with
      | Some y => py_int y
      | None => None
      end
    else py_int (split_head dash current_date)
  else None.

Definition _compute_recency_score (current_date title snippet : str) : Q :=
  let now_year := now_year_of current_date in
  let text := title ++ lit " " ++ snippet in
  if truthy current_date &&
     (str_in current_date text || str_in (replace_char dash [nian] current_date) text)
  then 1.0%Q
  else if search_recency_marker text then 0.8%Q
  else
    match findall_year text with
    | y0 :: _ =>
      match now_year with
      | Some n =>
        if negb (n =? 0)%Z then
          match py_int y0 with
          | Some y => if (y =? n)%Z then 0.6%Q else 0.2%Q
          | None => 0.2%Q
          end
        else 0.2%Q
      | None => 0.2%Q
      end
    | [] => 0.3%Q
    end.

End WithBuiltins.

(** One element of [results] in [review_search_results]. The scores are
    the values after [round(_, 3)]. *)
Record ScoredEntry := {
  index : Z;
  title : str;
  snippet : str;
  url : str;
  source : str;
  relevance_score : Q;
  recency_score : Q;
  final_score : Q;
  reasons : list str;
}.

Definition threshold : Q := 0.4%Q.

(** The recommendation step of [review_search_results]. *)
Definition recommended (results : list ScoredEntry) : list Z :=
  let recommended :=
    map index (List.filter (fun r => Qle_bool threshold (final_score r)) results) in
  if negb (truthy recommended) && truthy results then
    let sorted_by_score := sorted_desc final_score results in
    omap (fun i => index <$> sorted_by_score !! i)
         (seq 0 (Nat.min 2 (length sorted_by_score)))
  else recommended.

End Review.

(** ** [main.py]: data *)

Module Main.
Import Py.

(** JSON-like values: the arguments of a tool call. *)
#[local] Unset Elimination Schemes.
Inductive PyVal :=
| VNone
| VBool (b : bool)
| VInt (z : Z)
| VStr (s : str)
| VList (l : list PyVal)
| VDict (d : list (str * PyVal)).
#[local] Set Elimination Schemes.

Definition Args := list (str * PyVal).

(** A requested tool call, a dict read with [.get]: any key may be absent. *)
Record ToolCall := {
  tc_name : option str;
  tc_args : option Args;
  tc_id : option str;
}.

(** What [model.ainvoke] returns. *)
Record Response := {
  resp_content : str;
  resp_tool_calls : list ToolCall;
}.

Inductive ContentItem :=
| ItemText (text : option str)
| ItemStr (s : str)
| ItemOther.

Inductive Content :=
| Text (s : str)
| Blocks (items : list ContentItem).

(** A [ToolMessage] as the dispatcher builds it; its constructor refuses
    an id of [None], see [tool_message]. *)
Record ToolMsg := {
  tm_content : str;
  tm_tool_call_id : option str;
  tm_name : option str;
}.

Inductive Message :=
| SystemMessage (content : str)
| HumanMessage (content : Content)
| AIMessage (response : Response)
| ToolMessage (tm : ToolMsg).

(** One unit of [model.astream]. *)
Record Chunk := {
  additional_kwargs : list (str * str);
  content : str;
}.

Record PdfChunk := {
  pdf_content : option str;
  pdf_source_info : option str;
}.

Record Reference := {
  ref_id : Z;
  ref_text : str;
  ref_source : str;
  ref_page : Z;
}.

(** The events pushed to the client, without their timestamps. *)
Inductive Event :=
| SessionInit (session_id : str)
| ToolCalls (tools : list (option str * option Args))
| ToolResults (results : list (option str * str))
| ThoughtProcessStart
| ThoughtProcessContent (content : str)
| ThoughtProcessEnd
| AnswerStart
| ContentDelta (content : str)
| MessageComplete (full_content : str) (references : list Reference)
| ErrorEvent (error : str).

Inductive Exn :=
| Exception (msg : str)
| HTTPException (status_code : nat) (detail : str).

Definition exn_str (e : Exn) : str :=
  match e with
  | Exception msg => msg
  | HTTPException code detail => str_of_nat code ++ lit ": " ++ detail
  end.

Inductive result (A : Type) :=
| Ok (a : A)
| Raise (e : Exn).
Arguments Ok {A} a.
Arguments Raise {A} e.

Inductive Provider := ChatOpenAI | ChatDeepSeek.

(** A chat model object; [bound_tools] is empty until [bind_tools]. *)
Record ChatModel := {
  provider : Provider;
  model : str;
  bound_tools : list str;
}.

(** An entry of the review tool's JSON answer, read back with [.get]. *)
Record JEntry := {
  j_index : Z;
  j_title : option str;
  j_snippet : option str;
  j_url : option str;
  j_source : option str;
  j_final_score : option Q;
  j_reasons : option (list str);
}.

Record ReviewJson := {
  recommendations : list Z;
  entries : list JEntry;
}.

(** Everything observable about a run, in order: the events yielded and
    the calls to the collaborators with what they answered. *)
Inductive Action :=
| Yield (e : Event)
| Invoked (m : ChatModel) (messages : list Message) (r : result Response)
| Streamed (m : ChatModel) (messages : list Message)
           (chunks : list Chunk) (failure : option Exn)
| ToolRun (name : str) (args : Args) (r : result str)
| Appended (session_id : str) (full_content : str)
           (references : list Reference) (r : result bool).

(** The collaborators of the loop, over an abstract state of the outside
    world. [tool_message_error] is the validation error that the
    constructor of [ToolMessage] raises when [tool_call_id] is [None]. *)
Class Collaborators (World : Type) := {
  default_model : str;
  construct_error : Provider -> str -> option Exn;
  bind_tools_error : ChatModel -> list str -> option Exn;
  ainvoke : ChatModel -> list Message -> World -> result Response * World;
  astream : ChatModel -> list Message -> World -> list Chunk * option Exn * World;
  tool_ainvoke : str -> Args -> World -> result str * World;
  tool_message_error : Exn;
  today : World -> str;
  json_loads_review : str -> option ReviewJson;
  append_message :
    str -> str -> list Reference -> World -> result bool * World;
  extract_references_from_content : str -> list PdfChunk -> list Reference;
}.

(** ** [main.py]: the generator monad *)

Section WithWorld.
Context {World : Type} {C : Collaborators World} {B : Builtins}.

(** A computation of the generator: from a state of the world, the
    actions performed, the state reached, and a value or an exception. *)
Record Outcome (A : Type) := {
  trace : list Action;
  world : World;
  value : result A;
}.
Arguments trace {A} o.
Arguments world {A} o.
Arguments value {A} o.

Definition Gen (A : Type) : Type := World -> Outcome A.

Definition ret {A} (a : A) : Gen A :=
  fun w => {| trace := []; world := w; value := Ok a |}.

Definition raise {A} (e : Exn) : Gen A :=
  fun w => {| trace := []; world := w; value := Raise e |}.

Definition bind {A B} (m : Gen A) (k : A -> Gen B) : Gen B :=
  fun w =>
    let o := m w in
    match value o with
    | Ok a =>
      let o' := k a (world o) in
      {| trace := trace o ++ trace o'; world := world o'; value := value o' |}
    | Raise e => {| trace := trace o; world := world o; value := Raise e |}
    end.

(** [try: m  except Exception as e: h e] *)
Definition catch {A} (m : Gen A) (h : Exn -> Gen A) : Gen A :=
  fun w =>
    let o := m w in
    match value o with
    | Ok a => o
    | Raise e =>
      let o' := h e (world o) in
      {| trace := trace o ++ trace o'; world := world o'; value := value o' |}
    end.

(** One collaborator call, recorded by [log]. *)
Definition call {A} (f : World -> result A * World)
    (log : result A -> Action) : Gen A :=
  fun w => let '(r, w') := f w in {| trace := [log r]; world := w'; value := r |}.

Definition yield (e : Event) : Gen unit :=
  fun w => {| trace := [Yield e]; world := w; value := Ok tt |}.

Fixpoint yield_all (es : list Event) : Gen unit :=
  match es with
  | [] => ret tt
  | e :: es' => bind (yield e) (fun _ => yield_all es')
  end.

Definition of_result {A} (r : result A) : Gen A :=
  match r with Ok a => ret a | Raise e => raise e end.

(** [runs m w t w' r]: from [w], [m] performs [t], reaches [w'] and ends
    with [r]. *)
Definition runs {A} (m : Gen A) (w : World) (t : list Action) (w' : World)
    (r : result A) : Prop :=
  m w = {| trace := t; world := w'; value := r |}.

End WithWorld.

Arguments trace {World A} o.
Arguments world {World A} o.
Arguments value {World A} o.

Declare Scope gen_scope.
Delimit Scope gen_scope with gen.
Notation "x <- m ;; k" := (bind m (fun x => k))
  (at level 20, m at level 99, k at level 200, only parsing) : gen_scope.
Notation "'do' m ;; k" := (bind m (fun _ => k))
  (at level 20, m at level 99, k at level 200, only parsing) : gen_scope.

(** ** [main.py]: the model factory and the review filter *)

Definition nl : str := [10%N].

(** [WEB_SEARCH_TOOLS] and [REVIEW_TOOLS], by tool name. *)
Definition WEB_SEARCH_TOOLS : list str :=
  [lit "web_search"; lit "search_recent_news"; lit "get_current_time"].
Definition REVIEW_TOOLS : list str := [lit "review_search_results"].
Definition all_tools : list str := WEB_SEARCH_TOOLS ++ REVIEW_TOOLS.
Arguments all_tools : simpl never.

(** [model_name in ["deepseek-chat", None]] *)
Definition supports_tools (model_name : option str) : bool :=
  match model_name with
  | None => true
  | Some n => str_eqb n (lit "deepseek-chat")
  end.

(** [d.get(key)] on a dict kept as an association list. *)
Fixpoint dict_get {V} (key : str) (d : list (str * V)) : option V :=
  match d with
  | [] => None
  | (k, v) :: d' => if str_eqb k key then Some v else dict_get key d'
  end.

(** [{e['index']: e for e in entries}]: a later entry replaces an earlier
    one with the same index. *)
Definition entry_map_of (entries : list JEntry) : gmap Z JEntry :=
  foldl (fun m e => <[j_index e := e]> m) ∅ entries.

(** The padding loop: walk the entries by descending score until ten are
    selected, skipping the indices already taken. *)
Fixpoint pad_entries (sorted_entries final_entries : list JEntry)
    (existing_indices : gset Z) : list JEntry :=
  match sorted_entries with
  | [] => final_entries
  | e :: rest =>
    if (10 <=? length final_entries)%nat then final_entries
    else if bool_decide (j_index e ∈ existing_indices)
    then pad_entries rest final_entries existing_indices
    else pad_entries rest (final_entries ++ [e]) ({[j_index e]} ∪ existing_indices)
  end.

Definition select_final_entries (recommendations : list Z)
    (entries : list JEntry) : list JEntry :=
  let entry_map := entry_map_of entries in
  let final_entries := omap (fun idx => entry_map !! idx) (take 10 recommendations) in
  if (length final_entries <? 10)%nat then
    let existing_indices : gset Z := list_to_set (map j_index final_entries) in
    let sorted_entries :=
      sorted_desc (fun x => default 0%Q (j_final_score x)) entries in
    pad_entries sorted_entries final_entries existing_indices
  else final_entries.

(** The text appended for entry number [i]. *)
Definition render_entry (i : nat) (entry : JEntry) : str :=
  let title := default (lit "无标题") (j_title entry) in
  let snippet := default (lit "无描述") (j_snippet entry) in
  let url := default [] (j_url entry) in
  let source := default (lit "未知来源") (j_source entry) in
  let reasons := default [] (j_reasons entry) in
  lit "[" ++ str_of_nat i ++ lit "] " ++ title ++ nl ++
  lit "📝 " ++ snippet ++ nl ++
  (if truthy url then lit "🔗 " ++ url ++ nl else []) ++
  lit "📍 来源: " ++ source ++ nl ++
  (if truthy reasons then lit "💡 推荐理由: " ++ join (lit ", ") reasons ++ nl else []) ++
  nl.

(** [for i, entry in enumerate(final_entries, 1): new_result_text += ...] *)
Fixpoint render_from (i : nat) (final_entries : list JEntry)
    (new_result_text : str) : str :=
  match final_entries with
  | [] => new_result_text
  | entry :: rest => render_from (S i) rest (new_result_text ++ render_entry i entry)
  end.

Definition review_header : str := lit "🔍 经审查筛选后的搜索结果：" ++ nl ++ nl.

(** The rewriting of a search result from the parsed review; [None] when
    [result] is left as it is. *)
Definition filter_by_review (review_json : ReviewJson) : option str :=
  let recommendations := recommendations review_json in
  let entries := entries review_json in
  if truthy recommendations && truthy entries then
    let final_entries := select_final_entries recommendations entries in
    if truthy final_entries then Some (render_from 1 final_entries review_header)
    else None
  else None.

(** ** [main.py]: the dispatcher and the loop *)

Section Program.
Context {World : Type} {C : Collaborators World} {B : Builtins}.
Local Open Scope gen_scope.

Definition get_chat_model (model_name : option str) : result ChatModel :=
  let model_name := default default_model model_name in
  let m :=
    if str_eqb model_name (lit "qwen3-vl-8b-instruct")
    then {| provider := ChatOpenAI; model := lit "Qwen/Qwen3-VL-8B-Instruct";
            bound_tools := [] |}
    else {| provider := ChatDeepSeek; model := model_name; bound_tools := [] |} in
  match construct_error (provider m) (model m) with
  | None => Ok m
  | Some e => Raise (HTTPException 500 (lit "模型初始化失败: " ++ exn_str e))
  end.

(** [model.bind_tools(tools)] *)
Definition bind_tools (m : ChatModel) (tools : list str) : result ChatModel :=
  match bind_tools_error m tools with
  | None => Ok {| provider := provider m; model := model m; bound_tools := tools |}
  | Some e => Raise e
  end.

Definition get_chat_model_with_tools (model_name : option str)
    (enable_tools : bool) : result ChatModel :=
  match get_chat_model model_name with
  | Raise e => Raise e
  | Ok model =>
    if enable_tools && supports_tools model_name then
      match bind_tools model all_tools with
      | Ok model_with_tools => Ok model_with_tools
      | Raise _ => Ok model
      end
    else Ok model
  end.

(** The registered tool called [tool_name], if any. *)
Definition find_tool (tool_name : option str) : option str :=
  match tool_name with
  | Some n => List.find (fun tool => str_eqb tool n) all_tools
  | None => None
  end.

(** ["search" in lower_name or "web" in lower_name or "news" in lower_name] *)
Definition is_search_like (tool_name : option str) : bool :=
  let lower_name := lower (default [] tool_name) in
  existsb (fun k => str_in k lower_name) [lit "search"; lit "web"; lit "news"].

Definition is_human (m : Message) : bool :=
  match m with HumanMessage _ => true | _ => false end.

Definition item_text (item : ContentItem) : option str :=
  match item with
  | ItemText text => Some (default [] text)
  | ItemStr s => Some s
  | ItemOther => None
  end.

(** The text of the most recent [HumanMessage]. *)
Definition user_question_of (messages : list Message) : str :=
  match List.find is_human (rev messages) with
  | Some (HumanMessage (Blocks c)) => strip (join (lit " ") (omap item_text c))
  | Some (HumanMessage (Text c)) => c
  | _ => []
  end.

Definition review_args (result user_question current_date : str) : Args :=
  [(lit "formatted_results", VStr result);
   (lit "user_question", VStr user_question);
   (lit "current_date", VStr current_date)].

Definition run_tool (tool : str) (args : Args) : Gen str :=
  call (tool_ainvoke tool args) (ToolRun tool args).

(** The automatic review of a search result: the content the tool message
    will carry. Any failure leaves [result] as it is. *)
Definition review_result (tool_name : option str) (messages : list Message)
    (result : str) : Gen str :=
  if is_search_like tool_name then
    let user_question := user_question_of messages in
    match List.find (fun t => str_eqb t (lit "review_search_results")) all_tools with
    | Some review_tool =>
      catch
        (fun w =>
           (review_text <-
              run_tool review_tool (review_args result user_question (today w));;
            ret match json_loads_review review_text with
                | Some review_json => default result (filter_by_review review_json)
                | None => result
                end) w)
        (fun _ => ret result)
    | None => ret result
    end
  else ret result.

(** [ToolMessage(content=content, tool_call_id=tool_id, name=tool_name)]:
    the field [tool_call_id] must be a string, so the constructor raises
    when the call had no id. *)
Definition tool_message (content : str) (tool_id tool_name : option str)
    : @Gen World ToolMsg :=
  match tool_id with
  | Some tool_call_id =>
    ret {| tm_content := content; tm_tool_call_id := Some tool_call_id;
           tm_name := tool_name |}
  | None => raise tool_message_error
  end.

(** One iteration of the loop of [execute_tool_calls]: the messages it
    appends to [tool_messages]. The tool message is built inside the
    [try], and built again by the handler, which nothing guards. The
    logging of the search engine and of a summary of the result, which has
    no effect on the messages, is left out. *)
Definition execute_tool_call (tool_call : ToolCall) (messages : list Message)
    : Gen (list ToolMsg) :=
  let tool_name := tc_name tool_call in
  let tool_args := default [] (tc_args tool_call) in
  let tool_id := tc_id tool_call in
  match find_tool tool_name with
  | None => ret []
  | Some tool_func =>
    catch
      (result <- run_tool tool_func tool_args;;
       combined_content <- review_result tool_name messages result;;
       tool_message <- tool_message combined_content tool_id tool_name;;
       ret [tool_message])
      (fun e =>
         tool_message <-
           tool_message (lit "工具执行失败: " ++ exn_str e) tool_id tool_name;;
         ret [tool_message])
  end.

Fixpoint execute_tool_calls (tool_calls : list ToolCall)
    (messages : list Message) : Gen (list ToolMsg) :=
  match tool_calls with
  | [] => ret []
  | tool_call :: rest =>
    tool_messages <- execute_tool_call tool_call messages;;
    more <- execute_tool_calls rest messages;;
    ret (tool_messages ++ more)
  end.

(** The reference documents appended to the system prompt. *)
Fixpoint pdf_context_from (i : nat) (pdf_chunks : list PdfChunk)
    (pdf_text : str) : str :=
  match pdf_chunks with
  | [] => pdf_text
  | chunk :: rest =>
    let content := take 500 (default [] (pdf_content chunk)) in
    let source_info :=
      default (lit "文档块 " ++ str_of_nat i) (pdf_source_info chunk) in
    pdf_context_from (S i) rest
      (pdf_text ++ nl ++ lit "[" ++ str_of_nat i ++ lit "] " ++ content ++ nl ++
       lit "来源: " ++ source_info ++ nl)
  end.

Definition add_pdf_context (pdf_chunks : option (list PdfChunk))
    (messages : list Message) : list Message :=
  match pdf_chunks with
  | Some (chunk :: rest) =>
    let pdf_text :=
      pdf_context_from 1 (chunk :: rest)
        (nl ++ nl ++ lit "=== 参考文档内容 ===" ++ nl) in
    match messages with
    | SystemMessage content :: others => SystemMessage (content ++ pdf_text) :: others
    | _ => messages
    end
  | _ => messages
  end.

Definition tool_call_data (tool_calls : list ToolCall) : Event :=
  ToolCalls (map (fun tc => (tc_name tc, tc_args tc)) tool_calls).

(** The content of a tool message is cut to 200 characters in the event. *)
Definition tool_result_data (tool_messages : list ToolMsg) : Event :=
  ToolResults
    (map (fun tm =>
            (tm_name tm,
             if (200 <? length (tm_content tm))%nat
             then take 200 (tm_content tm) ++ lit "..."
             else tm_content tm))
         tool_messages).

(** The [while iteration < max_iterations] loop. [fuel] bounds the number of
    passes; [Z.to_nat (max_iterations - iteration)] passes are always
    enough, the counter growing by one at each pass. The counter is
    returned with the messages: after the loop it is only compared with
    the ceiling to log a warning. *)
Fixpoint tool_loop (fuel : nat) (model : ChatModel) (max_iterations : Z)
    (iteration : Z) (messages : list Message) : Gen (Z * list Message) :=
  match fuel with
  | O => ret (iteration, messages)
  | S fuel' =>
    if (iteration <? max_iterations)%Z then
      let iteration := (iteration + 1)%Z in
      response <- call (ainvoke model messages) (Invoked model messages);;
      if truthy (resp_tool_calls response) then
        do yield (tool_call_data (resp_tool_calls response));;
        let messages := messages ++ [AIMessage response] in
        tool_messages <- execute_tool_calls (resp_tool_calls response) messages;;
        let messages := messages ++ map ToolMessage tool_messages in
        do yield (tool_result_data tool_messages);;
        tool_loop fuel' model max_iterations iteration messages
      else ret (iteration, messages)
    else ret (iteration, messages)
  end.

(** The local variables of the final streaming loop. *)
Record StreamState := {
  full_response : str;
  thought_process_started : bool;
  thought_process_ended : bool;
  answer_started : bool;
}.

Definition initial_stream_state : StreamState :=
  {| full_response := []; thought_process_started := false;
     thought_process_ended := false; answer_started := false |}.

(** [chunk.additional_kwargs.get("reasoning_content")], with [None] read
    as the empty string (both are falsy). *)
Definition reasoning_content_of (chunk : Chunk) : str :=
  default [] (dict_get (lit "reasoning_content") (additional_kwargs chunk)).

(** The body of [async for chunk in model.astream(messages)]: the events
    yielded for one chunk and the updated variables. *)
Definition process_chunk (is_reasoner_model : bool) (chunk : Chunk)
    (st : StreamState) : list Event * StreamState :=
  let reasoning_content := reasoning_content_of chunk in
  if is_reasoner_model && truthy (additional_kwargs chunk) && truthy reasoning_content
  then
    ((if thought_process_started st then [] else [ThoughtProcessStart]) ++
     [ThoughtProcessContent reasoning_content],
     {| full_response := full_response st; thought_process_started := true;
        thought_process_ended := thought_process_ended st;
        answer_started := answer_started st |})
  else if truthy (content chunk) then
    let ends :=
      is_reasoner_model && thought_process_started st &&
      negb (thought_process_ended st) in
    ((if ends then [ThoughtProcessEnd] else []) ++
     (if answer_started st then [] else [AnswerStart]) ++
     [ContentDelta (content chunk)],
     {| full_response := full_response st ++ content chunk;
        thought_process_started := thought_process_started st;
        thought_process_ended := thought_process_ended st || ends;
        answer_started := true |})
  else ([], st).

Fixpoint process_chunks (is_reasoner_model : bool) (chunks : list Chunk)
    (st : StreamState) : list Event * StreamState :=
  match chunks with
  | [] => ([], st)
  | chunk :: rest =>
    let '(events, st') := process_chunk is_reasoner_model chunk st in
    let '(events', st'') := process_chunks is_reasoner_model rest st' in
    (events ++ events', st'')
  end.

(** The streaming loop: the chunks received are processed in order, and an
    exception of the stream is raised after them. *)
Definition stream_answer (is_reasoner_model : bool) (model : ChatModel)
    (messages : list Message) : Gen StreamState :=
  fun w =>
    let '(chunks, failure, w') := astream model messages w in
    let '(events, st) := process_chunks is_reasoner_model chunks initial_stream_state in
    {| trace := Streamed model messages chunks failure :: map Yield events;
       world := w';
       value := match failure with None => Ok st | Some e => Raise e end |}.

Definition session_of (session_id : option str) : option str :=
  match session_id with
  | Some sid => if truthy sid then Some sid else None
  | None => None
  end.

(** [model_name == "deepseek-reasoner"] *)
Definition is_reasoner (model_name : option str) : bool :=
  match model_name with
  | Some n => str_eqb n (lit "deepseek-reasoner")
  | None => false
  end.

(** [extract_references_from_content(full_response, pdf_chunks) if
    pdf_chunks else []] *)
Definition references_for (full_response : str)
    (pdf_chunks : option (list PdfChunk)) : list Reference :=
  match pdf_chunks with
  | Some (chunk :: rest) =>
    extract_references_from_content full_response (chunk :: rest)
  | _ => []
  end.

(** The [try] block of [generate_streaming_response_with_tools]. *)
Definition generate_body (messages : list Message) (model_name : option str)
    (pdf_chunks : option (list PdfChunk)) (enable_tools : bool)
    (max_iterations : Z) (session_id : option str) : Gen unit :=
  let messages := add_pdf_context pdf_chunks messages in
  model <- of_result (get_chat_model_with_tools model_name enable_tools);;
  do match session_of session_id with
     | Some sid => yield (SessionInit sid)
     | None => ret tt
     end;;
  looped <- tool_loop (Z.to_nat max_iterations) model max_iterations 0 messages;;
  let messages := snd looped in
  let is_reasoner_model := is_reasoner model_name in
  st <- stream_answer is_reasoner_model model messages;;
  do (if is_reasoner_model && thought_process_started st &&
         negb (thought_process_ended st)
      then yield ThoughtProcessEnd else ret tt);;
  let references := references_for (full_response st) pdf_chunks in
  do match session_of session_id with
     | Some sid =>
       catch
         (do call (append_message sid (full_response st) references)
                  (Appended sid (full_response st) references);;
          ret tt)
         (fun _ => ret tt)
     | None => ret tt
     end;;
  yield (MessageComplete (full_response st) references).

Definition generate_streaming_response_with_tools (messages : list Message)
    (model_name : option str) (pdf_chunks : option (list PdfChunk))
    (enable_tools : bool) (max_iterations : Z) (session_id : option str)
    : Gen unit :=
  catch
    (generate_body messages model_name pdf_chunks enable_tools max_iterations
       session_id)
    (fun e => yield (ErrorEvent (exn_str e))).

(** The actions after a stream that ended normally: the closing of the
    reasoning channel when it is still open, the persistence step
    [persisted], and the final event. *)
Definition closing (is_reasoner_model : bool) (st : StreamState)
    (references : list Reference) (persisted : list Action) : list Action :=
  (if is_reasoner_model && thought_process_started st &&
      negb (thought_process_ended st)
   then [Yield ThoughtProcessEnd] else []) ++
  persisted ++ [Yield (MessageComplete (full_response st) references)].

End Program.

(** The announcement of the session, when there is one. *)
Definition session_actions (session_id : option str) : list Action :=
  match session_of session_id with
  | Some sid => [Yield (SessionInit sid)]
  | None => []
  end.

(** The events of a trace, in order. *)
Definition events_of (tr : list Action) : list Event :=
  omap (fun a => match a with Yield e => Some e | _ => None end) tr.

Definition is_terminal (e : Event) : bool :=
  match e with
  | MessageComplete _ _ | ErrorEvent _ => true
  | _ => false
  end.

(** The events of the reasoning/answer splitter. *)
Definition is_split_event (e : Event) : bool :=
  match e with
  | ThoughtProcessStart | ThoughtProcessContent _ | ThoughtProcessEnd
  | AnswerStart | ContentDelta _ => true
  | _ => false
  end.

Definition delta_of (e : Event) : option str :=
  match e with ContentDelta c => Some c | _ => None end.

(** The chunks whose answer payload the reasoner branch skips. *)
Definition carries_reasoning (chunk : Chunk) : bool :=
  truthy (additional_kwargs chunk) && truthy (reasoning_content_of chunk).

(** The chunks whose answer payload reaches the client. *)
Definition answered (is_reasoner_model : bool) (chunks : list Chunk) : list Chunk :=
  List.filter
    (fun c => negb (is_reasoner_model && carries_reasoning c) && truthy (content c))
    chunks.

Definition is_tool_run (a : Action) : bool :=
  match a with ToolRun _ _ _ => true | _ => false end.

(** What the tool loop does: model invocations, tool runs, and the two
    events of a round. *)
Definition is_loop_action (a : Action) : bool :=
  match a with
  | Invoked _ _ _ | ToolRun _ _ _ | Yield (ToolCalls _) | Yield (ToolResults _) => true
  | _ => false
  end.

(** The events that come before the streamed answer. *)
Definition is_setup_event (e : Event) : bool :=
  match e with
  | SessionInit _ | ToolCalls _ | ToolResults _ => true
  | _ => false
  end.

(** An invocation, if [a] is one, is made on [model]. *)
Definition invoked_on (model : ChatModel) (a : Action) : Prop :=
  match a with Invoked m _ _ => m = model | _ => True end.

(** What follows the streamed answer: yields and the write to the store. *)
Definition is_ending_action (a : Action) : bool :=
  match a with Yield _ | Appended _ _ _ _ => true | _ => false end.

Definition is_yield (a : Action) : bool :=
  match a with Yield _ => true | _ => false end.

(** Everything but the yield of a terminating event. *)
Definition quiet (a : Action) : bool :=
  match a with Yield e => negb (is_terminal e) | _ => true end.

Definition is_tool_calls (a : Action) : bool :=
  match a with Yield (ToolCalls _) => true | _ => false end.

Definition is_tool_results (a : Action) : bool :=
  match a with Yield (ToolResults _) => true | _ => false end.

Definition is_invoked (a : Action) : bool :=
  match a with Invoked _ _ _ => true | _ => false end.

(** How many actions of a trace satisfy [p]. *)
Definition count (p : Action -> bool) (tr : list Action) : nat :=
  length (List.filter p tr).

End Main.

(** ** Concrete builtins and scenarios *)

Module Scenarios.
Import Py Review Main.

(** The builtins on ASCII text: the digits [0-9], the ASCII white space,
    and [int] on strings of ASCII digits. *)
Definition ascii_digit (c : char) : bool := ((48 <=? c) && (c <=? 57))%N.
Definition ascii_space (c : char) : bool :=
  (c =? 32)%N || ((9 <=? c) && (c <=? 13))%N.
Fixpoint digits_value (acc : Z) (s : str) : option Z :=
  match s with
  | [] => Some acc
  | c :: s' =>
    if ascii_digit c then digits_value (acc * 10 + (Z.of_N c - 48))%Z s' else None
  end.
Definition ascii_int (s : str) : option Z :=
  match s with [] => None | _ :: _ => digits_value 0 s end.

#[export] Instance ascii_builtins : Builtins :=
  {| is_digit := ascii_digit; is_space := ascii_space; py_int := ascii_int |}.

(** A scored entry with the given index and final score. *)
Definition scored (i : Z) (score : Q) : ScoredEntry :=
  {| index := i; title := lit "title"; snippet := lit "snippet"; url := [];
     source := lit "source"; relevance_score := 0%Q; recency_score := 0.3%Q;
     final_score := score; reasons := [] |}.

(** A scripted outside world. The state of the world is the list of the
    answers [model.ainvoke] has still to give (then it gives a response
    without tool calls); the other collaborators answer the same way at
    every call. *)
Record Script := {
  sc_chunks : list Chunk;
  sc_failure : option Exn;
  sc_tool : str -> result str;
  sc_review : option ReviewJson;
  sc_append : result bool;
  sc_bind : option Exn;
}.

Definition scripted (sc : Script) : Collaborators (list (result Response)) :=
  {| default_model := lit "deepseek-chat";
     construct_error := fun _ _ => None;
     bind_tools_error := fun _ _ => sc_bind sc;
     ainvoke := fun _ _ w =>
       match w with
       | [] => (Ok {| resp_content := lit "done"; resp_tool_calls := [] |}, [])
       | r :: w' => (r, w')
       end;
     astream := fun _ _ w => (sc_chunks sc, sc_failure sc, w);
     tool_ainvoke := fun name _ w => (sc_tool sc name, w);
     tool_message_error := Exception (lit "1 validation error for ToolMessage");
     today := fun _ => lit "2025-11-22";
     json_loads_review := fun _ => sc_review sc;
     append_message := fun _ _ _ w => (sc_append sc, w);
     extract_references_from_content := fun _ _ => [] |}.

Definition call_of (name : string) : ToolCall :=
  {| tc_name := Some (lit name); tc_args := Some []; tc_id := Some (lit "call_1") |}.

(** A response of the model that requests the tools [names]. *)
Definition wants (names : list string) : result Response :=
  Ok {| resp_content := []; resp_tool_calls := map call_of names |}.

Definition answer_chunk (text : string) : Chunk :=
  {| additional_kwargs := []; content := lit text |}.

(** A chunk with a reasoning payload and an answer payload. *)
Definition thought_chunk (thought text : string) : Chunk :=
  {| additional_kwargs := [(lit "reasoning_content", lit thought)];
     content := lit text |}.

Definition hello : list Message :=
  [SystemMessage (lit "You are a helpful assistant.");
   HumanMessage (Text (lit "hello"))].

(** The model answers "hi" in one chunk; tools and store work. *)
Definition plain : Script :=
  {| sc_chunks := [answer_chunk "hi"]; sc_failure := None;
     sc_tool := fun _ => Ok (lit "12:00"); sc_review := None;
     sc_append := Ok true; sc_bind := None |}.

(** The model asks for the time at every invocation and the ceiling is 2. *)
Abbreviation ceiling_run :=
  (generate_streaming_response_with_tools (C := scripted plain) hello
     (Some (lit "deepseek-chat")) None true 2 None
     [wants ["get_current_time"]; wants ["get_current_time"];
      wants ["get_current_time"]]%string).

(** The deepseek-chat model with the four tools bound. *)
Definition tools_model : ChatModel :=
  {| provider := ChatDeepSeek; model := lit "deepseek-chat";
     bound_tools := all_tools |}.

(** The message list of [ceiling_run] after its two rounds. *)
Definition ceiling_messages : list Message :=
  hello ++
  [AIMessage {| resp_content := []; resp_tool_calls := [call_of "get_current_time"] |};
   ToolMessage {| tm_content := lit "12:00"; tm_tool_call_id := Some (lit "call_1");
                  tm_name := Some (lit "get_current_time") |};
   AIMessage {| resp_content := []; resp_tool_calls := [call_of "get_current_time"] |};
   ToolMessage {| tm_content := lit "12:00"; tm_tool_call_id := Some (lit "call_1");
                  tm_name := Some (lit "get_current_time") |}].

(** The conversation store raises at every write. *)
Definition store_down : Script :=
  {| sc_chunks := [answer_chunk "hi"]; sc_failure := None;
     sc_tool := fun _ => Ok (lit "12:00"); sc_review := None;
     sc_append := Raise (Exception (lit "disk full")); sc_bind := None |}.

(** The stream of a reasoning model, with the given chunks. *)
Definition reasoning (chunks : list Chunk) : Script :=
  {| sc_chunks := chunks; sc_failure := None;
     sc_tool := fun _ => Ok (lit "12:00"); sc_review := None;
     sc_append := Ok true; sc_bind := None |}.

(** A review entry as the review tool writes it. *)
Definition jentry (i : Z) (title : string) (score : Q) : JEntry :=
  {| j_index := i; j_title := Some (lit title); j_snippet := Some (lit "snippet");
     j_url := Some []; j_source := Some (lit "source");
     j_final_score := Some score; j_reasons := Some [] |}.

(** The review of two entries numbered 3 and 7, of which only entry 3 is
    recommended. *)
Definition sample_review : ReviewJson :=
  {| recommendations := [3%Z];
     entries := [jentry 3 "third" 0.5; jentry 7 "seventh" 0.2] |}.


(** A session whose store is down. *)
Abbreviation store_down_run :=
  (generate_streaming_response_with_tools (C := scripted store_down) hello
     (Some (lit "deepseek-chat")) None true 5 (Some (lit "s1")) []).

(** A reasoning model whose only chunk carries a thought and an answer. *)
Abbreviation mixed_chunk_run :=
  (generate_streaming_response_with_tools
     (C := scripted (reasoning [thought_chunk "think" "answer"])) hello
     (Some (lit "deepseek-reasoner")) None false 5 None []).

(** A reasoning model whose first chunk carries a thought and an answer,
    followed by two answer chunks. *)
Abbreviation reasoning_answer_run :=
  (generate_streaming_response_with_tools
     (C := scripted (reasoning [thought_chunk "think" "lost"; answer_chunk "4";
                               answer_chunk "2"])) hello
     (Some (lit "deepseek-reasoner")) None false 5 None []).

(** The deepseek-reasoner model, without tools. *)
Definition reasoner_model : ChatModel :=
  {| provider := ChatDeepSeek; model := lit "deepseek-reasoner"; bound_tools := [] |}.

(** A reasoning model that thinks twice and never answers. *)
Abbreviation reasoning_only_run :=
  (generate_streaming_response_with_tools
     (C := scripted (reasoning [thought_chunk "think" ""; thought_chunk "more" ""]))
     hello (Some (lit "deepseek-reasoner")) None false 5 None []).

End Scenarios.

(** ** Reading a run *)

Module Reading.
Import Py Main.

(** The calls the dispatcher answers: those whose name is registered. *)
Definition registered (tool_call : ToolCall) : bool :=
  match find_tool (tc_name tool_call) with Some _ => true | None => false end.

(** What ties a tool message to the call it answers. *)
Definition call_key (tool_call : ToolCall) : option str * option str :=
  (tc_id tool_call, tc_name tool_call).
Definition answer_key (tm : ToolMsg) : option str * option str :=
  (tm_tool_call_id tm, tm_name tm).

(** A round of the loop: the response that asked for tools and the tool
    messages that answer it. *)
Definition Round : Type := Response * list ToolMsg.

Definition round_events (round : Round) : list Event :=
  [tool_call_data (resp_tool_calls (fst round)); tool_result_data (snd round)].

Definition round_messages (round : Round) : list Message :=
  AIMessage (fst round) :: map ToolMessage (snd round).

Definition well_answered (round : Round) : Prop :=
  resp_tool_calls (fst round) <> [] /\
  map answer_key (snd round) =
    map call_key (List.filter registered (resp_tool_calls (fst round))).

(** A call the dispatcher cannot answer: its tool is registered and the
    call has no id, so that the tool message cannot be built. *)
Definition unanswerable (tool_call : ToolCall) : bool :=
  registered tool_call &&
  match tc_id tool_call with None => true | Some _ => false end.

(** The event of the round that the dispatcher did not complete, if there
    is one: the calls were announced, and no result followed. *)
Definition unanswered_events (unanswered : option Response) : list Event :=
  match unanswered with
  | Some response => [tool_call_data (resp_tool_calls response)]
  | None => []
  end.

Definition is_round_event (e : Event) : bool :=
  match e with ToolCalls _ | ToolResults _ => true | _ => false end.

(** The message list of a call to the model, if [a] is one. *)
Definition messages_of (a : Action) : option (list Message) :=
  match a with
  | Invoked _ ms _ | Streamed _ ms _ _ => Some ms
  | _ => None
  end.

(** An answer of the model that ends the loop: an exception, or a response
    without tool calls. *)
Definition ends_loop (r : result Response) : Prop :=
  match r with
  | Raise _ => True
  | Ok response => resp_tool_calls response = []
  end.

(** What follows the events of the chunks: the error of a stream that
    failed, or else the closing actions, with one write to the store when
    there is a session. *)
Definition ends_with (failure : option Exn) (is_reasoner_model : bool)
    (st : StreamState) (references : list Reference) (session_id : option str)
    (ending : list Action) : Prop :=
  match failure with
  | Some e => ending = [Yield (ErrorEvent (exn_str e))]
  | None =>
    exists persisted,
      ending = closing is_reasoner_model st references persisted /\
      match session_of session_id with
      | Some sid => exists r, persisted = [Appended sid (full_response st) references r]
      | None => persisted = []
      end
  end.

(** The order the client may rely on in the events of the splitter: the
    reasoning channel is opened at most once, carries content only once it
    is opened, and is closed at most once and only when open; the answer
    is opened at most once and carries a delta only once it is opened. The
    three flags say what has been seen so far; the other events are not
    looked at. *)
Fixpoint follows_protocol (thinking thought answering : bool)
    (events : list Event) : bool :=
  match events with
  | [] => true
  | ThoughtProcessStart :: rest =>
    negb thinking && follows_protocol true thought answering rest
  | ThoughtProcessContent _ :: rest =>
    thinking && follows_protocol thinking thought answering rest
  | ThoughtProcessEnd :: rest =>
    thinking && negb thought && follows_protocol thinking true answering rest
  | AnswerStart :: rest =>
    negb answering && follows_protocol thinking thought true rest
  | ContentDelta _ :: rest =>
    answering && follows_protocol thinking thought answering rest
  | _ :: rest => follows_protocol thinking thought answering rest
  end.

(** The events of an answer without a reasoning channel. *)
Definition plain_events (payloads : list str) : list Event :=
  match payloads with
  | [] => []
  | _ :: _ => AnswerStart :: map ContentDelta payloads
  end.

Definition is_session_init (e : Event) : bool :=
  match e with SessionInit _ => true | _ => false end.

Definition is_appended (a : Action) : bool :=
  match a with Appended _ _ _ _ => true | _ => false end.

(** The event that announces the session, when there is one. *)
Definition session_events (session_id : option str) : list Event :=
  match session_of session_id with
  | Some sid => [SessionInit sid]
  | None => []
  end.

(** The events after those of the chunks. *)
Definition ending_events (failure : option Exn) (is_reasoner_model : bool)
    (st : StreamState) (references : list Reference) : list Event :=
  match failure with
  | Some e => [ErrorEvent (exn_str e)]
  | None =>
    (if is_reasoner_model && thought_process_started st &&
        negb (thought_process_ended st)
     then [ThoughtProcessEnd] else []) ++
    [MessageComplete (full_response st) references]
  end.

Definition is_streamed (a : Action) : bool :=
  match a with Streamed _ _ _ _ => true | _ => false end.

End Reading.

(** ** [tools/search_review_tool.py]: the relevance score *)

Module Relevance.
Import Py.

(** What the interpreter decides for the tokenizer: the code points the
    class [\w] matches, and [str.lower]. *)
Class TextBuiltins := {
  is_word : char -> bool;
  py_lower : str -> str;
}.

Section WithText.
Context {T : TextBuiltins}.

(** The class [[\w一-鿿]]. *)
Definition is_token_char (c : char) : bool :=
  is_word c || ((19968 <=? c) && (c <=? 40959))%N.

(** [re.findall(r"[\w一-鿿]+", s)]: the maximal runs of token
    characters, in order; [run] is the run being read. *)
Fixpoint findall_runs (run : str) (s : str) : list str :=
  match s with
  | [] => if truthy run then [run] else []
  | c :: s' =>
    if is_token_char c then findall_runs (run ++ [c]) s'
    else (if truthy run then [run] else []) ++ findall_runs [] s'
  end.

Definition _tokenize (text : str) : list str :=
  let tokens := findall_runs [] (py_lower text) in
  List.filter (fun t => (1 <? length t)%nat) tokens.

(** The score is the quotient of two set sizes; the float the source
    returns is the double nearest to this rational. *)
Definition _compute_relevance_score (question title snippet : str) : Q :=
  let q_tokens : gset str := list_to_set (_tokenize question) in
  let doc_tokens : gset str := list_to_set (_tokenize (title ++ lit " " ++ snippet)) in
  if bool_decide (q_tokens = ∅) || bool_decide (doc_tokens = ∅) then 0%Q
  else
    let inter := q_tokens ∩ doc_tokens in
    let union := q_tokens ∪ doc_tokens in
    Z.of_nat (size inter) # Pos.of_nat (size union).

End WithText.
End Relevance.

(** ** [main.py]: the generator without tools *)

Module Legacy.
Import Py Main.

Section Program.
Context {World : Type} {C : Collaborators World} {B : Builtins}.
Local Open Scope gen_scope.

(** The [try] block of [generate_streaming_response]. *)
Definition response_body (messages : list Message) (model_name : option str)
    (pdf_chunks : option (list PdfChunk)) : Gen unit :=
  let messages := add_pdf_context pdf_chunks messages in
  model <- of_result (get_chat_model model_name);;
  let is_reasoner_model := is_reasoner model_name in
  st <- stream_answer is_reasoner_model model messages;;
  do (if is_reasoner_model && thought_process_started st &&
         negb (thought_process_ended st)
      then yield ThoughtProcessEnd else ret tt);;
  let references := references_for (full_response st) pdf_chunks in
  yield (MessageComplete (full_response st) references).

Definition generate_streaming_response (messages : list Message)
    (model_name : option str) (pdf_chunks : option (list PdfChunk)) : Gen unit :=
  catch (response_body messages model_name pdf_chunks)
        (fun e => yield (ErrorEvent (exn_str e))).

End Program.
End Legacy.

(** ** [main.py]: the history of a conversation *)

Module History.
Import Py Main.

(** The two system prompts of [convert_history_to_messages], line by
    line. *)
Definition reasoner_prompt : str :=
  join nl
    [lit "你是一个专业、严谨的多模态 RAG 助手（可按需展示推理过程）。请严格遵守下列规范以保证回答的专业性：";
     [];
     lit "一、职责与能力";
     lit "- 熟练进行文档理解、图像与音频分析、知识检索与逻辑推理；";
     lit "- 在需要时，可以展示分步推理，但最终交付应为经过提炼的结论。";
     [];
     lit "二、表达与风格";
     lit "- 使用正式、清晰、结构化的书面语言；避免口语化与绝对化表述；";
     lit "- 回答要点先行（简洁摘要 1-2 行），随后给出支撑要点与必要细节；";
     lit "- **请直接回答问题，不要在文本中使用 [1]、[2] 等引用标记。**";
     [];
     lit "三、工具与检索规则";
     lit "- 当问题涉及“今天/现在/最近/当前”等时间概念，**必须先调用 `get_current_time` 工具**以获得精确日期/时间；在随后的任何网络检索查询中，应将该日期包含为查询关键字以提高时效性；";
     lit "- 需要检索或核实事实时，优先使用 `web_search` 或 `search_recent_news`；";
     lit "- 当结合用户上传文档（如 PDF）回答时，优先使用文档内容。";
     [];
     lit "四、推理与输出格式（reasoner 模式）";
     lit "- 可在中间阶段展示“思维链”以便可审计，但最终输出必须：";
     lit "  1) 要点摘要（结论）；";
     lit "  2) 支撑要点；";
     lit "  3) 建议或后续步骤（如需）；";
     lit "- 如果内部信息不足或检索冲突，应明确说明并建议进一步验证的方法。";
     [];
     lit "五、不确定性处理";
     lit "- 对无法确认或存在争议的信息，标注不确定性并避免断言性结论。";
     [];
     lit "六、交互和澄清";
     lit "- 若用户问题含糊或缺重要上下文，先礼貌提问以澄清（列出需要补充的信息）；";
     [];
     lit "始终以专业、可审计、可复现的方式生成回答。"].

Definition default_prompt : str :=
  join nl
    [lit "你是一个专业、严谨的多模态 RAG 助手（常规模式，不展示内部思维链）。请严格遵守以下规范以确保回答专业：";
     [];
     lit "一、职责与能力";
     lit "- 熟练进行文档解读、图像 OCR 与分析、音频转写理解与知识检索；";
     [];
     lit "二、表达与风格";
     lit "- 使用正式、简洁、结构化的书面表达；首段给出要点摘要（1-2 行），随后提供简洁证据与说明；";
     lit "- **请直接回答问题，不要在文本中使用 [1]、[2] 等引用标记。**";
     [];
     lit "三、工具与检索规则";
     lit "- 若问题包含时间词（如“今天/现在/最近”）或涉及最新进展，优先调用 `get_current_time` 获取精确日期，并在后续网络搜索查询中包含该日期；";
     lit "- 在需要时调用 `web_search` 或 `search_recent_news` 获取最新信息，使用检索结果支持结论；";
     [];
     lit "四、回答结构（优先）：";
     lit "1) 要点总结；";
     lit "2) 支撑要点；";
     lit "3) 建议或后续操作（如适用）。";
     [];
     lit "五、澄清请求";
     lit "- 若问题不够明确或缺关键信息，先提出 1-2 个简短澄清问题再继续处理。";
     [];
     lit "始终保持专业、客观，并确保回答中有明确的不确定性说明。"].

(** An element of [content_blocks], read with [.get]. *)
Record HistoryBlock := {
  hb_type : option str;
  hb_content : option str;
  hb_transcription : option str;
}.

(** An element of [history]: a dict with the key [role], and the keys
    [content] and [content_blocks] read with [.get]. *)
Record HistoryMessage := {
  h_role : str;
  h_content : option str;
  h_content_blocks : option (list HistoryBlock);
}.

Section WithBuiltins.
Context {B : Builtins}.

(** What one block adds to [message_content]; an [image_url] item is an
    item without text. *)
Definition block_items (block : HistoryBlock) : list ContentItem :=
  match hb_type block with
  | Some type =>
    if str_eqb type (lit "text") then
      [ItemText (Some (default [] (hb_content block)))]
    else if str_eqb type (lit "image") then
      let image_data := default [] (hb_content block) in
      if startswith (lit "data:image") image_data then [ItemOther] else []
    else if str_eqb type (lit "audio") then
      match hb_transcription block with
      | Some transcription =>
        if truthy transcription
        then [ItemText (Some (lit "[音频转写] " ++ transcription))] else []
      | None => []
      end
    else []
  | None => []
  end.

(** The body of the loop over [history]: the messages appended for one
    element. *)
Definition history_message (msg : HistoryMessage) : list Message :=
  let content := default [] (h_content msg) in
  let content_blocks := default [] (h_content_blocks msg) in
  if str_eqb (h_role msg) (lit "user") then
    if truthy content_blocks then
      let message_content :=
        (if truthy (strip content) then [ItemText (Some content)] else []) ++
        flat_map block_items content_blocks in
      [HumanMessage (Blocks message_content)]
    else [HumanMessage (Text content)]
  else if str_eqb (h_role msg) (lit "assistant") then
    [AIMessage {| resp_content := content; resp_tool_calls := [] |}]
  else [].

Definition system_prompt (model_name : option str) : str :=
  if is_reasoner model_name then reasoner_prompt else default_prompt.

Definition convert_history_to_messages (history : list HistoryMessage)
    (model_name : option str) : list Message :=
  SystemMessage (system_prompt model_name) :: flat_map history_message history.

End WithBuiltins.

(** The elements of the history that are converted. *)
Definition is_turn (msg : HistoryMessage) : bool :=
  str_eqb (h_role msg) (lit "user") || str_eqb (h_role msg) (lit "assistant").

Definition is_turn_message (m : Message) : bool :=
  match m with HumanMessage _ | AIMessage _ => true | _ => false end.

End History.

(** ** [main.py]: the references of an answer *)

Module References.
Import Py.

(** The punctuation of the class around a marker: the double quote and
    the characters of the literal below. *)
Definition marker_punctuation : str :=
  34%N :: lit "[](){}.,;:!?<>`~#$%^&*+=|/-".

Definition bracket_open : char := 91%N.
Definition bracket_close : char := 93%N.

(** An element of [pdf_chunks], with the keys of its metadata. *)
Record DocChunk := {
  doc_content : option str;
  doc_source : option str;
  doc_page_number : option Z;
  doc_chunk_id : option Z;
  doc_source_info : option str;
}.

Record DocReference := {
  r_id : Z;
  r_text : str;
  r_source : str;
  r_page : Z;
  r_chunk_id : Z;
  r_source_info : str;
}.

Section WithBuiltins.
Context {B : Builtins}.

Definition is_marker_char (c : char) : bool :=
  is_space c || char_in c marker_punctuation.

(** [\d*\]] at the head of [s]: the digits. *)
Fixpoint digits_then_close (s : str) : option str :=
  match s with
  | [] => None
  | c :: s' =>
    if is_digit c then cons c <$> digits_then_close s'
    else if char_eqb c bracket_close then Some [] else None
  end.

(** [\[(\d+)\]] at the head of [s]: group 1. *)
Definition marker_at (s : str) : option str :=
  match s with
  | c :: s' =>
    if char_eqb c bracket_open then
      match digits_then_close s' with
      | Some (d :: ds) => Some (d :: ds)
      | _ => None
      end
    else None
  | [] => None
  end.

(** [re.findall(reference_pattern, content)], the pattern being a marker
    between two greedy runs of the class. A match is found at the leftmost
    marker; the run before it changes nothing, since it cannot hold a
    digit, and the run after it is consumed with the match. [skip] counts
    the characters of the current marker still to pass, and [trailing]
    says that the run after a marker is being consumed. *)
Fixpoint findall_markers (skip : nat) (trailing : bool) (s : str) : list str :=
  match s with
  | [] => []
  | c :: s' =>
    match skip with
    | S k => findall_markers k trailing s'
    | O =>
      if trailing && is_marker_char c then findall_markers 0 true s'
      else
        match marker_at s with
        | Some digits => digits :: findall_markers (S (length digits)) true s'
        | None => findall_markers 0 false s'
        end
    end
  end.

(** The loop that removes the duplicates and keeps the order. *)
Fixpoint unique_from (unique_matches matches : list str) : list str :=
  match matches with
  | [] => unique_matches
  | m :: rest =>
    if existsb (str_eqb m) unique_matches then unique_from unique_matches rest
    else unique_from (unique_matches ++ [m]) rest
  end.

Definition reference_text (chunk : DocChunk) : str :=
  let content := default [] (doc_content chunk) in
  if (300 <? length content)%nat then take 300 content ++ lit "..." else content.

Definition reference_of (ref_num : Z) (chunk : DocChunk) : DocReference :=
  {| r_id := ref_num;
     r_text := reference_text chunk;
     r_source := default (lit "未知来源") (doc_source chunk);
     r_page := default 1%Z (doc_page_number chunk);
     r_chunk_id := default 0%Z (doc_chunk_id chunk);
     r_source_info := default (lit "未知来源") (doc_source_info chunk) |}.

(** The loop over [unique_matches]; [None] when [int(match)] raises. *)
Fixpoint references_from (unique_matches : list str) (pdf_chunks : list DocChunk)
    : option (list DocReference) :=
  match unique_matches with
  | [] => Some []
  | m :: rest =>
    match py_int m with
    | None => None
    | Some ref_num =>
      let found :=
        if (1 <=? ref_num)%Z && (ref_num <=? Z.of_nat (length pdf_chunks))%Z then
          match pdf_chunks !! Z.to_nat (ref_num - 1) with
          | Some chunk => [reference_of ref_num chunk]
          | None => []
          end
        else [] in
      app found <$> references_from rest pdf_chunks
    end
  end.

Definition extract_references_from_content (content : str)
    (pdf_chunks : option (list DocChunk)) : option (list DocReference) :=
  let matches := findall_markers 0 false content in
  let unique_matches := unique_from [] matches in
  let pdf_chunks := default [] pdf_chunks in
  if truthy unique_matches && truthy pdf_chunks
  then references_from unique_matches pdf_chunks
  else Some [].

End WithBuiltins.
End References.

(** ** [tools/web_search_tool.py]: the formatted results *)

Module WebSearch.
Import Py Main.

(** A search result, a dict read with [.get]. *)
Record SearchResult := {
  sr_title : option str;
  sr_snippet : option str;
  sr_url : option str;
  sr_source : option str;
}.

(** The snippet as it is shown: cut to [max_length] characters. *)
Definition shown_snippet (max_length : nat) (snippet : str) : str :=
  if (max_length <? length snippet)%nat then take max_length snippet ++ lit "..."
  else snippet.

(** The text appended for result number [i]. *)
Definition format_result (max_length : nat) (i : nat) (result : SearchResult) : str :=
  let title := default (lit "无标题") (sr_title result) in
  let snippet := default (lit "无描述") (sr_snippet result) in
  let url := default [] (sr_url result) in
  let source := default (lit "未知来源") (sr_source result) in
  let snippet := shown_snippet max_length snippet in
  lit "[" ++ str_of_nat i ++ lit "] " ++ title ++ nl ++
  lit "📝 " ++ snippet ++ nl ++
  (if truthy url then lit "🔗 " ++ url ++ nl else []) ++
  lit "📍 来源: " ++ source ++ nl ++ nl.

(** [for i, result in enumerate(results, 1): formatted += ...] *)
Fixpoint format_from (max_length : nat) (i : nat) (results : list SearchResult)
    (formatted : str) : str :=
  match results with
  | [] => formatted
  | result :: rest =>
    format_from max_length (S i) rest (formatted ++ format_result max_length i result)
  end.

Definition search_header : str := lit "🔍 网络搜索结果：" ++ nl ++ nl.

(** [format_results], for a [max_length] that is not negative (it is
    always the default, 500). *)
Definition format_results (results : list SearchResult) (max_length : nat) : str :=
  if truthy results then format_from max_length 1 results search_header
  else lit "未找到相关搜索结果。".

End WebSearch.

(** ** [tools/search_review_tool.py]: the parser and the review *)

Module Parsing.
Import Py Main.

(** The regular expressions of the parser are matched the way [re] does
    it, by backtracking: a match is a computation that hands what is left
    of the text to its continuation [k], and the first alternative whose
    continuation succeeds is taken. *)
Section Regex.
Context {A : Type}.

(** A literal. *)
Fixpoint re_lit (l s : str) (k : str -> option A) : option A :=
  match l, s with
  | [], _ => k s
  | x :: l', y :: s' => if char_eqb x y then re_lit l' s' k else None
  | _ :: _, [] => None
  end.

(** [p*], greedy: the longest run first. [k] gets the run and the rest. *)
Fixpoint re_greedy (p : char -> bool) (s : str) (k : str -> str -> option A)
    : option A :=
  match s with
  | c :: s' =>
    if p c then
      match re_greedy p s' (fun run => k (c :: run)) with
      | Some r => Some r
      | None => k [] s
      end
    else k [] s
  | [] => k [] []
  end.

(** [p*?], lazy: the shortest run first. *)
Fixpoint re_lazy (p : char -> bool) (s : str) (k : str -> str -> option A)
    : option A :=
  match k [] s with
  | Some r => Some r
  | None =>
    match s with
    | c :: s' => if p c then re_lazy p s' (fun run => k (c :: run)) else None
    | [] => None
    end
  end.

(** [(?:group)?]: the group first, then nothing. [k] gets what the group
    captured, if it matched. *)
Definition re_opt {G} (group : str -> (G -> str -> option A) -> option A) (s : str)
    (k : option G -> str -> option A) : option A :=
  match group s (fun g => k (Some g)) with
  | Some r => Some r
  | None => k None s
  end.

End Regex.

(** [.] under [re.S]. *)
Definition any_char (c : char) : bool := true.

(** The groups of a match of the entry pattern. *)
Record EntryMatch := {
  g_index : str;
  g_title : str;
  g_snippet : str;
  g_url : option str;
  g_source : str;
}.

Record ParsedEntry := {
  p_index : Z;
  p_title : str;
  p_snippet : str;
  p_url : str;
  p_source : str;
}.

Section WithBuiltins.
Context {B : Builtins}.

(** The pattern
    [\[(\d+)\]\s*(.*?)\n📝\s*(.*?)(?:\n🔗\s*(.*?))?\n📍 来源:\s*(.*?)\n\n]
    at the head of [s]: the groups and what follows the match. *)
Definition entry_pattern (s : str) : option (EntryMatch * str) :=
  re_lit (lit "[") s (fun s =>
  re_greedy is_digit s (fun index s =>
  if truthy index then
  re_lit (lit "]") s (fun s =>
  re_greedy is_space s (fun _ s =>
  re_lazy any_char s (fun title s =>
  re_lit (nl ++ lit "📝") s (fun s =>
  re_greedy is_space s (fun _ s =>
  re_lazy any_char s (fun snippet s =>
  re_opt
    (fun s k =>
       re_lit (nl ++ lit "🔗") s (fun s =>
       re_greedy is_space s (fun _ s =>
       re_lazy any_char s k)))
    s (fun url s =>
  re_lit (nl ++ lit "📍 来源:") s (fun s =>
  re_greedy is_space s (fun _ s =>
  re_lazy any_char s (fun source s =>
  re_lit (nl ++ nl) s (fun rest =>
  Some ({| g_index := index; g_title := title; g_snippet := snippet;
           g_url := url; g_source := source |}, rest))))))))))))
  else None)).

(** [pattern.finditer(formatted)]: the matches from left to right, each
    search starting where the match before ended; [skip] counts the
    characters of the current match still to pass. *)
Fixpoint finditer_from (skip : nat) (s : str) : list EntryMatch :=
  match s with
  | [] => []
  | _ :: s' =>
    match skip with
    | S k => finditer_from k s'
    | O =>
      match entry_pattern s with
      | Some (m, rest) => m :: finditer_from (length s' - length rest) s'
      | None => finditer_from 0 s'
      end
    end
  end.

(** The entry of a match; [None] when [int] raises. *)
Definition entry_of_match (m : EntryMatch) : option ParsedEntry :=
  index ← py_int (g_index m);
  Some {| p_index := index;
          p_title := strip (g_title m);
          p_snippet := strip (g_snippet m);
          p_url := strip (default [] (g_url m));
          p_source := strip (g_source m) |}.

(** [s.split(sep)] for a separator that is not empty; [cur] is the piece
    being read and [skip] counts the characters of a separator still to
    pass. *)
Fixpoint split_from (sep : str) (skip : nat) (cur : str) (s : str) : list str :=
  match s with
  | [] => [cur]
  | c :: s' =>
    match skip with
    | S k => split_from sep k cur s'
    | O =>
      if startswith sep s then cur :: split_from sep (length sep - 1) [] s'
      else split_from sep 0 (cur ++ [c]) s'
    end
  end.
Definition split (sep s : str) : list str := split_from sep 0 [] s.

Definition memo : char := Eval vm_compute in hd 0%N (lit "📝").
Definition link : char := Eval vm_compute in hd 0%N (lit "🔗").

(** The loop over [lines[1:]] of a block: the snippet, the url and the
    source read so far. *)
Fixpoint block_fields (lines : list str) (snippet url source : str)
    : str * str * str :=
  match lines with
  | [] => (snippet, url, source)
  | ln :: rest =>
    if startswith [memo] ln then
      block_fields rest (strip (replace_char memo [] ln)) url source
    else if startswith [link] ln then
      block_fields rest snippet (strip (replace_char link [] ln)) source
    else if str_in (lit "来源") ln || str_in (lit "来源:") ln then
      block_fields rest snippet url (strip (List.last (split (lit ":") ln) []))
    else block_fields rest snippet url source
  end.

(** The entry read from block number [i] when the pattern matched
    nowhere. *)
Definition block_entry (i : nat) (b : str) : ParsedEntry :=
  let lines := split nl b in
  let title := hd (lit "结果 " ++ str_of_nat i) lines in
  let '(snippet, url, source) := block_fields (tl lines) [] [] [] in
  {| p_index := Z.of_nat i; p_title := title; p_snippet := snippet;
     p_url := url; p_source := source |}.

Definition blocks_of (formatted : str) : list str :=
  List.filter truthy (map strip (split (nl ++ nl) formatted)).

Fixpoint block_entries (i : nat) (blocks : list str) : list ParsedEntry :=
  match blocks with
  | [] => []
  | b :: rest => block_entry i b :: block_entries (S i) rest
  end.

(** [None] when [int] raises on the index of a match. *)
Definition _parse_formatted_results (formatted : str) : option (list ParsedEntry) :=
  if truthy formatted then
    entries ← mapM entry_of_match (finditer_from 0 formatted);
    if truthy entries then Some entries
    else Some (block_entries 1 (blocks_of formatted))
  else Some [].

End WithBuiltins.
End Parsing.

Module ReviewTool.
Import Py Review Main Relevance WebSearch Parsing.

(** The float arithmetic of the review, on the rational values of the
    scores: [round(x, 3)], [round(rel * 0.7 + rec * 0.3, 3)], and the
    first reason, which compares [rel] with 0.4 and prints it. *)
Class FloatOps := {
  rounded : Q -> Q;
  weighted : Q -> Q -> Q;
  relevance_reason : Q -> str;
}.

(** What [review_search_results] puts in its answer, but for the summary
    and the metadata, which nothing reads back. *)
Record ReviewOutput := {
  out_recommendations : list Z;
  out_entries : list ScoredEntry;
}.

Section WithBuiltins.
Context {B : Builtins} {T : TextBuiltins} {F : FloatOps}.

(** The second reason; the recency score is one of five constants, which
    compare as rationals the way they do as floats. *)
Definition recency_reason (rec : Q) : str :=
  if Qle_bool 0.8 rec then lit "时间信息与查询高度一致"
  else if Qle_bool 0.5 rec then lit "时间可能相关"
  else lit "时间不明确或较旧".

(** The body of the loop over the parsed entries. *)
Definition review_entry (user_question current_date : str) (e : ParsedEntry)
    : ScoredEntry :=
  let rel := _compute_relevance_score user_question (p_title e) (p_snippet e) in
  let rec := _compute_recency_score current_date (p_title e) (p_snippet e) in
  {| index := p_index e; title := p_title e; snippet := p_snippet e;
     url := p_url e; source := p_source e;
     relevance_score := rounded rel; recency_score := rounded rec;
     final_score := weighted rel rec;
     reasons := [relevance_reason rel; recency_reason rec] |}.

(** [None] stands for the answer of the [except] clause, an object with
    the key [error] only. *)
Definition review_search_results (formatted_results user_question current_date : str)
    : option ReviewOutput :=
  entries ← _parse_formatted_results formatted_results;
  let results := map (review_entry user_question current_date) entries in
  Some {| out_recommendations := recommended results; out_entries := results |}.

(** An entry of the answer as [json.loads] gives it back to the
    dispatcher. *)
Definition json_entry (r : ScoredEntry) : JEntry :=
  {| j_index := index r; j_title := Some (title r); j_snippet := Some (snippet r);
     j_url := Some (url r); j_source := Some (source r);
     j_final_score := Some (final_score r); j_reasons := Some (reasons r) |}.

Definition review_json (answer : option ReviewOutput) : ReviewJson :=
  match answer with
  | Some o =>
    {| recommendations := out_recommendations o;
       entries := map json_entry (out_entries o) |}
  | None => {| recommendations := []; entries := [] |}
  end.

(** A field that the parser reads back as it is: not empty, without a
    line break, and without white space at either end. *)
Definition tidy (field : str) : Prop :=
  field <> [] /\ strip field = field /\ Forall (fun c => c <> 10%N) field.

(** The entry that result number [i] is shown as. *)
Definition shown_entry (max_length : nat) (i : nat) (result : SearchResult)
    : ParsedEntry :=
  {| p_index := Z.of_nat i;
     p_title := default (lit "无标题") (sr_title result);
     p_snippet := shown_snippet max_length (default (lit "无描述") (sr_snippet result));
     p_url := default [] (sr_url result);
     p_source := default (lit "未知来源") (sr_source result) |}.

Definition tidy_entry (e : ParsedEntry) : Prop :=
  tidy (p_title e) /\ tidy (p_snippet e) /\ tidy (p_source e) /\
  (p_url e = [] \/ tidy (p_url e)).

(** The line of the url of an entry, from the end of the snippet. *)
Definition url_line (url : str) : str :=
  if truthy url then (nl ++ lit "🔗") ++ [32%N] ++ url else [].

(** The text of entry number [i], delimiter by delimiter. *)
Definition entry_text (i : nat) (e : ParsedEntry) : str :=
  lit "[" ++ str_of_nat i ++ lit "]" ++ [32%N] ++ p_title e ++
  (nl ++ lit "📝") ++ [32%N] ++ p_snippet e ++ url_line (p_url e) ++
  (nl ++ lit "📍 来源:") ++ [32%N] ++ p_source e ++ (nl ++ nl).

(** The groups of the match of entry number [i]. *)
Definition entry_match (i : nat) (e : ParsedEntry) : EntryMatch :=
  {| g_index := str_of_nat i; g_title := p_title e; g_snippet := p_snippet e;
     g_url := if truthy (p_url e) then Some (p_url e) else None;
     g_source := p_source e |}.

(** The builtins read the decimal numeral of [n]. *)
Definition reads_numeral (n : nat) : Prop :=
  str_of_nat n <> [] /\
  Forall (fun c => is_digit c = true) (str_of_nat n) /\
  py_int (str_of_nat n) = Some (Z.of_nat n).

End WithBuiltins.
End ReviewTool.

(** ** More scenarios *)

Module Cases.
Import Py Review Main Scenarios Relevance History References WebSearch Parsing
  ReviewTool.

(** A tool output of 250 characters. *)
Definition long_output : str := repeat 120%N 250.

(** The tools answer with 250 characters. *)
Definition verbose_tools : Script :=
  {| sc_chunks := [answer_chunk "hi"]; sc_failure := None;
     sc_tool := fun _ => Ok long_output; sc_review := None;
     sc_append := Ok true; sc_bind := None |}.

(** The tools raise. *)
Definition broken_tools : Script :=
  {| sc_chunks := [answer_chunk "hi"]; sc_failure := None;
     sc_tool := fun _ => Raise (Exception (lit "timeout")); sc_review := None;
     sc_append := Ok true; sc_bind := None |}.

(** The stream breaks after its first chunk. *)
Definition broken_stream : Script :=
  {| sc_chunks := [answer_chunk "par"];
     sc_failure := Some (Exception (lit "connection lost"));
     sc_tool := fun _ => Ok (lit "12:00"); sc_review := None;
     sc_append := Ok true; sc_bind := None |}.

(** One round with a tool whose output is long. *)
Abbreviation verbose_run :=
  (generate_streaming_response_with_tools (C := scripted verbose_tools) hello
     (Some (lit "deepseek-chat")) None true 5 None [wants ["get_current_time"]%string]).

Abbreviation broken_stream_run :=
  (generate_streaming_response_with_tools (C := scripted broken_stream) hello
     (Some (lit "deepseek-chat")) None true 5 (Some (lit "s1")) []).

(** The first invocation of the model raises. *)
Abbreviation refused_run :=
  (generate_streaming_response_with_tools (C := scripted plain) hello
     (Some (lit "deepseek-chat")) None true 5 (Some (lit "s1"))
     [Raise (Exception (lit "rate limit"))]).

(** A session in which the model answers at once. *)
Abbreviation direct_run :=
  (generate_streaming_response_with_tools (C := scripted plain) hello
     (Some (lit "deepseek-chat")) None true 5 (Some (lit "s1")) []).

(** No iteration is allowed. *)
Abbreviation unlooped_run :=
  (generate_streaming_response_with_tools (C := scripted plain) hello
     (Some (lit "deepseek-chat")) None true 0 None [wants ["get_current_time"]%string]).

(** A call to the clock that carries no id. *)
Definition anonymous_call : ToolCall :=
  {| tc_name := Some (lit "get_current_time"); tc_args := None; tc_id := None |}.

(** The model asks for the time twice, the second time without an id. *)
Abbreviation anonymous_run :=
  (generate_streaming_response_with_tools (C := scripted plain) hello
     (Some (lit "deepseek-chat")) None true 5 None
     [Ok {| resp_content := [];
            resp_tool_calls := [call_of "get_current_time"; anonymous_call] |}]).

(** The response of the scripted model once its answers are used up. *)
Definition done : Response := {| resp_content := lit "done"; resp_tool_calls := [] |}.

(** The tokenizer on ASCII text: letters, digits and the underscore are
    word characters. *)
Definition ascii_word (c : char) : bool :=
  ((48 <=? c) && (c <=? 57))%N || ((65 <=? c) && (c <=? 90))%N ||
  ((97 <=? c) && (c <=? 122))%N || (c =? 95)%N.

#[export] Instance ascii_text : TextBuiltins :=
  {| is_word := ascii_word; py_lower := lower |}.

(** Three chunks of a document. *)
Definition doc (text : string) : DocChunk :=
  {| doc_content := Some (lit text); doc_source := Some (lit "paper.pdf");
     doc_page_number := None; doc_chunk_id := None; doc_source_info := None |}.

Definition three_docs : list DocChunk := [doc "alpha"; doc "beta"; doc "gamma"].

(** A history with a system entry, which is dropped. *)
Definition sample_history : list HistoryMessage :=
  [{| h_role := lit "user"; h_content := Some (lit "hello"); h_content_blocks := None |};
   {| h_role := lit "system"; h_content := Some (lit "ignored"); h_content_blocks := None |};
   {| h_role := lit "assistant"; h_content := Some (lit "hi"); h_content_blocks := None |}].

(** Two search results; the second has no url. *)
Definition two_results : list SearchResult :=
  [{| sr_title := Some (lit "Rocq 9.1 released"); sr_snippet := Some (lit "The release notes.");
      sr_url := Some (lit "https://rocq-prover.org/news"); sr_source := Some (lit "DuckDuckGo") |};
   {| sr_title := Some (lit "今日天气"); sr_snippet := None;
      sr_url := None; sr_source := Some (lit "百度搜索") |}].

(** The text the search tool returns when the search raises. *)
Definition search_failure : str := lit "搜索失败: timeout".

(** The nearest integer, ties going to the even one, as [round] and the
    format [.2f] choose it. *)
Definition nearest (x : Q) : Z :=
  let d := Z.pos (Qden x) in
  let q := (Qnum x / d)%Z in
  let r := (Qnum x mod d)%Z in
  if (2 * r <? d)%Z then q
  else if (d <? 2 * r)%Z then (q + 1)%Z
  else if Z.even q then q else (q + 1)%Z.

(** [round(x, 3)] *)
Definition round3 (x : Q) : Q := Qred (nearest (x * 1000) # 1000).

(** [f"{x:.2f}"] for a score, which is not negative. *)
Definition fixed2 (x : Q) : str :=
  let n := Z.to_nat (nearest (x * 100)) in
  let cents := (n mod 100)%nat in
  str_of_nat (n / 100) ++ lit "." ++
  (if (cents <? 10)%nat then lit "0" else []) ++ str_of_nat cents.

(** The float arithmetic of the review, done on exact rationals. The
    floats of the source give the same values unless the exact value is
    within a rounding error of a tie of the rounding or of the threshold
    0.4. *)
#[export] Instance exact_scores : FloatOps :=
  {| rounded := round3;
     weighted := fun rel rec => round3 (rel * 0.7 + rec * 0.3);
     relevance_reason := fun rel =>
       (if Qle_bool rel 0.4 then lit "关键词匹配弱(" else lit "关键词匹配(") ++
       fixed2 rel ++ lit ")" |}.

(** The review of the failure text: one entry, whose title is the text. *)
Definition failure_review : ReviewOutput :=
  {| out_recommendations := [1%Z];
     out_entries :=
       [{| index := 1; title := search_failure; snippet := []; url := [];
           source := []; relevance_score := 0; recency_score := 0.3;
           final_score := 0.09;
           reasons := [lit "关键词匹配弱(0.00)"; lit "时间不明确或较旧"] |}] |}.

End Cases.

(** ** Facts about the review tool *)

Module ReviewFacts.
Import Py Review Scenarios.

Lemma char_eqb_eq (a b : char) : char_eqb a b = true <-> a = b.
Proof. apply N.eqb_eq. Qed.

Lemma startswith_spec (p s : str) :
  startswith p s = true <-> exists post, s = p ++ post.
Proof.
  revert s. induction p as [|x p IH]; intros s; simpl.
  - split; [intros _; exists s; reflexivity | reflexivity].
  - destruct s as [|y s]; simpl.
    + split; [discriminate | intros [post Hpost]; discriminate].
    + rewrite andb_true_iff, char_eqb_eq, IH. split.
      * intros [-> [post ->]]. exists post. reflexivity.
      * intros [post Hpost]. injection Hpost as -> ->. split; [reflexivity | eauto].
Qed.

(** [sub in s] holds exactly when [sub] occurs in [s]. *)
Lemma str_in_spec (sub s : str) :
  str_in sub s = true <-> exists pre post, s = pre ++ sub ++ post.
Proof.
  induction s as [|c s IH]; simpl.
  - rewrite orb_false_r, startswith_spec. split.
    + intros [post ->]. exists [], post. reflexivity.
    + intros [pre [post Heq]]. destruct pre; [exists post; exact Heq | discriminate].
  - rewrite orb_true_iff, startswith_spec, IH. split.
    + intros [[post ->] | [pre [post ->]]].
      * exists [], post. reflexivity.
      * exists (c :: pre), post. reflexivity.
    + intros [pre [post Heq]]. destruct pre as [|c' pre]; simpl in Heq.
      * left. exists post. exact Heq.
      * right. injection Heq as _ ->. eauto.
Qed.

Section WithBuiltins.
Context {B : Builtins}.

(** A non-empty reference date that occurs in the text of an entry (title,
    a space, snippet) exactly as it was supplied gives the score 1.0. *)
Lemma recency_exact_date (current_date title snippet pre post : str) :
  current_date <> [] ->
  title ++ lit " " ++ snippet = pre ++ current_date ++ post ->
  _compute_recency_score current_date title snippet = 1.0%Q.
Proof.
  intros Hne Hocc. unfold _compute_recency_score.
  assert (Hin : str_in current_date (title ++ lit " " ++ snippet) = true).
  { apply str_in_spec. eauto. }
  rewrite Hin. destruct current_date; [contradiction | reflexivity].
Qed.

End WithBuiltins.

(** C6: the reference date 2025-11-22 appears in the text in the form
    2025年11月22日, and the score is 0.6, not 1.0: the second test of the
    exact-date rule looks for [current_date.replace('-', '年')], which is
    2025年11年22. *)
Theorem recency_other_form_not_matched :
  replace_char dash [nian] (lit "2025-11-22") = lit "2025年11年22" /\
  str_in (lit "2025年11月22日") (lit "2025年11月22日 要闻" ++ lit " " ++ lit "摘要") = true /\
  _compute_recency_score (lit "2025-11-22") (lit "2025年11月22日 要闻") (lit "摘要") = 0.6%Q /\
  _compute_recency_score (lit "2025年11月22日") (lit "要闻") (lit "2025-11-22 摘要") = 0.3%Q.
Proof. repeat split; vm_compute; reflexivity. Qed.

Section YearRules.
Context {B : Builtins}.

Lemma findall_year_from_head (s : str) :
  hd_error (findall_year_from 0 s) = search_year s.
Proof.
  induction s as [|c s IH]; [reflexivity|].
  cbn [findall_year_from search_year].
  destruct (year_at (c :: s)); [reflexivity | exact IH].
Qed.

(** The first year found by [re.findall] is the leftmost match. *)
Lemma findall_year_head (s : str) : hd_error (findall_year s) = search_year s.
Proof. apply findall_year_from_head. Qed.

(** A match of [(\d{4})年] at the head of [s]: four digits, then 年. *)
Lemma year_at_spec (s y : str) :
  year_at s = Some y <->
  exists post, s = y ++ nian :: post /\ length y = 4%nat /\ forallb is_digit y = true.
Proof.
  unfold year_at. split.
  - destruct s as [|d1 [|d2 [|d3 [|d4 [|c post]]]]]; try discriminate.
    destruct (is_digit d1 && is_digit d2 && is_digit d3 && is_digit d4 && char_eqb c nian)
      eqn:Hm; [|discriminate].
    intros H. injection H as <-.
    rewrite !andb_true_iff in Hm. destruct Hm as [[[[H1 H2] H3] H4] Hc].
    apply char_eqb_eq in Hc. subst c. exists post.
    cbn [forallb]. rewrite H1, H2, H3, H4. repeat split.
  - intros [post [-> [Hlen Hdig]]].
    destruct y as [|d1 [|d2 [|d3 [|d4 [|d5 y]]]]]; try discriminate Hlen.
    cbn [forallb] in Hdig. rewrite !andb_true_iff in Hdig.
    destruct Hdig as [H1 [H2 [H3 [H4 _]]]].
    cbn [app]. rewrite H1, H2, H3, H4. unfold char_eqb. rewrite N.eqb_refl. reflexivity.
Qed.

(** The year found by [re.search] is the leftmost match: no match starts
    before it. *)
Lemma search_year_leftmost (s y : str) :
  search_year s = Some y ->
  exists pre post,
    s = pre ++ y ++ nian :: post /\ length y = 4%nat /\ forallb is_digit y = true /\
    forall k, (k < length pre)%nat -> year_at (drop k s) = None.
Proof.
  induction s as [|c s IH].
  - cbn. discriminate.
  - cbn [search_year]. destruct (year_at (c :: s)) as [y0|] eqn:Hat.
    + intros H. injection H as ->. apply year_at_spec in Hat as [post [Hs [Hlen Hdig]]].
      exists [], post. cbn [app length]. repeat split; try assumption. intros k Hk. lia.
    + intros H. destruct (IH H) as [pre [post [Hs [Hlen [Hdig Hleft]]]]].
      exists (c :: pre), post. rewrite Hs. repeat split; try assumption.
      intros [|k] Hk; [rewrite <- Hs; exact Hat|].
      cbn [drop]. rewrite <- Hs. apply Hleft. cbn in Hk. lia.
Qed.

(** [re.findall] finds nothing exactly when no match starts anywhere. *)
Lemma search_year_none (s : str) :
  search_year s = None -> forall k, year_at (drop k s) = None.
Proof.
  induction s as [|c s IH]; intros H k.
  - destruct k; reflexivity.
  - cbn [search_year] in H. destruct (year_at (c :: s)) eqn:Hat; [discriminate|].
    destruct k as [|k]; [exact Hat | apply IH, H].
Qed.

(** C7, as the code has it: with neither the exact-date rule nor a
    relative-recency marker applying, the score is decided by the first
    year mentioned in the text (the first match of four digits followed by
    年): 0.6 when it equals the non-zero year read from the reference date,
    0.2 when it differs or the reference date yields no such year, and 0.3
    when the text mentions no year. *)
Theorem recency_by_first_year (current_date title snippet : str) :
  let text := title ++ lit " " ++ snippet in
  current_date = [] \/
    (str_in current_date text = false /\
     str_in (replace_char dash [nian] current_date) text = false) ->
  search_recency_marker text = false ->
  (findall_year text = [] ->
     _compute_recency_score current_date title snippet = 0.3%Q) /\
  (forall y0 ys n,
     findall_year text = y0 :: ys ->
     now_year_of current_date = Some n -> n <> 0%Z -> py_int y0 = Some n ->
     _compute_recency_score current_date title snippet = 0.6%Q) /\
  (forall y0 ys,
     findall_year text = y0 :: ys ->
     now_year_of current_date = None \/ now_year_of current_date = Some 0%Z \/
       py_int y0 <> now_year_of current_date ->
     _compute_recency_score current_date title snippet = 0.2%Q).
Proof.
  intros text Hdate Hmark. unfold _compute_recency_score. fold text.
  assert (Hrule :
    truthy current_date &&
    (str_in current_date text || str_in (replace_char dash [nian] current_date) text)
    = false).
  { destruct Hdate as [-> | [H1 H2]]; [reflexivity|].
    rewrite H1, H2. apply andb_false_r. }
  rewrite Hrule, Hmark. repeat split.
  - intros ->. reflexivity.
  - intros y0 ys n -> -> Hn ->.
    destruct (Z.eqb_spec n 0) as [->|_]; [contradiction|]. simpl.
    rewrite Z.eqb_refl. reflexivity.
  - intros y0 ys -> Hyear.
    destruct (now_year_of current_date) as [n|]; [|reflexivity].
    destruct (Z.eqb_spec n 0) as [->|Hn]; [reflexivity|]. simpl.
    destruct (py_int y0) as [y|]; [|reflexivity].
    destruct (Z.eqb_spec y n) as [->|_]; [|reflexivity].
    destruct Hyear as [H | [H | H]]; congruence.
Qed.

End YearRules.

(** Each of the three year cases on a sample entry, for the reference date
    2025-11-22. *)
Lemma recency_by_first_year_witness :
  _compute_recency_score (lit "2025-11-22") (lit "回顾") (lit "展望") = 0.3%Q /\
  _compute_recency_score (lit "2025-11-22") (lit "回顾") (lit "2025年展望") = 0.6%Q /\
  _compute_recency_score (lit "2025-11-22") (lit "2024年回顾") (lit "展望") = 0.2%Q.
Proof.
  split; [|split].
  - apply (recency_by_first_year (lit "2025-11-22") (lit "回顾") (lit "展望"));
      [right; split; reflexivity | reflexivity | reflexivity].
  - apply (recency_by_first_year (lit "2025-11-22") (lit "回顾") (lit "2025年展望")
             (ltac:(right; split; reflexivity)) (ltac:(reflexivity)))
      with (y0 := lit "2025") (ys := []) (n := 2025%Z);
      [reflexivity | reflexivity | discriminate | reflexivity].
  - apply (recency_by_first_year (lit "2025-11-22") (lit "2024年回顾") (lit "展望")
             (ltac:(right; split; reflexivity)) (ltac:(reflexivity)))
      with (y0 := lit "2024") (ys := []);
      [reflexivity | right; right; discriminate].
Defined.

(** C7 as stated fails: a text that mentions the reference year after
    another year scores 0.2. *)
Lemma recency_year_mention_counterexample :
  ~ (forall current_date title snippet y n,
       let text := title ++ lit " " ++ snippet in
       str_in current_date text = false ->
       search_recency_marker text = false ->
       In y (findall_year text) ->
       now_year_of current_date = Some n -> py_int y = Some n ->
       (_compute_recency_score current_date title snippet == 0.6)%Q).
Proof.
  intros H.
  specialize (H (lit "2025-11-22") (lit "2024年回顾") (lit "2025年展望")
                (lit "2025") 2025%Z).
  cbv zeta in H.
  assert (Hq : (_compute_recency_score (lit "2025-11-22") (lit "2024年回顾")
                  (lit "2025年展望") == 0.6)%Q).
  { apply H; [reflexivity | reflexivity | right; left; reflexivity
             | reflexivity | reflexivity]. }
  vm_compute in Hq. discriminate Hq.
Qed.

(** *** The recommendation step *)

Section Sorting.
Context {A : Type} (key : A -> Q).

Lemma insert_desc_perm (x : A) (l : list A) :
  Permutation (insert_desc key x l) (x :: l).
Proof.
  induction l as [|y l IH]; simpl; [reflexivity|].
  destruct (Qle_bool (key y) (key x)); [reflexivity|].
  rewrite IH. apply perm_swap.
Qed.

Lemma sorted_desc_perm (l : list A) : Permutation (sorted_desc key l) l.
Proof.
  induction l as [|x l IH]; simpl; [reflexivity|].
  rewrite insert_desc_perm, IH. reflexivity.
Qed.

Lemma insert_desc_sorted (x : A) (l : list A) :
  StronglySorted (fun a b => (key b <= key a)%Q) l ->
  StronglySorted (fun a b => (key b <= key a)%Q) (insert_desc key x l).
Proof.
  induction 1 as [|y l Hs IH Hall]; simpl.
  - constructor; constructor.
  - destruct (Qle_bool (key y) (key x)) eqn:Hle.
    + apply Qle_bool_iff in Hle. constructor.
      * constructor; assumption.
      * constructor; [exact Hle|].
        eapply List.Forall_impl; [|exact Hall].
        intros z Hz. simpl in Hz. eapply Qle_trans; eassumption.
    + constructor; [exact IH|].
      assert (Hlt : (key x < key y)%Q).
      { apply Qnot_le_lt. intros Hc. apply Qle_bool_iff in Hc. congruence. }
      apply Forall_forall. intros z Hz.
      apply list_elem_of_In in Hz.
      apply (Permutation_in _ (insert_desc_perm x l)) in Hz.
      destruct Hz as [<- | Hz]; [apply Qlt_le_weak; exact Hlt|].
      rewrite List.Forall_forall in Hall. apply Hall. exact Hz.
Qed.

Lemma sorted_desc_sorted (l : list A) :
  StronglySorted (fun a b => (key b <= key a)%Q) (sorted_desc key l).
Proof.
  induction l as [|x l IH]; simpl; [constructor|].
  apply insert_desc_sorted. exact IH.
Qed.



End Sorting.


Lemma top_two_indices (l : list ScoredEntry) :
  omap (fun i => index <$> l !! i) (seq 0 (Nat.min 2 (length l)))
  = map index (take 2 l).
Proof. destruct l as [|a [|b l]]; reflexivity. Qed.



End ReviewFacts.

(** ** Facts about the dispatcher and the loop *)

Module MainFacts.
Import Py Main Scenarios.

Section WithWorld.
Context {World : Type} {C : Collaborators World} {B : Builtins}.

(** *** Stepping through the generator monad *)

Lemma bind_ok {A R} (m : Gen A) (k : A -> Gen R) (w : World) (a : A) :
  value (m w) = Ok a ->
  bind m k w =
  {| trace := trace (m w) ++ trace (k a (world (m w)));
     world := world (k a (world (m w)));
     value := value (k a (world (m w))) |}.
Proof. intros H. unfold bind. rewrite H. reflexivity. Qed.

Lemma bind_raise {A R} (m : Gen A) (k : A -> Gen R) (w : World) (e : Exn) :
  value (m w) = Raise e ->
  bind m k w = {| trace := trace (m w); world := world (m w); value := Raise e |}.
Proof. intros H. unfold bind. rewrite H. reflexivity. Qed.

Lemma outcome_eta {A} (o : @Outcome World A) :
  {| trace := trace o; world := world o; value := value o |} = o.
Proof. destruct o. reflexivity. Qed.

(** *** The dispatcher only runs tools, and raises only for a call without id *)

Lemma review_result_ok (tool_name : option str) (messages : list Message)
    (result : str) (w : World) :
  (exists r, value (review_result tool_name messages result w) = Ok r) /\
  Forall (fun a => is_tool_run a = true)
         (trace (review_result tool_name messages result w)).
Proof.
  unfold review_result.
  destruct (is_search_like tool_name); [|split; [eexists; reflexivity | constructor]].
  destruct (List.find _ all_tools) as [review_tool|];
    [|split; [eexists; reflexivity | constructor]].
  unfold catch, bind, run_tool, call, ret. simpl.
  destruct (tool_ainvoke review_tool _ w) as [[text|e] w']; simpl.
  - split; [eexists; reflexivity | repeat constructor].
  - split; [eexists; reflexivity | repeat constructor].
Qed.

(** A call to a registered tool: tools are run, then the call is answered
    by one message with its id and name, or, without an id, the
    construction of the message raises. *)
Lemma execute_tool_call_registered (tool_call : ToolCall) (messages : list Message)
    (w : World) (tool : str) :
  find_tool (tc_name tool_call) = Some tool ->
  exists content,
    Forall (fun a => is_tool_run a = true)
           (trace (execute_tool_call tool_call messages w)) /\
    value (execute_tool_call tool_call messages w) =
      match tc_id tool_call with
      | Some id =>
        Ok [{| tm_content := content; tm_tool_call_id := Some id;
               tm_name := tc_name tool_call |}]
      | None => Raise tool_message_error
      end.
Proof.
  intros Hfind. unfold execute_tool_call. rewrite Hfind.
  unfold catch, bind, run_tool, call, tool_message. simpl.
  destruct (tool_ainvoke tool _ w) as [[result|e] w']; simpl.
  - destruct (review_result_ok (tc_name tool_call) messages result w')
      as [[r Hr] Htr].
    rewrite Hr. simpl.
    destruct (tc_id tool_call) as [id|]; simpl.
    + exists r. split; [|reflexivity].
      constructor; [reflexivity|]. rewrite !app_nil_r. exact Htr.
    + exists r. split; [|reflexivity].
      constructor; [reflexivity|]. rewrite !app_nil_r. exact Htr.
  - destruct (tc_id tool_call) as [id|]; simpl.
    + eexists. split; [repeat constructor | reflexivity].
    + exists []. split; [repeat constructor | reflexivity].
Qed.

Lemma execute_tool_call_runs (tool_call : ToolCall) (messages : list Message)
    (w : World) :
  Forall (fun a => is_tool_run a = true)
         (trace (execute_tool_call tool_call messages w)).
Proof.
  destruct (find_tool (tc_name tool_call)) as [tool|] eqn:Hfind.
  - destruct (execute_tool_call_registered tool_call messages w tool Hfind)
      as [content [Htr _]]. exact Htr.
  - unfold execute_tool_call. rewrite Hfind. constructor.
Qed.

Lemma execute_tool_calls_cons (tool_call : ToolCall) (rest : list ToolCall)
    (messages : list Message) (w : World) :
  let o := execute_tool_call tool_call messages w in
  execute_tool_calls (tool_call :: rest) messages w =
  match value o with
  | Ok tool_messages =>
    let o' := execute_tool_calls rest messages (world o) in
    {| trace := trace o ++ trace o'; world := world o';
       value := match value o' with
                | Ok more => Ok (tool_messages ++ more)
                | Raise e => Raise e
                end |}
  | Raise e => {| trace := trace o; world := world o; value := Raise e |}
  end.
Proof.
  cbn [execute_tool_calls]. unfold bind at 1. cbv zeta.
  destruct (value (execute_tool_call tool_call messages w)); [|reflexivity].
  unfold bind, ret.
  destruct (value (execute_tool_calls rest messages _)); cbn [trace world value].
  - rewrite app_nil_r. reflexivity.
  - reflexivity.
Qed.

Lemma execute_tool_calls_runs (tool_calls : list ToolCall)
    (messages : list Message) (w : World) :
  Forall (fun a => is_tool_run a = true)
         (trace (execute_tool_calls tool_calls messages w)).
Proof.
  revert w. induction tool_calls as [|tc rest IH]; intros w; [constructor|].
  rewrite execute_tool_calls_cons. cbv zeta.
  pose proof (execute_tool_call_runs tc messages w) as Htr.
  destruct (value (execute_tool_call tc messages w)); cbn [trace]; [|exact Htr].
  apply Forall_app. split; [exact Htr | apply IH].
Qed.

(** The dispatcher returns normally when every call to a registered tool
    has an id. *)
Lemma execute_tool_calls_returns (tool_calls : list ToolCall)
    (messages : list Message) (w : World) :
  (forall tc, In tc tool_calls -> find_tool (tc_name tc) <> None -> tc_id tc <> None) ->
  exists tms, value (execute_tool_calls tool_calls messages w) = Ok tms.
Proof.
  revert w. induction tool_calls as [|tc rest IH]; intros w Hids.
  - eexists. reflexivity.
  - rewrite execute_tool_calls_cons. cbv zeta.
    assert (Hone : exists tms, value (execute_tool_call tc messages w) = Ok tms).
    { destruct (find_tool (tc_name tc)) as [tool|] eqn:Hfind.
      - destruct (execute_tool_call_registered tc messages w tool Hfind)
          as [content [_ Hv]].
        destruct (tc_id tc) as [id|] eqn:Hid; [eexists; exact Hv|].
        exfalso. apply (Hids tc (or_introl eq_refl)); [congruence | exact Hid].
      - unfold execute_tool_call. rewrite Hfind. eexists. reflexivity. }
    destruct Hone as [tms ->].
    destruct (IH (world (execute_tool_call tc messages w))) as [more Hmore].
    { intros tc' Hin. apply Hids. right. exact Hin. }
    cbn [value]. rewrite Hmore. eexists. reflexivity.
Qed.

Lemma find_none {A} (f : A -> bool) (l : list A) :
  (forall x, In x l -> f x = false) -> List.find f l = None.
Proof.
  induction l as [|x l IH]; intros H; simpl; [reflexivity|].
  rewrite (H x (or_introl eq_refl)). apply IH. intros y Hy. apply H. right. exact Hy.
Qed.

Lemma str_eqb_eq (a b : str) : str_eqb a b = true <-> a = b.
Proof.
  revert b. induction a as [|x a IH]; intros [|y b]; simpl; try (split; congruence).
  rewrite andb_true_iff, IH. unfold char_eqb. rewrite N.eqb_eq.
  split; [intros [-> ->]; reflexivity | intros H; injection H; auto].
Qed.

Lemma find_tool_unknown (tool_name : option str) :
  (forall tool, In tool all_tools -> tool_name <> Some tool) ->
  find_tool tool_name = None.
Proof.
  intros H. destruct tool_name as [n|]; [|reflexivity]. unfold find_tool.
  apply find_none. intros tool Hin.
  destruct (str_eqb tool n) eqn:E; [|reflexivity].
  apply str_eqb_eq in E. subst. exfalso. exact (H n Hin eq_refl).
Qed.

(** C9: a tool call whose name is not registered runs nothing, adds no
    tool message and leaves the world as it is; the calls before and after
    it are processed as if it were absent: the dispatcher ends the same
    way, with the same messages and the same tool runs, and it yields no
    event. It returns normally when the registered calls around it have
    an id. *)
Theorem unknown_tool_skipped (before after : list ToolCall)
    (tool_call : ToolCall) (messages : list Message) (w : World) :
  (forall tool, In tool all_tools -> tc_name tool_call <> Some tool) ->
  execute_tool_call tool_call messages w =
    {| trace := []; world := w; value := Ok [] |} /\
  execute_tool_calls (before ++ tool_call :: after) messages w =
    execute_tool_calls (before ++ after) messages w /\
  Forall (fun a => is_tool_run a = true)
         (trace (execute_tool_calls (before ++ tool_call :: after) messages w)) /\
  ((forall tc, In tc (before ++ after) ->
      find_tool (tc_name tc) <> None -> tc_id tc <> None) ->
   exists tms,
     value (execute_tool_calls (before ++ tool_call :: after) messages w) = Ok tms).
Proof.
  intros Hunknown. apply find_tool_unknown in Hunknown.
  assert (Hone : forall w', execute_tool_call tool_call messages w' =
                            {| trace := []; world := w'; value := Ok [] |}).
  { intros w'. unfold execute_tool_call. rewrite Hunknown. reflexivity. }
  assert (Hsame : forall w', execute_tool_calls (before ++ tool_call :: after) messages w' =
                             execute_tool_calls (before ++ after) messages w').
  { induction before as [|tc before IH]; intros w'.
    - cbn [app]. rewrite execute_tool_calls_cons. cbv zeta. rewrite Hone.
      cbn [value trace world app].
      destruct (execute_tool_calls after messages w') as [tr w'' [tms|e]]; reflexivity.
    - cbn [app]. rewrite !execute_tool_calls_cons. cbv zeta.
      destruct (value (execute_tool_call tc messages w')); [|reflexivity].
      rewrite IH. reflexivity. }
  split; [apply Hone|]. split; [apply Hsame|].
  split; [apply execute_tool_calls_runs|].
  intros Hids. rewrite Hsame. apply execute_tool_calls_returns, Hids.
Qed.

(** *** The tool loop *)

(** One pass of the loop, with its trace written out. *)
Lemma tool_loop_step (fuel : nat) (model : ChatModel) (max_iterations : Z)
    (iteration : Z) (messages : list Message) (w : World) :
  tool_loop (S fuel) model max_iterations iteration messages w =
  if (iteration <? max_iterations)%Z then
    match ainvoke model messages w with
    | (Raise e, w1) =>
      {| trace := [Invoked model messages (Raise e)]; world := w1; value := Raise e |}
    | (Ok response, w1) =>
      if truthy (resp_tool_calls response) then
        let messages1 := messages ++ [AIMessage response] in
        let o := execute_tool_calls (resp_tool_calls response) messages1 w1 in
        match value o with
        | Ok tool_messages =>
          let o' := tool_loop fuel model max_iterations (iteration + 1)
                      (messages1 ++ map ToolMessage tool_messages) (world o) in
          {| trace :=
               Invoked model messages (Ok response)
               :: Yield (tool_call_data (resp_tool_calls response))
               :: trace o ++ Yield (tool_result_data tool_messages) :: trace o';
             world := world o'; value := value o' |}
        | Raise e =>
          {| trace :=
               Invoked model messages (Ok response)
               :: Yield (tool_call_data (resp_tool_calls response)) :: trace o;
             world := world o; value := Raise e |}
        end
      else
        {| trace := [Invoked model messages (Ok response)]; world := w1;
           value := Ok ((iteration + 1)%Z, messages) |}
    end
  else {| trace := []; world := w; value := Ok (iteration, messages) |}.
Proof.
  cbn [tool_loop]. destruct (iteration <? max_iterations)%Z; [|reflexivity].
  unfold bind at 1. unfold call.
  destruct (ainvoke model messages w) as [[response|e] w1]; [|reflexivity].
  cbn [value world trace].
  destruct (truthy (resp_tool_calls response)); [|reflexivity].
  unfold bind, yield. cbn [value world trace]. cbv zeta.
  destruct (value (execute_tool_calls _ _ w1)); reflexivity.
Qed.

Lemma tool_loop_zero (model : ChatModel) (max_iterations iteration : Z)
    (messages : list Message) (w : World) :
  tool_loop 0 model max_iterations iteration messages w =
  {| trace := []; world := w; value := Ok (iteration, messages) |}.
Proof. reflexivity. Qed.

(** The fuel is enough: once it covers the distance from the counter to the
    ceiling, more fuel changes nothing, so the loop always ends because its
    condition fails or a response has no tool call. *)
Lemma tool_loop_fuel (fuel : nat) (model : ChatModel) (max_iterations : Z) :
  forall (iteration : Z) (messages : list Message) (w : World),
    (Z.to_nat (max_iterations - iteration) <= fuel)%nat ->
    tool_loop fuel model max_iterations iteration messages w =
    tool_loop (Z.to_nat (max_iterations - iteration)) model max_iterations
      iteration messages w.
Proof.
  induction fuel as [|fuel IH]; intros iteration messages w Hfuel.
  - replace (Z.to_nat (max_iterations - iteration)) with 0%nat by lia. reflexivity.
  - destruct (Z.ltb_spec iteration max_iterations) as [Hlt|Hge].
    + replace (Z.to_nat (max_iterations - iteration))
        with (S (Z.to_nat (max_iterations - (iteration + 1)))) by lia.
      rewrite !tool_loop_step.
      destruct (iteration <? max_iterations)%Z; [|reflexivity].
      destruct (ainvoke model messages w) as [[response|e] w1]; [|reflexivity].
      destruct (truthy (resp_tool_calls response)); [|reflexivity].
      cbv zeta. destruct (value (execute_tool_calls _ _ w1)); [|reflexivity].
      rewrite IH by lia. reflexivity.
    + replace (Z.to_nat (max_iterations - iteration)) with 0%nat by lia.
      rewrite tool_loop_step, tool_loop_zero.
      destruct (Z.ltb_spec iteration max_iterations); [lia | reflexivity].
Qed.

Lemma count_app (p : Action -> bool) (t1 t2 : list Action) :
  count p (t1 ++ t2) = (count p t1 + count p t2)%nat.
Proof. unfold count. rewrite List.filter_app, length_app. reflexivity. Qed.

Lemma count_cons (p : Action -> bool) (a : Action) (t : list Action) :
  count p (a :: t) = (Nat.b2n (p a) + count p t)%nat.
Proof. unfold count. simpl. destruct (p a); reflexivity. Qed.

Lemma count_none (p : Action -> bool) (t : list Action) :
  Forall (fun a => p a = false) t -> count p t = 0%nat.
Proof.
  induction 1 as [|a t Ha _ IH]; [reflexivity|].
  rewrite count_cons, Ha, IH. reflexivity.
Qed.

(** Every pass adds at most one action of a kind [p] that counts, among the
    invocation and the two events of a round, at most one. *)
Lemma tool_loop_count (p : Action -> bool) (fuel : nat) (model : ChatModel)
    (max_iterations : Z) :
  (forall a, is_tool_run a = true -> p a = false) ->
  (forall m ms r tcs tms,
     (Nat.b2n (p (Invoked m ms r)) + Nat.b2n (p (Yield (tool_call_data tcs)))
      + Nat.b2n (p (Yield (tool_result_data tms))) <= 1)%nat) ->
  forall (iteration : Z) (messages : list Message) (w : World),
    (count p (trace (tool_loop fuel model max_iterations iteration messages w))
     <= fuel)%nat.
Proof.
  intros Hrun Hone. induction fuel as [|fuel IH]; intros iteration messages w.
  - rewrite tool_loop_zero. cbn. lia.
  - rewrite tool_loop_step.
    destruct (iteration <? max_iterations)%Z; [|cbn; lia].
    destruct (ainvoke model messages w) as [[response|e] w1].
    + destruct (truthy (resp_tool_calls response)).
      * cbv zeta.
        pose proof (execute_tool_calls_runs (resp_tool_calls response)
                      (messages ++ [AIMessage response]) w1) as Htr.
        assert (Hnone : count p (trace (execute_tool_calls (resp_tool_calls response)
                                          (messages ++ [AIMessage response]) w1)) = 0%nat).
        { apply count_none. eapply List.Forall_impl; [|exact Htr].
          intros a Ha. apply Hrun, Ha. }
        destruct (value (execute_tool_calls _ _ w1)) as [tms|e]; cbn [trace].
        -- rewrite !count_cons, count_app, count_cons, Hnone.
           specialize (IH (iteration + 1)%Z
                         ((messages ++ [AIMessage response]) ++ map ToolMessage tms)
                         (world (execute_tool_calls (resp_tool_calls response)
                                   (messages ++ [AIMessage response]) w1))).
           specialize (Hone model messages (Ok response) (resp_tool_calls response) tms).
           lia.
        -- rewrite !count_cons, Hnone.
           specialize (Hone model messages (Ok response) (resp_tool_calls response) []).
           lia.
      * cbn [trace]. rewrite count_cons.
        specialize (Hone model messages (Ok response) [] []).
        cbn [count List.filter length]. lia.
    + cbn [trace]. rewrite count_cons.
      specialize (Hone model messages (Raise e) [] []).
      cbn [count List.filter length]. lia.
Qed.

Lemma tool_loop_actions (fuel : nat) (model : ChatModel) (max_iterations : Z) :
  forall (iteration : Z) (messages : list Message) (w : World),
    Forall (fun a => is_loop_action a = true)
           (trace (tool_loop fuel model max_iterations iteration messages w)).
Proof.
  induction fuel as [|fuel IH]; intros iteration messages w.
  - rewrite tool_loop_zero. constructor.
  - rewrite tool_loop_step.
    destruct (iteration <? max_iterations)%Z; [|constructor].
    destruct (ainvoke model messages w) as [[response|e] w1];
      [|repeat constructor].
    destruct (truthy (resp_tool_calls response)); [|repeat constructor].
    cbv zeta.
    assert (Htr : Forall (fun a => is_loop_action a = true)
                    (trace (execute_tool_calls (resp_tool_calls response)
                              (messages ++ [AIMessage response]) w1))).
    { eapply List.Forall_impl; [|apply execute_tool_calls_runs].
      intros [] Ha; try discriminate Ha. reflexivity. }
    destruct (value (execute_tool_calls _ _ w1)) as [tms|e]; cbn [trace].
    + constructor; [reflexivity|]. constructor; [reflexivity|].
      apply Forall_app. split; [exact Htr|].
      constructor; [reflexivity | apply IH].
    + constructor; [reflexivity|]. constructor; [reflexivity | exact Htr].
Qed.

Lemma tool_loop_invoked (fuel : nat) (model : ChatModel) (max_iterations : Z) :
  forall (iteration : Z) (messages : list Message) (w : World),
    Forall (invoked_on model)
           (trace (tool_loop fuel model max_iterations iteration messages w)).
Proof.
  induction fuel as [|fuel IH]; intros iteration messages w.
  - rewrite tool_loop_zero. constructor.
  - rewrite tool_loop_step.
    destruct (iteration <? max_iterations)%Z; [|constructor].
    destruct (ainvoke model messages w) as [[response|e] w1];
      [|repeat constructor].
    destruct (truthy (resp_tool_calls response)); [|repeat constructor].
    cbv zeta.
    assert (Htr : Forall (invoked_on model)
                    (trace (execute_tool_calls (resp_tool_calls response)
                              (messages ++ [AIMessage response]) w1))).
    { eapply List.Forall_impl; [|apply execute_tool_calls_runs].
      intros [] Ha; try discriminate Ha. exact I. }
    destruct (value (execute_tool_calls _ _ w1)) as [tms|e]; cbn [trace].
    + constructor; [reflexivity|]. constructor; [exact I|].
      apply Forall_app. split; [exact Htr|].
      constructor; [exact I | apply IH].
    + constructor; [reflexivity|]. constructor; [exact I | exact Htr].
Qed.

(** *** The reasoning/answer splitter *)

Lemma process_chunk_split (r : bool) (chunk : Chunk) (st : StreamState) :
  Forall (fun e => is_split_event e = true) (fst (process_chunk r chunk st)).
Proof.
  unfold process_chunk.
  destruct (r && truthy (additional_kwargs chunk) && truthy (reasoning_content_of chunk)).
  - cbn [fst]. destruct (thought_process_started st); repeat constructor.
  - destruct (truthy (content chunk)); [|constructor]. cbn [fst].
    destruct (r && thought_process_started st && negb (thought_process_ended st));
      destruct (answer_started st); repeat constructor.
Qed.

Lemma process_chunks_cons (r : bool) (chunk : Chunk) (rest : list Chunk)
    (st : StreamState) :
  process_chunks r (chunk :: rest) st =
  (fst (process_chunk r chunk st)
     ++ fst (process_chunks r rest (snd (process_chunk r chunk st))),
   snd (process_chunks r rest (snd (process_chunk r chunk st)))).
Proof.
  cbn [process_chunks]. destruct (process_chunk r chunk st) as [events st'].
  cbn [fst snd]. destruct (process_chunks r rest st'). reflexivity.
Qed.

Lemma process_chunks_split (r : bool) (chunks : list Chunk) (st : StreamState) :
  Forall (fun e => is_split_event e = true) (fst (process_chunks r chunks st)).
Proof.
  revert st. induction chunks as [|chunk rest IH]; intros st.
  - constructor.
  - rewrite process_chunks_cons. cbn [fst]. apply Forall_app.
    split; [apply process_chunk_split | apply IH].
Qed.

(** The answer payloads emitted, and the answer accumulated, are those of
    the chunks that are not skipped. *)
Lemma process_chunks_answers (r : bool) (chunks : list Chunk) (st : StreamState) :
  omap delta_of (fst (process_chunks r chunks st)) = map content (answered r chunks) /\
  full_response (snd (process_chunks r chunks st)) =
    full_response st ++ concat (map content (answered r chunks)).
Proof.
  revert st. induction chunks as [|chunk rest IH]; intros st.
  - cbn. rewrite app_nil_r. split; reflexivity.
  - rewrite process_chunks_cons. cbn [fst snd]. rewrite omap_app.
    destruct (IH (snd (process_chunk r chunk st))) as [IHd IHf].
    rewrite IHd, IHf. unfold answered. cbn [List.filter].
    unfold process_chunk, carries_reasoning.
    destruct (r && truthy (additional_kwargs chunk) && truthy (reasoning_content_of chunk))
      eqn:Hskip.
    + assert (Hs : r && (truthy (additional_kwargs chunk) &&
                         truthy (reasoning_content_of chunk)) = true)
        by (rewrite andb_assoc; exact Hskip).
      rewrite Hs. cbn [negb andb fst snd full_response].
      destruct (thought_process_started st); split; reflexivity.
    + assert (Hs : r && (truthy (additional_kwargs chunk) &&
                         truthy (reasoning_content_of chunk)) = false)
        by (rewrite andb_assoc; exact Hskip).
      rewrite Hs. cbn [negb andb].
      destruct (truthy (content chunk)); cbn [fst snd full_response].
      * split.
        -- destruct (r && thought_process_started st && negb (thought_process_ended st));
             destruct (answer_started st); reflexivity.
        -- cbn [map concat]. rewrite <- app_assoc. reflexivity.
      * split; reflexivity.
Qed.

(** With no answer payload at all, the splitter only opens the reasoning
    channel: it never closes it and accumulates nothing. *)
Lemma process_chunks_reasoning_only (chunks : list Chunk) (st : StreamState) :
  (forall c, In c chunks -> content c = []) ->
  let out := process_chunks true chunks st in
  ~ In ThoughtProcessEnd (fst out) /\
  full_response (snd out) = full_response st /\
  thought_process_ended (snd out) = thought_process_ended st /\
  thought_process_started (snd out) =
    thought_process_started st || existsb carries_reasoning chunks.
Proof.
  revert st. induction chunks as [|chunk rest IH]; intros st Hall.
  - cbn. rewrite orb_false_r. auto.
  - cbv zeta. rewrite process_chunks_cons. cbn [fst snd].
    assert (Hrest : forall c, In c rest -> content c = []) by (intros; apply Hall; right; auto).
    specialize (IH (snd (process_chunk true chunk st)) Hrest). cbv zeta in IH.
    destruct IH as [IHe [IHf [IHn IHs]]].
    rewrite IHf, IHn, IHs. cbn [existsb].
    unfold process_chunk, carries_reasoning in *. cbn [andb] in *.
    rewrite (Hall chunk (or_introl eq_refl)) in *.
    destruct (truthy (additional_kwargs chunk) && truthy (reasoning_content_of chunk)).
    + cbn [fst snd full_response thought_process_ended thought_process_started].
      rewrite orb_true_r. repeat split; try reflexivity.
      intros Hin. apply in_app_or in Hin as [Hin|Hin]; [|contradiction].
      destruct (thought_process_started st); cbn in Hin;
        repeat (destruct Hin as [Hin|Hin]; [discriminate|]); contradiction.
    + cbn [truthy fst snd]. rewrite orb_false_l. repeat split; try reflexivity.
      intros Hin. apply in_app_or in Hin as [Hin|Hin]; contradiction.
Qed.

(** *** The shape of a run *)

Lemma runs_total {A} (m : Gen A) (w : World) :
  runs m w (trace (m w)) (world (m w)) (value (m w)).
Proof. unfold runs. symmetry. apply outcome_eta. Qed.

Lemma runs_ret {A} (a : A) (w : World) : runs (ret a) w [] w (Ok a).
Proof. reflexivity. Qed.

Lemma runs_yield (e : Event) (w : World) : runs (yield e) w [Yield e] w (Ok tt).
Proof. reflexivity. Qed.

Lemma runs_bind_ok {A R} (m : Gen A) (k : A -> Gen R) (w : World) t1 w1 a t2 w2 r :
  runs m w t1 w1 (Ok a) -> runs (k a) w1 t2 w2 r ->
  runs (bind m k) w (t1 ++ t2) w2 r.
Proof. unfold runs, bind. intros -> H. cbn. rewrite H. reflexivity. Qed.

Lemma runs_bind_raise {A R} (m : Gen A) (k : A -> Gen R) (w : World) t1 w1 e :
  runs m w t1 w1 (Raise e) -> runs (bind m k) w t1 w1 (Raise e).
Proof. unfold runs, bind. intros ->. reflexivity. Qed.

Lemma runs_catch_ok {A} (m : Gen A) (h : Exn -> Gen A) (w : World) t1 w1 a :
  runs m w t1 w1 (Ok a) -> runs (catch m h) w t1 w1 (Ok a).
Proof. unfold runs, catch. intros ->. reflexivity. Qed.

Lemma runs_trace {A} (m : Gen A) (w : World) t w' r :
  runs m w t w' r -> trace (m w) = t.
Proof. unfold runs. intros ->. reflexivity. Qed.

Lemma runs_catch_raise {A} (m : Gen A) (h : Exn -> Gen A) (w : World) t1 w1 e t2 w2 r :
  runs m w t1 w1 (Raise e) -> runs (h e) w1 t2 w2 r ->
  runs (catch m h) w (t1 ++ t2) w2 r.
Proof. unfold runs, catch. intros -> H. cbn. rewrite H. reflexivity. Qed.

Lemma generate_trace (messages : list Message) (model_name : option str)
    (pdf_chunks : option (list PdfChunk)) (enable_tools : bool)
    (max_iterations : Z) (session_id : option str) (w : World) :
  let tr :=
    trace (generate_streaming_response_with_tools messages model_name pdf_chunks
             enable_tools max_iterations session_id w) in
  (exists e,
     get_chat_model_with_tools model_name enable_tools = Raise e /\
     tr = [Yield (ErrorEvent (exn_str e))]) \/
  (exists model t_loop,
     get_chat_model_with_tools model_name enable_tools = Ok model /\
     Forall (fun a => is_loop_action a = true) t_loop /\
     Forall (invoked_on model) t_loop /\
     (forall p,
        (forall a, is_tool_run a = true -> p a = false) ->
        (forall m ms r tcs tms,
           (Nat.b2n (p (Invoked m ms r)) + Nat.b2n (p (Yield (tool_call_data tcs)))
            + Nat.b2n (p (Yield (tool_result_data tms))) <= 1)%nat) ->
        (count p t_loop <= Z.to_nat max_iterations)%nat) /\
     ((exists e,
         tr = session_actions session_id ++ t_loop ++ [Yield (ErrorEvent (exn_str e))]) \/
      (exists msgs chunks failure,
         let out := process_chunks (is_reasoner model_name) chunks initial_stream_state in
         let references := references_for (full_response (snd out)) pdf_chunks in
         exists ending,
           tr = session_actions session_id ++ t_loop ++
                Streamed model msgs chunks failure :: map Yield (fst out) ++ ending /\
           match failure with
           | Some e => ending = [Yield (ErrorEvent (exn_str e))]
           | None =>
             exists persisted,
               ending = closing (is_reasoner model_name) (snd out) references persisted /\
               (persisted = [] \/
                exists sid r,
                  session_of session_id = Some sid /\
                  persisted =
                    [Appended sid (full_response (snd out)) references r])
           end))).
Proof.
  intros tr.
  destruct (get_chat_model_with_tools model_name enable_tools) as [model|e0] eqn:Hmodel.
  2:{ left. exists e0. split; [reflexivity|]. subst tr.
      unfold generate_streaming_response_with_tools, generate_body.
      rewrite Hmodel.
      erewrite runs_trace.
      2:{ eapply runs_catch_raise; [|apply runs_yield].
          apply runs_bind_raise. reflexivity. }
      reflexivity. }
  right.
  set (msgs0 := add_pdf_context pdf_chunks messages).
  set (ol := tool_loop (Z.to_nat max_iterations) model max_iterations 0 msgs0 w).
  exists model, (trace ol). split; [reflexivity|].
  split; [apply tool_loop_actions|].
  split; [apply tool_loop_invoked|].
  split; [intros p Hrun Hone; apply tool_loop_count; assumption|].
  assert (Hsess :
    runs (match session_of session_id with
          | Some sid => yield (SessionInit sid)
          | None => @ret World _ tt
          end) w (session_actions session_id) w (Ok tt)).
  { unfold session_actions. destruct (session_of session_id); reflexivity. }
  pose proof (runs_total (tool_loop (Z.to_nat max_iterations) model max_iterations
                            0 msgs0) w) as Hloop.
  fold ol in Hloop.
  destruct (value ol) as [looped|e1].
  2:{ left. exists e1. subst tr.
      unfold generate_streaming_response_with_tools, generate_body.
      rewrite Hmodel. fold msgs0.
      erewrite runs_trace.
      2:{ eapply runs_catch_raise; [|apply runs_yield].
          eapply runs_bind_ok; [apply runs_ret|].
          eapply runs_bind_ok; [exact Hsess|].
          apply runs_bind_raise. exact Hloop. }
      rewrite app_nil_l, <- app_assoc. reflexivity. }
  right.
  destruct (astream model (snd looped) (world ol)) as [[chunks failure] w2] eqn:Hastream.
  exists (snd looped), chunks, failure. cbv zeta.
  set (out := process_chunks (is_reasoner model_name) chunks initial_stream_state).
  assert (Hstream :
    runs (stream_answer (is_reasoner model_name) model (snd looped)) (world ol)
         (Streamed model (snd looped) chunks failure :: map Yield (fst out)) w2
         (match failure with None => Ok (snd out) | Some e => Raise e end)).
  { unfold runs, stream_answer. rewrite Hastream. fold out.
    destruct out. reflexivity. }
  destruct failure as [e2|].
  - eexists. split; [|reflexivity]. subst tr.
    unfold generate_streaming_response_with_tools, generate_body.
    rewrite Hmodel. fold msgs0.
    erewrite runs_trace.
    2:{ eapply runs_catch_raise; [|apply runs_yield].
        eapply runs_bind_ok; [apply runs_ret|].
        eapply runs_bind_ok; [exact Hsess|].
        eapply runs_bind_ok; [exact Hloop|].
        apply runs_bind_raise. exact Hstream. }
    rewrite app_nil_l, <- !app_assoc, <- app_comm_cons. reflexivity.
  - set (st := snd out) in *.
    set (references := references_for (full_response st) pdf_chunks).
    assert (Hend :
      runs (if is_reasoner model_name && thought_process_started st &&
               negb (thought_process_ended st)
            then yield ThoughtProcessEnd else @ret World _ tt) w2
           (if is_reasoner model_name && thought_process_started st &&
               negb (thought_process_ended st)
            then [Yield ThoughtProcessEnd] else []) w2 (Ok tt)).
    { destruct (_ && _ && _); reflexivity. }
    assert (Hpersist :
      exists persisted w3,
        runs (match session_of session_id with
              | Some sid =>
                catch
                  (bind (call (append_message sid (full_response st) references)
                              (Appended sid (full_response st) references))
                        (fun _ => ret tt))
                  (fun _ => ret tt)
              | None => @ret World _ tt
              end) w2 persisted w3 (Ok tt) /\
        (persisted = [] \/
         exists sid r,
           session_of session_id = Some sid /\
           persisted = [Appended sid (full_response st) references r])).
    { destruct (session_of session_id) as [sid|].
      - unfold runs, catch, bind, call, ret.
        destruct (append_message sid (full_response st) references w2) as [[b|e3] w3];
          cbn [value trace world].
        + exists [Appended sid (full_response st) references (Ok b)], w3.
          split; [reflexivity | right; eauto].
        + exists [Appended sid (full_response st) references (Raise e3)], w3.
          split; [reflexivity | right; eauto].
      - exists [], w2. split; [reflexivity | left; reflexivity]. }
    destruct Hpersist as [persisted [w3 [Hp Hshape]]].
    eexists. split.
    2:{ exists persisted. split; [reflexivity | exact Hshape]. }
    subst tr.
    unfold generate_streaming_response_with_tools, generate_body.
    rewrite Hmodel. fold msgs0.
    erewrite runs_trace.
    2:{ eapply runs_catch_ok.
        eapply runs_bind_ok; [apply runs_ret|].
        eapply runs_bind_ok; [exact Hsess|].
        eapply runs_bind_ok; [exact Hloop|].
        eapply runs_bind_ok; [exact Hstream|].
        eapply runs_bind_ok; [exact Hend|].
        eapply runs_bind_ok; [exact Hp|].
        apply runs_yield. }
    unfold closing. fold st. fold references. reflexivity.
Qed.

(** *** Reading a trace *)

Lemma events_of_app (t1 t2 : list Action) :
  events_of (t1 ++ t2) = events_of t1 ++ events_of t2.
Proof. apply omap_app. Qed.

Lemma events_of_yields (evs : list Event) : events_of (map Yield evs) = evs.
Proof. induction evs as [|e evs IH]; [reflexivity|]. cbn. f_equal. exact IH. Qed.

Lemma events_of_streamed m ms cs f (t : list Action) :
  events_of (Streamed m ms cs f :: t) = events_of t.
Proof. reflexivity. Qed.

Lemma quiet_events (t : list Action) :
  Forall (fun a => quiet a = true) t ->
  Forall (fun e => is_terminal e = false) (events_of t).
Proof.
  induction 1 as [|a t Ha _ IH]; [constructor|].
  destruct a as [e| | | |]; try exact IH.
  cbn. constructor; [|exact IH]. cbn in Ha. destruct (is_terminal e); [discriminate|reflexivity].
Qed.

Lemma not_in_by (P : Action -> bool) (a : Action) (t : list Action) :
  Forall (fun x => P x = true) t -> P a = false -> ~ In a t.
Proof.
  intros Hall Ha Hin. rewrite List.Forall_forall in Hall.
  specialize (Hall a Hin). congruence.
Qed.

Lemma session_actions_yields (session_id : option str) :
  Forall (fun a => is_yield a = true /\ is_loop_action a = false /\ quiet a = true)
         (session_actions session_id).
Proof.
  unfold session_actions. destruct (session_of session_id); repeat constructor.
Qed.

Lemma split_yields (evs : list Event) :
  Forall (fun e => is_split_event e = true) evs ->
  Forall (fun a => is_yield a = true /\ is_loop_action a = false /\ quiet a = true)
         (map Yield evs).
Proof.
  induction 1 as [|e evs He _ IH]; [constructor|].
  cbn [map]. constructor; [|exact IH].
  destruct e; try discriminate He; repeat split.
Qed.

Lemma loop_quiet (t : list Action) :
  Forall (fun a => is_loop_action a = true) t -> Forall (fun a => quiet a = true) t.
Proof.
  apply List.Forall_impl. intros [[]| | | |]; try discriminate; reflexivity.
Qed.

(** Every run is a quiet prefix followed by one terminating event; the
    prefix has the actions of the tool loop in the middle, and no loop
    action anywhere else. *)
Lemma generate_parts (messages : list Message) (model_name : option str)
    (pdf_chunks : option (list PdfChunk)) (enable_tools : bool)
    (max_iterations : Z) (session_id : option str) (w : World) :
  exists t_init t_loop t_rest last,
    trace (generate_streaming_response_with_tools messages model_name pdf_chunks
             enable_tools max_iterations session_id w)
    = t_init ++ t_loop ++ t_rest ++ [Yield last] /\
    is_terminal last = true /\
    Forall (fun a => is_loop_action a = true) t_loop /\
    Forall (fun a => is_loop_action a = false /\ quiet a = true) (t_init ++ t_rest) /\
    (forall p,
        (forall a, is_tool_run a = true -> p a = false) ->
        (forall m ms r tcs tms,
           (Nat.b2n (p (Invoked m ms r)) + Nat.b2n (p (Yield (tool_call_data tcs)))
            + Nat.b2n (p (Yield (tool_result_data tms))) <= 1)%nat) ->
        (count p t_loop <= Z.to_nat max_iterations)%nat).
Proof.
  assert (Hweak : forall t,
    Forall (fun a => is_yield a = true /\ is_loop_action a = false /\ quiet a = true) t ->
    Forall (fun a => is_loop_action a = false /\ quiet a = true) t).
  { intros t. apply List.Forall_impl. tauto. }
  destruct (generate_trace messages model_name pdf_chunks enable_tools
              max_iterations session_id w)
    as [[e [_ Htr]] | [model [t_loop [_ [Hloop [_ [Hcount Hcases]]]]]]].
  - exists [], [], [], (ErrorEvent (exn_str e)). rewrite Htr.
    repeat split; try constructor. intros p _ _. cbn. lia.
  - destruct Hcases as [[e Htr] | [msgs [chunks [failure Hcases]]]].
    + exists (session_actions session_id), t_loop, [], (ErrorEvent (exn_str e)).
      rewrite Htr, app_nil_r. repeat split; try assumption.
      apply Hweak, session_actions_yields.
    + cbv zeta in Hcases. destruct Hcases as [ending [Htr Hending]].
      pose proof (split_yields _ (process_chunks_split (is_reasoner model_name) chunks
                                    initial_stream_state)) as Hsplit.
      destruct failure as [e|].
      * subst ending.
        exists (session_actions session_id), t_loop,
               (Streamed model msgs chunks (Some e)
                :: map Yield (fst (process_chunks (is_reasoner model_name) chunks
                                     initial_stream_state))),
               (ErrorEvent (exn_str e)).
        rewrite Htr. split; [reflexivity|]. repeat split; try assumption.
        apply Forall_app. split; [apply Hweak, session_actions_yields|].
        constructor; [split; reflexivity | apply Hweak, Hsplit].
      * destruct Hending as [persisted [-> Hpersisted]].
        set (out := process_chunks (is_reasoner model_name) chunks initial_stream_state) in *.
        exists (session_actions session_id), t_loop,
               (Streamed model msgs chunks None :: map Yield (fst out) ++
                (if is_reasoner model_name && thought_process_started (snd out) &&
                    negb (thought_process_ended (snd out))
                 then [Yield ThoughtProcessEnd] else []) ++ persisted),
               (MessageComplete (full_response (snd out))
                  (references_for (full_response (snd out)) pdf_chunks)).
        rewrite Htr. unfold closing. split.
        { cbn [app]. rewrite <- !app_assoc. reflexivity. }
        repeat split; try assumption.
        apply Forall_app. split; [apply Hweak, session_actions_yields|].
        constructor; [split; reflexivity|].
        apply Forall_app. split; [apply Hweak, Hsplit|].
        apply Forall_app. split.
        { destruct (_ && _ && _); repeat constructor. }
        destruct Hpersisted as [-> | [sid [r [_ ->]]]]; repeat constructor.
Qed.

Lemma setup_events (session_id : option str) (t_loop : list Action) :
  Forall (fun a => is_loop_action a = true) t_loop ->
  Forall (fun e => is_setup_event e = true)
         (events_of (session_actions session_id ++ t_loop)).
Proof.
  intros Hloop. rewrite events_of_app. apply Forall_app. split.
  - unfold session_actions. destruct (session_of session_id); repeat constructor.
  - induction Hloop as [|a t Ha _ IH]; [constructor|].
    destruct a as [[]| | | |]; try discriminate Ha; try exact IH;
      cbn; constructor; try reflexivity; exact IH.
Qed.

Lemma ending_actions (failure : option Exn) (ending : list Action) (r : bool)
    (st : StreamState) (refs : list Reference) (session_id : option str) :
  match failure with
  | Some e => ending = [Yield (ErrorEvent (exn_str e))]
  | None =>
    exists persisted,
      ending = closing r st refs persisted /\
      (persisted = [] \/
       exists sid res,
         session_of session_id = Some sid /\
         persisted = [Appended sid (full_response st) refs res])
  end ->
  Forall (fun a => is_ending_action a = true) ending.
Proof.
  destruct failure as [e|].
  - intros ->. repeat constructor.
  - intros [persisted [-> Hp]]. unfold closing.
    apply Forall_app. split; [destruct (_ && _ && _); repeat constructor|].
    apply Forall_app. split; [|repeat constructor].
    destruct Hp as [-> | [sid [res [_ ->]]]]; repeat constructor.
Qed.

(** Where an action that is neither a yield nor a loop action can be. *)
Lemma in_run (a x : Action) (session_id : option str) (t_loop : list Action)
    (evs : list Event) (ending : list Action) :
  is_yield a = false -> is_loop_action a = false ->
  Forall (fun a => is_loop_action a = true) t_loop ->
  In a (session_actions session_id ++ t_loop ++ x :: map Yield evs ++ ending) ->
  a = x \/ In a ending.
Proof.
  intros Hy Hl Hloop Hin.
  apply in_app_or in Hin as [Hin|Hin].
  { exfalso. revert Hin. apply (not_in_by is_yield); [|exact Hy].
    eapply List.Forall_impl; [|apply session_actions_yields].
    intros ? [H _]. exact H. }
  apply in_app_or in Hin as [Hin|Hin].
  { exfalso. revert Hin. apply (not_in_by is_loop_action); assumption. }
  destruct Hin as [Hin|Hin]; [left; symmetry; exact Hin|].
  apply in_app_or in Hin as [Hin|Hin]; [|right; exact Hin].
  exfalso. apply in_map_iff in Hin as [e [<- _]]. discriminate Hy.
Qed.

(** The run around a call of [model.astream]: what comes before it is the
    session announcement and the tool loop, on the same model; what comes
    after it is the splitter's events and the ending. *)
Lemma generate_streamed (messages : list Message) (model_name : option str)
    (pdf_chunks : option (list PdfChunk)) (enable_tools : bool)
    (max_iterations : Z) (session_id : option str) (w : World)
    (m : ChatModel) (msgs : list Message) (chunks : list Chunk)
    (failure : option Exn) :
  let tr :=
    trace (generate_streaming_response_with_tools messages model_name pdf_chunks
             enable_tools max_iterations session_id w) in
  let out := process_chunks (is_reasoner model_name) chunks initial_stream_state in
  let references := references_for (full_response (snd out)) pdf_chunks in
  In (Streamed m msgs chunks failure) tr ->
  get_chat_model_with_tools model_name enable_tools = Ok m /\
  exists t_pre ending,
    tr = t_pre ++ Streamed m msgs chunks failure :: map Yield (fst out) ++ ending /\
    Forall (invoked_on m) t_pre /\
    Forall (fun a => is_loop_action a = true \/ is_yield a = true) t_pre /\
    Forall (fun e => is_setup_event e = true) (events_of t_pre) /\
    match failure with
    | Some e => ending = [Yield (ErrorEvent (exn_str e))]
    | None =>
      exists persisted,
        ending = closing (is_reasoner model_name) (snd out) references persisted /\
        (persisted = [] \/
         exists sid r,
           session_of session_id = Some sid /\
           persisted = [Appended sid (full_response (snd out)) references r])
    end.
Proof.
  intros tr out references Hin. subst tr.
  destruct (generate_trace messages model_name pdf_chunks enable_tools
              max_iterations session_id w)
    as [[e [_ Htr]] | [model [t_loop [Hmodel [Hloop [Hinv [_ Hcases]]]]]]].
  { rewrite Htr in Hin. destruct Hin as [Hin|[]]. discriminate Hin. }
  destruct Hcases as [[e Htr] | [msgs' [chunks' [failure' Hcases]]]].
  { exfalso. rewrite Htr in Hin.
    replace [Yield (ErrorEvent (exn_str e))]
      with (Yield (ErrorEvent (exn_str e)) :: map Yield [] ++ []) in Hin by reflexivity.
    apply in_run in Hin as [Hin|[]]; try reflexivity; [discriminate Hin | exact Hloop]. }
  cbv zeta in Hcases. destruct Hcases as [ending [Htr Hending]].
  assert (Heq : Streamed m msgs chunks failure = Streamed model msgs' chunks' failure').
  { rewrite Htr in Hin. apply in_run in Hin as [Hin|Hin]; try reflexivity;
      [exact Hin | | exact Hloop].
    exfalso. revert Hin. apply (not_in_by is_ending_action); [|reflexivity].
    eapply ending_actions. exact Hending. }
  injection Heq as -> -> -> ->.
  split; [exact Hmodel|].
  exists (session_actions session_id ++ t_loop), ending.
  split; [rewrite Htr, <- app_assoc; reflexivity|].
  split.
  { apply Forall_app. split; [|exact Hinv].
    unfold session_actions. destruct (session_of session_id); repeat constructor. }
  split.
  { apply Forall_app. split.
    - eapply List.Forall_impl; [|apply session_actions_yields].
      intros ? [H _]. right. exact H.
    - eapply List.Forall_impl; [|exact Hloop]. intros ? H. left. exact H. }
  split; [apply setup_events, Hloop | exact Hending].
Qed.

Lemma count_outside_loop (p : Action -> bool) (t : list Action) :
  (forall a, is_loop_action a = false -> p a = false) ->
  Forall (fun a => is_loop_action a = false /\ quiet a = true) t ->
  count p t = 0%nat.
Proof.
  intros Hp Hall. apply count_none. eapply List.Forall_impl; [|exact Hall].
  intros a [Ha _]. apply Hp, Ha.
Qed.

(** C1: with a ceiling [max_iterations = N >= 0], a run has at most N
    rounds of tool dispatch (at most N model invocations in the loop, N
    [tool_calls] events and N [tool_results] events), and its event stream
    is a sequence of non-terminating events followed by exactly one
    terminating event, [message_complete] or [error]. *)
Theorem loop_bounded_and_terminated (messages : list Message)
    (model_name : option str) (pdf_chunks : option (list PdfChunk))
    (enable_tools : bool) (max_iterations : Z) (session_id : option str)
    (w : World) :
  (0 <= max_iterations)%Z ->
  let tr :=
    trace (generate_streaming_response_with_tools messages model_name pdf_chunks
             enable_tools max_iterations session_id w) in
  (Z.of_nat (count is_invoked tr) <= max_iterations)%Z /\
  (Z.of_nat (count is_tool_calls tr) <= max_iterations)%Z /\
  (Z.of_nat (count is_tool_results tr) <= max_iterations)%Z /\
  exists evs last,
    events_of tr = evs ++ [last] /\
    is_terminal last = true /\
    Forall (fun e => is_terminal e = false) evs.
Proof.
  intros Hmax tr.
  destruct (generate_parts messages model_name pdf_chunks enable_tools
              max_iterations session_id w)
    as [t_init [t_loop [t_rest [last [Htr [Hlast [Hloop [Hother Hcount]]]]]]]].
  fold tr in Htr. apply Forall_app in Hother as [Hinit Hrest].
  assert (Hbound : forall p,
    (forall a, is_loop_action a = false -> p a = false) ->
    (forall a, is_tool_run a = true -> p a = false) ->
    (forall m ms r tcs tms,
       (Nat.b2n (p (Invoked m ms r)) + Nat.b2n (p (Yield (tool_call_data tcs)))
        + Nat.b2n (p (Yield (tool_result_data tms))) <= 1)%nat) ->
    (Z.of_nat (count p tr) <= max_iterations)%Z).
  { intros p Hout Hrun Hone. rewrite Htr, !count_app.
    rewrite (count_outside_loop p t_init Hout Hinit).
    rewrite (count_outside_loop p t_rest Hout Hrest).
    assert (Hp : p (Yield last) = false).
    { apply Hout. destruct last; try discriminate Hlast; reflexivity. }
    rewrite count_cons, Hp. cbn [Nat.b2n count List.filter length].
    specialize (Hcount p Hrun Hone). lia. }
  split; [|split; [|split]].
  - apply Hbound.
    + intros [[]| | | |]; try discriminate; reflexivity.
    + intros []; try discriminate; reflexivity.
    + intros; cbn; lia.
  - apply Hbound.
    + intros [[]| | | |]; try discriminate; reflexivity.
    + intros []; try discriminate; reflexivity.
    + intros; cbn; lia.
  - apply Hbound.
    + intros [[]| | | |]; try discriminate; reflexivity.
    + intros []; try discriminate; reflexivity.
    + intros; cbn; lia.
  - exists (events_of (t_init ++ t_loop ++ t_rest)), last. split; [|split].
    + rewrite Htr, !app_assoc, events_of_app. reflexivity.
    + exact Hlast.
    + apply quiet_events. apply Forall_app. split.
      * eapply List.Forall_impl; [|exact Hinit]. intros a [_ Ha]. exact Ha.
      * apply Forall_app. split; [apply loop_quiet, Hloop|].
        eapply List.Forall_impl; [|exact Hrest]. intros a [_ Ha]. exact Ha.
Qed.

End WithWorld.

(** The model asks for a tool at every invocation and the ceiling is 2:
    two rounds are dispatched, then the answer is streamed. *)
Lemma loop_bounded_and_terminated_witness :
  (Z.of_nat (count is_invoked (trace ceiling_run)) <= 2)%Z /\
  (Z.of_nat (count is_tool_calls (trace ceiling_run)) <= 2)%Z /\
  (Z.of_nat (count is_tool_results (trace ceiling_run)) <= 2)%Z /\
  exists evs last,
    events_of (trace ceiling_run) = evs ++ [last] /\
    is_terminal last = true /\
    Forall (fun e => is_terminal e = false) evs.
Proof.
  apply (loop_bounded_and_terminated (C := scripted plain)). lia.
Defined.

(** *** The model of the final call *)

Section FinalCall.
Context {World : Type} {C : Collaborators World} {B : Builtins}.

Lemma get_chat_model_unbound (model_name : option str) (m0 : ChatModel) :
  get_chat_model model_name = Ok m0 -> bound_tools m0 = [].
Proof.
  unfold get_chat_model.
  destruct (str_eqb _ _); cbn [provider model];
    destruct (construct_error _ _); intros H; inversion H; reflexivity.
Qed.

Lemma all_tools_not_empty : all_tools <> [].
Proof. discriminate. Qed.

(** The model returned by [get_chat_model_with_tools] is tool-free exactly
    when tools are disabled, the model name does not support them, or the
    binding failed. *)
Lemma get_chat_model_with_tools_bound (model_name : option str)
    (enable_tools : bool) (m : ChatModel) :
  get_chat_model_with_tools model_name enable_tools = Ok m ->
  (bound_tools m = [] <->
   enable_tools && supports_tools model_name = false \/
   exists m0 e,
     get_chat_model model_name = Ok m0 /\ bind_tools_error m0 all_tools = Some e).
Proof.
  unfold get_chat_model_with_tools.
  destruct (get_chat_model model_name) as [m0|e0] eqn:Hm0; [|discriminate].
  pose proof (get_chat_model_unbound _ _ Hm0) as Hunbound.
  destruct (enable_tools && supports_tools model_name).
  - unfold bind_tools. destruct (bind_tools_error m0 all_tools) as [e|] eqn:Hbind.
    + intros H. inversion H. subst m. split; [|intros _; exact Hunbound].
      intros _. right. exists m0, e. split; [reflexivity | exact Hbind].
    + intros H. inversion H. subst m. cbn [bound_tools]. split.
      * intros Hnil. exfalso. exact (all_tools_not_empty Hnil).
      * intros [Hf | [m1 [e [Hm1 He]]]]; [discriminate Hf|].
        inversion Hm1. subst m1. congruence.
  - intros H. inversion H. subst m. split; [left; reflexivity | intros _; exact Hunbound].
Qed.

(** C2, as the code has it: the final streaming call is made on the model
    returned by [get_chat_model_with_tools], the same one the loop invokes;
    it is tool-free exactly when tools are disabled, the model name is
    neither deepseek-chat nor [None], or [bind_tools] failed. *)
Theorem final_call_on_loop_model (messages : list Message)
    (model_name : option str) (pdf_chunks : option (list PdfChunk))
    (enable_tools : bool) (max_iterations : Z) (session_id : option str)
    (w : World) (m : ChatModel) (msgs : list Message) (chunks : list Chunk)
    (failure : option Exn) :
  let tr :=
    trace (generate_streaming_response_with_tools messages model_name pdf_chunks
             enable_tools max_iterations session_id w) in
  In (Streamed m msgs chunks failure) tr ->
  get_chat_model_with_tools model_name enable_tools = Ok m /\
  (forall m' ms r, In (Invoked m' ms r) tr -> m' = m) /\
  (bound_tools m = [] <->
   enable_tools && supports_tools model_name = false \/
   exists m0 e,
     get_chat_model model_name = Ok m0 /\ bind_tools_error m0 all_tools = Some e).
Proof.
  intros tr Hin.
  destruct (generate_streamed messages model_name pdf_chunks enable_tools
              max_iterations session_id w m msgs chunks failure Hin)
    as [Hmodel [t_pre [ending [Htr [Hinv [_ [_ Hending]]]]]]].
  fold tr in Htr.
  split; [exact Hmodel|]. split; [|apply get_chat_model_with_tools_bound, Hmodel].
  intros m' ms r Hin'. rewrite Htr in Hin'.
  apply in_app_or in Hin' as [Hin'|Hin'].
  { rewrite List.Forall_forall in Hinv. exact (Hinv _ Hin'). }
  exfalso. destruct Hin' as [Hin'|Hin']; [discriminate Hin'|].
  apply in_app_or in Hin' as [Hin'|Hin'].
  { apply in_map_iff in Hin' as [e [He _]]. discriminate He. }
  revert Hin'. apply (not_in_by is_ending_action); [|reflexivity].
  eapply ending_actions. exact Hending.
Qed.

End FinalCall.

(** [ceiling_run] reaches the ceiling with the model still asking for
    tools; its final call is made on the model with the four tools bound. *)
Lemma ceiling_run_final_call :
  In (Streamed tools_model ceiling_messages [answer_chunk "hi"] None)
     (trace ceiling_run).
Proof. vm_compute. do 8 right. left. reflexivity. Qed.

Lemma final_call_on_loop_model_witness :
  In (Streamed tools_model ceiling_messages [answer_chunk "hi"] None)
     (trace ceiling_run) /\
  get_chat_model_with_tools (C := scripted plain) (Some (lit "deepseek-chat")) true
    = Ok tools_model /\
  (forall m' ms r, In (Invoked m' ms r) (trace ceiling_run) -> m' = tools_model).
Proof.
  assert (Hin : In (Streamed tools_model ceiling_messages [answer_chunk "hi"] None)
                   (trace ceiling_run)).
  { vm_compute. do 8 right. left. reflexivity. }
  split; [exact Hin|].
  destruct (final_call_on_loop_model (C := scripted plain) _ _ _ _ _ _ _ _ _ _ _ Hin)
    as [Hmodel [Hinv _]].
  split; [exact Hmodel | exact Hinv].
Defined.

(** C2 as stated fails: in that run the model of the final streaming call
    has tools bound. *)
Lemma final_call_tool_free_counterexample :
  ~ (forall (World : Type) (C : Collaborators World) (B : Builtins)
       messages model_name pdf_chunks enable_tools max_iterations session_id
       (w : World) m msgs chunks failure,
       In (Streamed m msgs chunks failure)
          (trace (generate_streaming_response_with_tools messages model_name
                    pdf_chunks enable_tools max_iterations session_id w)) ->
       bound_tools m = []).
Proof.
  intros H. pose proof ceiling_run_final_call as Hin.
  apply H in Hin. discriminate Hin.
Qed.

(** *** Persistence, and the streamed answer *)

Section Answer.
Context {World : Type} {C : Collaborators World} {B : Builtins}.

(** C3, as the code has it: when the write of the assistant message to the
    conversation store raises, the exception is caught on the spot; the
    stream still ends with [message_complete], carrying the answer that was
    to be stored, and has no [error] event. *)
Theorem persistence_failure_not_fatal (messages : list Message)
    (model_name : option str) (pdf_chunks : option (list PdfChunk))
    (enable_tools : bool) (max_iterations : Z) (session_id : option str)
    (w : World) (sid full : str) (refs : list Reference) (e : Exn) :
  let tr :=
    trace (generate_streaming_response_with_tools messages model_name pdf_chunks
             enable_tools max_iterations session_id w) in
  In (Appended sid full refs (Raise e)) tr ->
  exists evs,
    events_of tr = evs ++ [MessageComplete full refs] /\
    Forall (fun ev => is_terminal ev = false) evs.
Proof.
  intros tr Hin. subst tr.
  destruct (generate_parts messages model_name pdf_chunks enable_tools
              max_iterations session_id w)
    as [t_init [t_loop [t_rest [last [Hparts [_ [Hloop' [Hother _]]]]]]]].
  apply Forall_app in Hother as [Hinit Hrest].
  assert (Hquiet : Forall (fun a => quiet a = true) (t_init ++ t_loop ++ t_rest)).
  { apply Forall_app. split.
    - eapply List.Forall_impl; [|exact Hinit]. intros a [_ Ha]. exact Ha.
    - apply Forall_app. split; [apply loop_quiet, Hloop'|].
      eapply List.Forall_impl; [|exact Hrest]. intros a [_ Ha]. exact Ha. }
  assert (Hlast : last = MessageComplete full refs).
  { destruct (generate_trace messages model_name pdf_chunks enable_tools
                max_iterations session_id w)
      as [[e0 [_ Htr]] | [model [t_loop0 [_ [Hloop [_ [_ Hcases]]]]]]].
    { rewrite Htr in Hin. destruct Hin as [Hin|[]]. discriminate Hin. }
    destruct Hcases as [[e0 Htr] | [msgs [chunks [failure Hcases]]]].
    { exfalso. rewrite Htr in Hin.
      replace [Yield (ErrorEvent (exn_str e0))]
        with (Yield (ErrorEvent (exn_str e0)) :: map Yield [] ++ []) in Hin
        by reflexivity.
      apply in_run in Hin as [Hin|[]]; try reflexivity; [discriminate Hin | exact Hloop]. }
    cbv zeta in Hcases. destruct Hcases as [ending [Htr Hending]].
    pose proof Hin as Hin'. rewrite Htr in Hin'.
    apply in_run in Hin' as [Hin'|Hin']; try reflexivity;
      [discriminate Hin' | | exact Hloop].
    destruct failure as [e0|].
    { subst ending. destruct Hin' as [Hin'|[]]. discriminate Hin'. }
    destruct Hending as [persisted [-> Hp]].
    assert (Hmc : Appended sid full refs (Raise e) =
                  Appended sid
                    (full_response (snd (process_chunks (is_reasoner model_name) chunks
                                           initial_stream_state)))
                    (references_for
                       (full_response (snd (process_chunks (is_reasoner model_name)
                                              chunks initial_stream_state)))
                       pdf_chunks)
                    (Raise e)).
    { unfold closing in Hin'. apply in_app_or in Hin' as [Hin'|Hin'].
      - destruct (_ && _ && _); [destruct Hin' as [Hin'|[]]; discriminate Hin' | destruct Hin'].
      - apply in_app_or in Hin' as [Hin'|Hin'].
        + destruct Hp as [-> | [sid' [r [_ ->]]]]; [destruct Hin'|].
          destruct Hin' as [Hin'|[]]. inversion Hin'. reflexivity.
        + destruct Hin' as [Hin'|[]]. discriminate Hin'. }
    injection Hmc as Hfull Hrefs.
    rewrite Hparts in Htr. unfold closing in Htr.
    rewrite !app_comm_cons, !app_assoc in Htr.
    apply app_inj_tail in Htr as [_ Hy]. injection Hy as ->.
    rewrite Hrefs, Hfull. reflexivity. }
  subst last. exists (events_of (t_init ++ t_loop ++ t_rest)). split.
  - rewrite Hparts, !app_assoc, events_of_app. reflexivity.
  - apply quiet_events, Hquiet.
Qed.

End Answer.

Lemma store_down_run_write_fails :
  In (Appended (lit "s1") (lit "hi") [] (Raise (Exception (lit "disk full"))))
     (trace store_down_run).
Proof. vm_compute. do 5 right. left. reflexivity. Qed.

(** The store of session s1 is down: the answer "hi" is still completed. *)
Lemma persistence_failure_not_fatal_witness :
  In (Appended (lit "s1") (lit "hi") [] (Raise (Exception (lit "disk full"))))
     (trace store_down_run) /\
  exists evs,
    events_of (trace store_down_run) = evs ++ [MessageComplete (lit "hi") []] /\
    Forall (fun ev => is_terminal ev = false) evs.
Proof.
  assert (Hin : In (Appended (lit "s1") (lit "hi") []
                      (Raise (Exception (lit "disk full"))))
                   (trace store_down_run)).
  { vm_compute. do 5 right. left. reflexivity. }
  split; [exact Hin|].
  exact (persistence_failure_not_fatal (C := scripted store_down) _ _ _ _ _ _ _ _ _ _ _
           Hin).
Defined.

(** C3 as stated fails: the write to the store raises and the stream does
    not end with an [error] event. *)
Lemma persistence_failure_counterexample :
  ~ (forall (World : Type) (C : Collaborators World) (B : Builtins)
       messages model_name pdf_chunks enable_tools max_iterations session_id
       (w : World) sid full refs e,
       let tr :=
         trace (generate_streaming_response_with_tools messages model_name
                  pdf_chunks enable_tools max_iterations session_id w) in
       In (Appended sid full refs (Raise e)) tr ->
       exists evs msg, events_of tr = evs ++ [ErrorEvent msg]).
Proof.
  intros H. pose proof store_down_run_write_fails as Hin.
  apply H in Hin. destruct Hin as [evs [msg Hev]].
  vm_compute in Hev.
  change (?a :: ?b :: ?c :: ?d :: nil) with ([a; b; c] ++ [d]) in Hev.
  apply app_inj_tail in Hev as [_ Hev]. discriminate Hev.
Qed.

Section Splitter.
Context {World : Type} {C : Collaborators World} {B : Builtins}.

Lemma events_of_closing (r : bool) (st : StreamState) (refs : list Reference)
    (persisted : list Action) :
  (persisted = [] \/
   exists sid res, persisted = [Appended sid (full_response st) refs res]) ->
  events_of (closing r st refs persisted) =
  (if r && thought_process_started st && negb (thought_process_ended st)
   then [ThoughtProcessEnd] else []) ++ [MessageComplete (full_response st) refs].
Proof.
  intros Hp. unfold closing. rewrite !events_of_app.
  replace (events_of persisted) with (@nil Event)
    by (destruct Hp as [-> | [sid [res ->]]]; reflexivity).
  destruct (_ && _ && _); reflexivity.
Qed.


Lemma carries_reasoning_of (c : Chunk) :
  reasoning_content_of c <> [] -> carries_reasoning c = true.
Proof.
  unfold carries_reasoning, reasoning_content_of.
  destruct (additional_kwargs c) as [|kv kwargs]; [intros H; contradiction H; reflexivity|].
  intros H. cbn [truthy andb].
  destruct (default [] (dict_get (lit "reasoning_content") (kv :: kwargs)));
    [contradiction H; reflexivity | reflexivity].
Qed.





(** C5: for deepseek-reasoner, when the stream ends normally after at
    least one non-empty reasoning payload and no answer payload at all,
    the event stream ends with [thought_process_end] then
    [message_complete], and has no other [thought_process_end]. *)
Theorem reasoning_closed_before_completion (messages : list Message)
    (model_name : option str) (pdf_chunks : option (list PdfChunk))
    (enable_tools : bool) (max_iterations : Z) (session_id : option str)
    (w : World) (m : ChatModel) (msgs : list Message) (chunks : list Chunk) :
  let tr :=
    trace (generate_streaming_response_with_tools messages model_name pdf_chunks
             enable_tools max_iterations session_id w) in
  model_name = Some (lit "deepseek-reasoner") ->
  In (Streamed m msgs chunks None) tr ->
  (exists c, In c chunks /\ reasoning_content_of c <> []) ->
  (forall c, In c chunks -> content c = []) ->
  exists evs refs,
    events_of tr = evs ++ [ThoughtProcessEnd; MessageComplete [] refs] /\
    ~ In ThoughtProcessEnd evs.
Proof.
  intros tr Hname Hin [c [Hc Hreason]] Hsilent.
  destruct (generate_streamed messages model_name pdf_chunks enable_tools
              max_iterations session_id w m msgs chunks None Hin)
    as [_ [t_pre [ending [Htr [_ [_ [Hsetup Hending]]]]]]].
  fold tr in Htr.
  assert (Hr : is_reasoner model_name = true) by (rewrite Hname; reflexivity).
  rewrite Hr in *.
  destruct (process_chunks_reasoning_only chunks initial_stream_state Hsilent)
    as [Hnoend [Hfull [Hended Hstarted]]].
  cbn [full_response thought_process_ended thought_process_started
       initial_stream_state orb] in Hfull, Hended, Hstarted.
  assert (Hex : existsb carries_reasoning chunks = true).
  { apply existsb_exists. exists c. split; [exact Hc | apply carries_reasoning_of, Hreason]. }
  rewrite Hex in Hstarted.
  destruct Hending as [persisted [-> Hp]].
  assert (Hp' : persisted = [] \/
                exists sid res,
                  persisted =
                  [Appended sid
                     (full_response (snd (process_chunks true chunks initial_stream_state)))
                     (references_for
                        (full_response (snd (process_chunks true chunks
                                               initial_stream_state))) pdf_chunks)
                     res]).
  { destruct Hp as [-> | [sid [res [_ ->]]]]; [left; reflexivity | right; eauto]. }
  exists (events_of t_pre ++ fst (process_chunks true chunks initial_stream_state)),
         (references_for [] pdf_chunks).
  split.
  - rewrite Htr, events_of_app, events_of_streamed, events_of_app, events_of_yields,
      (events_of_closing _ _ _ _ Hp').
    rewrite Hstarted, Hended, Hfull. cbn [andb negb]. rewrite <- app_assoc. reflexivity.
  - intros Hin'. apply in_app_or in Hin' as [Hin'|Hin']; [|exact (Hnoend Hin')].
    rewrite List.Forall_forall in Hsetup. specialize (Hsetup _ Hin'). discriminate Hsetup.
Qed.

End Splitter.




(** Two thoughts and no answer: the stream ends with [thought_process_end]
    and [message_complete]. *)
Lemma reasoning_closed_before_completion_witness :
  exists evs refs,
    events_of (trace reasoning_only_run) =
      evs ++ [ThoughtProcessEnd; MessageComplete [] refs] /\
    ~ In ThoughtProcessEnd evs.
Proof.
  assert (Hin : In (Streamed reasoner_model hello
                      [thought_chunk "think" ""; thought_chunk "more" ""] None)
                   (trace reasoning_only_run)).
  { vm_compute. right. left. reflexivity. }
  apply (reasoning_closed_before_completion
           (C := scripted (reasoning [thought_chunk "think" ""; thought_chunk "more" ""]))
           _ _ _ _ _ _ _ _ _ _ eq_refl Hin).
  - exists (thought_chunk "think" ""). split; [left; reflexivity | discriminate].
  - intros c [<- | [<- | []]]; reflexivity.
Defined.

(** The request for an unregistered tool before a request for the time. *)
Lemma unknown_tool_skipped_witness :
  execute_tool_call (C := scripted plain) (call_of "unknown_tool") hello [] =
    {| trace := []; world := []; value := Ok [] |} /\
  execute_tool_calls (C := scripted plain)
    ([] ++ call_of "unknown_tool" :: [call_of "get_current_time"]) hello [] =
    execute_tool_calls (C := scripted plain) ([] ++ [call_of "get_current_time"]) hello [] /\
  Forall (fun a => is_tool_run a = true)
         (trace (execute_tool_calls (C := scripted plain)
                   ([] ++ call_of "unknown_tool" :: [call_of "get_current_time"])
                   hello [])) /\
  ((forall tc, In tc ([] ++ [call_of "get_current_time"]) ->
      find_tool (tc_name tc) <> None -> tc_id tc <> None) ->
   exists tms,
     value (execute_tool_calls (C := scripted plain)
              ([] ++ call_of "unknown_tool" :: [call_of "get_current_time"]) hello [])
     = Ok tms).
Proof.
  apply (unknown_tool_skipped (C := scripted plain)).
  intros tool Hin Heq. injection Heq as <-. vm_compute in Hin.
  repeat (destruct Hin as [Hin|Hin]; [discriminate Hin|]). exact Hin.
Defined.

(** *** The review filter *)


(** The padding loop appends entries taken in order from the sorted list,
    none with an index already present, and stops at ten. *)
Lemma pad_entries_spec (sorted_entries : list JEntry) :
  forall (final_entries : list JEntry) (existing_indices : gset Z),
  exists padding,
    pad_entries sorted_entries final_entries existing_indices = final_entries ++ padding /\
    sublist padding sorted_entries /\
    (length final_entries <= 10 -> length (final_entries ++ padding) <= 10)%nat /\
    Forall (fun e => j_index e ∉ existing_indices) padding.
Proof.
  induction sorted_entries as [|e rest IH]; intros final_entries existing_indices.
  - exists []. cbn. rewrite app_nil_r. repeat split; [constructor | lia | constructor].
  - cbn [pad_entries].
    destruct (Nat.leb_spec 10 (length final_entries)) as [Hfull|Hroom].
    + exists []. rewrite app_nil_r. repeat split;
        [apply sublist_nil_l | lia | constructor].
    + destruct (bool_decide (j_index e ∈ existing_indices)) eqn:Hseen.
      * destruct (IH final_entries existing_indices) as [padding [Heq [Hsub [Hlen Hnew]]]].
        exists padding. repeat split; try assumption. apply sublist_cons, Hsub.
      * apply bool_decide_eq_false in Hseen.
        destruct (IH (final_entries ++ [e]) ({[j_index e]} ∪ existing_indices))
          as [padding [Heq [Hsub [Hlen Hnew]]]].
        exists (e :: padding). rewrite Heq, <- app_assoc. split; [reflexivity|].
        split; [apply sublist_skip, Hsub|]. split.
        -- intros _. rewrite <- app_assoc in Hlen. apply Hlen.
           rewrite length_app. cbn. lia.
        -- constructor; [exact Hseen|].
           eapply List.Forall_impl; [|exact Hnew]. intros x Hx. set_solver.
Qed.

Section Rewriting.
Context {World : Type} {C : Collaborators World} {B : Builtins}.

(** When the review of a search-like tool's result succeeds, the content
    of the tool message is the rewritten text. *)
Lemma review_result_rewritten (tool_name : option str) (messages : list Message)
    (result : str) (w w' : World) (review_text : str) (review_json : ReviewJson)
    (text : str) :
  is_search_like tool_name = true ->
  tool_ainvoke (lit "review_search_results")
    (review_args result (user_question_of messages) (today w)) w
    = (Ok review_text, w') ->
  json_loads_review review_text = Some review_json ->
  filter_by_review review_json = Some text ->
  value (review_result tool_name messages result w) = Ok text.
Proof.
  intros Hsearch Hrun Hjson Hfilter. unfold review_result. rewrite Hsearch.
  change (List.find _ all_tools) with (Some (lit "review_search_results")).
  unfold catch, bind, run_tool, call, ret. rewrite Hrun. cbn [value trace world].
  rewrite Hjson, Hfilter. reflexivity.
Qed.

End Rewriting.

Lemma omap_length_le {A R} (f : A -> option R) (l : list A) :
  (length (omap f l) <= length l)%nat.
Proof.
  induction l as [|x l IH]; [reflexivity|].
  cbn. destruct (f x); cbn; lia.
Qed.

Lemma recommended_part_length (recommendations : list Z) (entry_map : gmap Z JEntry) :
  (length (omap (fun idx => entry_map !! idx) (take 10 recommendations)) <= 10)%nat.
Proof.
  etransitivity; [apply omap_length_le|]. rewrite length_take. lia.
Qed.

(** The padding loop never takes two entries with the same index, and
    leaves an entry out only when its index is already present or ten
    entries are reached. *)
Lemma pad_entries_complete (sorted_entries : list JEntry) :
  forall (final_entries : list JEntry) (existing_indices : gset Z),
  exists padding,
    pad_entries sorted_entries final_entries existing_indices = final_entries ++ padding /\
    NoDup (map j_index padding) /\
    Forall (fun e => j_index e ∉ existing_indices) padding /\
    ((forall e, In e sorted_entries ->
        j_index e ∈ existing_indices \/ In (j_index e) (map j_index padding)) \/
     (10 <= length (final_entries ++ padding))%nat).
Proof.
  induction sorted_entries as [|e rest IH]; intros final_entries existing_indices.
  - exists []. cbn. rewrite app_nil_r.
    split; [reflexivity|]. split; [constructor|]. split; [constructor|].
    left. intros e [].
  - cbn [pad_entries].
    destruct (Nat.leb_spec 10 (length final_entries)) as [Hfull|Hroom].
    + exists []. rewrite app_nil_r.
      split; [reflexivity|]. split; [constructor|]. split; [constructor|].
      right. exact Hfull.
    + destruct (bool_decide (j_index e ∈ existing_indices)) eqn:Hseen.
      * apply bool_decide_eq_true in Hseen.
        destruct (IH final_entries existing_indices)
          as [padding [Heq [Hnodup [Hnew Hall]]]].
        exists padding. split; [exact Heq|]. split; [exact Hnodup|]. split; [exact Hnew|].
        destruct Hall as [Hall|Hten]; [left | right; exact Hten].
        intros x [<-|Hx]; [left; exact Hseen | apply Hall, Hx].
      * apply bool_decide_eq_false in Hseen.
        destruct (IH (final_entries ++ [e]) ({[j_index e]} ∪ existing_indices))
          as [padding [Heq [Hnodup [Hnew Hall]]]].
        exists (e :: padding). rewrite Heq, <- app_assoc.
        split; [reflexivity|]. split; [|split].
        -- cbn [map]. apply NoDup_cons. split; [|exact Hnodup].
           intros Hin. apply list_elem_of_In, in_map_iff in Hin as [x [Hx Hin]].
           rewrite List.Forall_forall in Hnew. specialize (Hnew x Hin).
           rewrite Hx in Hnew. apply Hnew, elem_of_union. left.
           apply elem_of_singleton. reflexivity.
        -- constructor; [exact Hseen|].
           eapply List.Forall_impl; [|exact Hnew]. intros x Hx Hin. apply Hx.
           apply elem_of_union. right. exact Hin.
        -- destruct Hall as [Hall|Hten]; [left | right].
           ++ intros x [<-|Hx]; [right; left; reflexivity|].
              destruct (Hall x Hx) as [H|H]; [|right; right; exact H].
              apply elem_of_union in H as [H|H]; [|left; exact H].
              right. left. apply elem_of_singleton in H. symmetry. exact H.
           ++ rewrite <- app_assoc in Hten. exact Hten.
Qed.

Lemma entry_map_of_snoc (entries : list JEntry) (e : JEntry) :
  entry_map_of (entries ++ [e]) = <[j_index e := e]> (entry_map_of entries).
Proof. unfold entry_map_of. rewrite foldl_app. reflexivity. Qed.

(** The entry map, [{e['index']: e for e in entries}], maps an index to
    the last entry that carries it. *)
Lemma entry_map_of_lookup (entries : list JEntry) (idx : Z) :
  entry_map_of entries !! idx =
  List.find (fun e => (j_index e =? idx)%Z) (rev entries).
Proof.
  induction entries as [|e entries' IH] using rev_ind; [reflexivity|].
  rewrite entry_map_of_snoc, rev_unit. cbn [List.find].
  destruct (Z.eqb_spec (j_index e) idx) as [->|Hne].
  - apply lookup_insert_eq.
  - rewrite lookup_insert_ne by exact Hne. exact IH.
Qed.





End MainFacts.

(** ** The model on the scenarios of the specification *)

Module Checks.
Import Py Review Main Scenarios.

(** Scenario A: no history, "hello", tools disabled: one model call in the
    loop, then [answer_start], [content_delta] and [message_complete]. *)
Example tools_disabled_run :
  events_of
    (trace (generate_streaming_response_with_tools (C := scripted plain) hello
              (Some (lit "deepseek-chat")) None false 5 None []))
  = [AnswerStart; ContentDelta (lit "hi"); MessageComplete (lit "hi") []].
Proof. vm_compute. reflexivity. Qed.

(** Scenario B: final scores 0.6, 0.2, 0.45: the entries 1 and 3 are
    recommended. *)
Example three_scores :
  recommended [scored 1 0.6; scored 2 0.2; scored 3 0.45] = [1%Z; 3%Z].
Proof. vm_compute. reflexivity. Qed.

(** Scenario C: an unknown tool, then the time tool: one tool result, no
    error event. *)
Example unknown_tool_run :
  events_of
    (trace (generate_streaming_response_with_tools (C := scripted plain) hello
              (Some (lit "deepseek-chat")) None true 5 None
              [wants ["unknown_tool"; "get_current_time"]]%string))
  = [ToolCalls [(Some (lit "unknown_tool"), Some []);
                (Some (lit "get_current_time"), Some [])];
     ToolResults [(Some (lit "get_current_time"), lit "12:00")];
     AnswerStart; ContentDelta (lit "hi"); MessageComplete (lit "hi") []].
Proof. vm_compute. reflexivity. Qed.

(** A reasoning stream followed by an answer. *)
Example reasoning_then_answer :
  fst (process_chunks true
         [thought_chunk "a" ""; thought_chunk "b" ""; answer_chunk "c"; answer_chunk "d"]
         initial_stream_state)
  = [ThoughtProcessStart; ThoughtProcessContent (lit "a");
     ThoughtProcessContent (lit "b"); ThoughtProcessEnd; AnswerStart;
     ContentDelta (lit "c"); ContentDelta (lit "d")].
Proof. vm_compute. reflexivity. Qed.

(** The text written for the sample review. *)
Example sample_review_text :
  filter_by_review sample_review =
  Some (lit "🔍 经审查筛选后的搜索结果：" ++ nl ++ nl ++
        lit "[1] third" ++ nl ++ lit "📝 snippet" ++ nl ++
        lit "📍 来源: source" ++ nl ++ nl ++
        lit "[2] seventh" ++ nl ++ lit "📝 snippet" ++ nl ++
        lit "📍 来源: source" ++ nl ++ nl).
Proof. vm_compute. reflexivity. Qed.

(** A search tool whose review succeeds: the tool message carries the
    rewritten text. *)
Example reviewed_search :
  value
    (execute_tool_calls
       (C := scripted {| sc_chunks := []; sc_failure := None;
                         sc_tool := fun _ => Ok (lit "raw results");
                         sc_review := Some sample_review;
                         sc_append := Ok true; sc_bind := None |})
       [call_of "web_search"] hello [])
  = Ok [{| tm_content :=
             render_from 1 [jentry 3 "third" 0.5; jentry 7 "seventh" 0.2] review_header;
           tm_tool_call_id := Some (lit "call_1");
           tm_name := Some (lit "web_search") |}].
Proof. vm_compute. reflexivity. Qed.

(** The recency rules on sample entries, for the reference date 2025-11-22. *)
Example recency_rules :
  map (fun '(title, snippet) =>
         _compute_recency_score (lit "2025-11-22") (lit title) (lit snippet))
      [("今日要闻", "2025-11-22 发布"); ("快讯", "最近三天"); ("回顾", "2025年展望");
       ("回顾", "2019年旧闻"); ("标题", "没有时间信息")]%string
  = [1.0; 0.8; 0.6; 0.2; 0.3]%Q.
Proof. vm_compute. reflexivity. Qed.

End Checks.

(** ** More facts about the dispatcher, the loop and the stream *)

Module RoundFacts.
Import Py Main Reading MainFacts.

Section WithWorld.
Context {World : Type} {C : Collaborators World} {B : Builtins}.

Lemma execute_tool_call_answers (tool_call : ToolCall) (messages : list Message)
    (w : World) :
  if unanswerable tool_call
  then value (execute_tool_call tool_call messages w) = Raise tool_message_error
  else exists tms,
         value (execute_tool_call tool_call messages w) = Ok tms /\
         map answer_key tms = map call_key (List.filter registered [tool_call]).
Proof.
  unfold unanswerable, registered. cbn [List.filter].
  destruct (find_tool (tc_name tool_call)) as [tool_func|] eqn:Hfind.
  - destruct (execute_tool_call_registered tool_call messages w tool_func Hfind)
      as [content [_ Hv]].
    destruct (tc_id tool_call) as [id|] eqn:Hid; cbn [andb].
    + eexists. split; [exact Hv|]. cbn. unfold call_key. rewrite Hid. reflexivity.
    + exact Hv.
  - cbn [andb]. unfold execute_tool_call. rewrite Hfind. exists []. split; reflexivity.
Qed.

Lemma execute_tool_calls_answers (tool_calls : list ToolCall)
    (messages : list Message) (w : World) :
  if existsb unanswerable tool_calls
  then value (execute_tool_calls tool_calls messages w) = Raise tool_message_error
  else exists tms,
         value (execute_tool_calls tool_calls messages w) = Ok tms /\
         map answer_key tms = map call_key (List.filter registered tool_calls).
Proof.
  revert w. induction tool_calls as [|tc rest IH]; intros w.
  - exists []. split; reflexivity.
  - rewrite execute_tool_calls_cons. cbv zeta. cbn [existsb].
    pose proof (execute_tool_call_answers tc messages w) as Hone.
    destruct (unanswerable tc); cbn [orb].
    + rewrite Hone. reflexivity.
    + destruct Hone as [tms [-> Hkeys]]. cbn [value].
      specialize (IH (world (execute_tool_call tc messages w))).
      destruct (existsb unanswerable rest).
      * rewrite IH. reflexivity.
      * destruct IH as [more [-> Hkeys']]. exists (tms ++ more).
        split; [reflexivity|].
        rewrite map_app, Hkeys, Hkeys'.
        change (tc :: rest) with ([tc] ++ rest).
        rewrite List.filter_app, map_app. reflexivity.
Qed.

Lemma events_of_tool_runs (t : list Action) :
  Forall (fun a => is_tool_run a = true) t -> events_of t = [].
Proof.
  induction 1 as [|a t Ha _ IH]; [reflexivity|].
  destruct a; try discriminate Ha. exact IH.
Qed.

Lemma truthy_not_nil {A} (l : list A) : truthy l = true -> l <> [].
Proof. destruct l; [discriminate | discriminate]. Qed.

(** The loop as a sequence of rounds: its events are the two events of
    each round, then the [tool_calls] event of the round in which the
    dispatcher raised, if there is one; the messages it returns are the
    ones it was given followed by the messages of the rounds, and every
    invocation is made on the messages of the rounds completed so far. *)
Lemma tool_loop_rounds (fuel : nat) (model : ChatModel) (max_iterations : Z) :
  forall (iteration : Z) (messages : list Message) (w : World),
    let ol := tool_loop fuel model max_iterations iteration messages w in
    exists (rounds : list Round) (unanswered : option Response),
      (length rounds + length (unanswered_events unanswered) <= fuel)%nat /\
      Forall well_answered rounds /\
      events_of (trace ol) =
        flat_map round_events rounds ++ unanswered_events unanswered /\
      (forall looped, value ol = Ok looped ->
         unanswered = None /\
         snd looped = messages ++ flat_map round_messages rounds) /\
      (forall response, unanswered = Some response ->
         value ol = Raise tool_message_error /\
         existsb unanswerable (resp_tool_calls response) = true /\
         In (Invoked model (messages ++ flat_map round_messages rounds) (Ok response))
            (trace ol)) /\
      Forall (fun a =>
                forall ms, messages_of a = Some ms ->
                  exists k, ms = messages ++ flat_map round_messages (take k rounds))
             (trace ol).
Proof.
  induction fuel as [|fuel IH]; intros iteration messages w ol; subst ol.
  - rewrite tool_loop_zero. exists [], None.
    split; [cbn; lia|]. split; [constructor|]. split; [reflexivity|].
    split; [|split; [discriminate | constructor]].
    intros looped [= <-]. cbn. rewrite app_nil_r. split; reflexivity.
  - rewrite tool_loop_step.
    assert (Hhere : forall r,
      forall ms, messages_of (Invoked model messages r) = Some ms ->
        forall rounds : list Round,
        exists k, ms = messages ++ flat_map round_messages (take k rounds)).
    { intros r ms [= <-] rounds. exists 0%nat. cbn. rewrite app_nil_r. reflexivity. }
    destruct (iteration <? max_iterations)%Z.
    2:{ exists [], None.
        split; [cbn; lia|]. split; [constructor|]. split; [reflexivity|].
        split; [|split; [discriminate | constructor]].
        intros looped [= <-]. cbn. rewrite app_nil_r. split; reflexivity. }
    destruct (ainvoke model messages w) as [[response|e] w1].
    2:{ exists [], None. cbn [trace value].
        split; [cbn; lia|]. split; [constructor|]. split; [reflexivity|].
        split; [discriminate|]. split; [discriminate|].
        constructor; [|constructor]. intros ms Hms. exact (Hhere _ ms Hms []). }
    destruct (truthy (resp_tool_calls response)) eqn:Htruthy.
    2:{ exists [], None. cbn [trace value].
        split; [cbn; lia|]. split; [constructor|]. split; [reflexivity|].
        split; [intros looped [= <-]; cbn; rewrite app_nil_r; split; reflexivity|].
        split; [discriminate|].
        constructor; [|constructor]. intros ms Hms. exact (Hhere _ ms Hms []). }
    cbv zeta.
    pose proof (execute_tool_calls_answers (resp_tool_calls response)
                  (messages ++ [AIMessage response]) w1) as Hanswers.
    pose proof (execute_tool_calls_runs (resp_tool_calls response)
                  (messages ++ [AIMessage response]) w1) as Htr.
    assert (Hruns : Forall (fun a =>
                forall ms, messages_of a = Some ms ->
                  exists k, ms = messages ++ flat_map round_messages (take k (@nil Round)))
              (trace (execute_tool_calls (resp_tool_calls response)
                        (messages ++ [AIMessage response]) w1))).
    { eapply List.Forall_impl; [|exact Htr].
      intros [] Ha ms Hms; try discriminate Ha; discriminate Hms. }
    destruct (existsb unanswerable (resp_tool_calls response)) eqn:Hbad.
    { rewrite Hanswers. exists [], (Some response). cbn [trace value world].
      split; [cbn; lia|]. split; [constructor|].
      split.
      { change (events_of (Invoked model messages (Ok response) :: ?t))
          with (events_of t).
        change (events_of (Yield ?e :: ?t)) with (e :: events_of t).
        rewrite (events_of_tool_runs _ Htr). reflexivity. }
      split; [discriminate|].
      split.
      { intros response' [= <-]. split; [reflexivity|]. split; [exact Hbad|].
        left. cbn. rewrite app_nil_r. reflexivity. }
      constructor; [intros ms Hms; exact (Hhere _ ms Hms _)|].
      constructor; [intros ms [=] | exact Hruns]. }
    destruct Hanswers as [tms [Htms Hkeys]].
    rewrite Htms.
    set (o := execute_tool_calls _ _ w1) in *.
    destruct (IH (iteration + 1)%Z
                ((messages ++ [AIMessage response]) ++ map ToolMessage tms) (world o))
      as [rounds [unanswered [Hlen [Hgood [Hev [Hmsgs [Hbroken Hinv]]]]]]].
    exists ((response, tms) :: rounds), unanswered. cbn [trace value world].
    split; [cbn [length]; lia|].
    split; [constructor; [split; [apply truthy_not_nil, Htruthy | exact Hkeys] | exact Hgood]|].
    split.
    { change (events_of (Invoked model messages (Ok response) :: ?t))
        with (events_of t).
      change (events_of (Yield ?e :: ?t)) with (e :: events_of t).
      rewrite events_of_app, (events_of_tool_runs _ Htr).
      change (events_of (Yield ?e :: ?t)) with (e :: events_of t).
      rewrite Hev. reflexivity. }
    split.
    { intros looped Hl. destruct (Hmsgs looped Hl) as [Hnone ->]. split; [exact Hnone|].
      cbn [flat_map round_messages fst snd]. rewrite <- !app_assoc. reflexivity. }
    split.
    { intros response' Hsome. destruct (Hbroken response' Hsome) as [Hv [Hbad' Hin]].
      split; [exact Hv|]. split; [exact Hbad'|].
      right. right. apply in_or_app. right. right.
      cbn [flat_map round_messages fst snd]. rewrite <- !app_assoc in *. exact Hin. }
    constructor; [intros ms Hms; exact (Hhere _ ms Hms _)|].
    constructor; [intros ms [=]|].
    apply Forall_app. split.
    { eapply List.Forall_impl; [|exact Htr].
      intros [] Ha ms Hms; try discriminate Ha; discriminate Hms. }
    constructor; [intros ms [=]|].
    eapply List.Forall_impl; [|exact Hinv].
    intros a Ha ms Hms. destruct (Ha ms Hms) as [k ->].
    exists (S k). cbn [take flat_map round_messages fst snd].
    rewrite <- !app_assoc. reflexivity.
Qed.

End WithWorld.
End RoundFacts.

Module RunShape.
Import Py Main Reading MainFacts RoundFacts.

Section WithWorld.
Context {World : Type} {C : Collaborators World} {B : Builtins}.

Lemma tool_loop_last (fuel : nat) (model : ChatModel) (max_iterations : Z)
    (m : ChatModel) (ms : list Message) (r : result Response) :
  ends_loop r ->
  forall (iteration : Z) (messages : list Message) (w : World),
    let ol := tool_loop fuel model max_iterations iteration messages w in
    In (Invoked m ms r) (trace ol) ->
    (exists t, trace ol = t ++ [Invoked m ms r]) /\
    match r with
    | Raise e => value ol = Raise e
    | Ok _ => exists it, value ol = Ok (it, ms)
    end.
Proof.
  intros Hends.
  induction fuel as [|fuel IH]; intros iteration messages w ol; subst ol.
  - rewrite tool_loop_zero. intros [].
  - rewrite tool_loop_step.
    destruct (iteration <? max_iterations)%Z; [|intros []].
    destruct (ainvoke model messages w) as [[response|e] w1].
    2:{ intros [[= <- <- <-]|[]]. split; [exists []; reflexivity | reflexivity]. }
    destruct (truthy (resp_tool_calls response)) eqn:Htruthy.
    2:{ intros [[= <- <- <-]|[]]. split; [exists []; reflexivity | eexists; reflexivity]. }
    cbv zeta.
    pose proof (execute_tool_calls_runs (resp_tool_calls response)
                  (messages ++ [AIMessage response]) w1) as Htr.
    set (o := execute_tool_calls _ _ w1) in *.
    destruct (value o) as [tms|e0].
    2:{ cbn [trace]. intros Hin. exfalso.
        destruct Hin as [Heq|[Heq|Hin]].
        - injection Heq as <- <- <-. cbn in Hends.
          rewrite Hends in Htruthy. discriminate Htruthy.
        - discriminate Heq.
        - revert Hin. apply (not_in_by is_tool_run); [exact Htr | reflexivity]. }
    cbn [trace value]. intros Hin.
    assert (Hrec : In (Invoked m ms r)
                      (trace (tool_loop fuel model max_iterations (iteration + 1)
                                ((messages ++ [AIMessage response]) ++ map ToolMessage tms)
                                (world o)))).
    { destruct Hin as [Heq|[Heq|Hin]].
      - exfalso. injection Heq as <- <- <-. cbn in Hends.
        rewrite Hends in Htruthy. discriminate Htruthy.
      - discriminate Heq.
      - apply in_app_or in Hin as [Hin|[Heq|Hin]]; [|discriminate Heq | exact Hin].
        exfalso. revert Hin. apply (not_in_by is_tool_run); [exact Htr | reflexivity]. }
    destruct (IH _ _ _ Hrec) as [[t Ht] Hv]. split; [|exact Hv].
    rewrite Ht.
    exists (Invoked model messages (Ok response)
            :: Yield (tool_call_data (resp_tool_calls response))
            :: trace o ++ Yield (tool_result_data tms) :: t).
    cbn [app]. rewrite <- app_assoc. reflexivity.
Qed.

(** A run written out: the announcement of the session, the trace of the
    tool loop, the call of the stream with the events of its chunks, and
    the ending. *)
Lemma generate_run (messages : list Message) (model_name : option str)
    (pdf_chunks : option (list PdfChunk)) (enable_tools : bool)
    (max_iterations : Z) (session_id : option str) (w : World) :
  let tr :=
    trace (generate_streaming_response_with_tools messages model_name pdf_chunks
             enable_tools max_iterations session_id w) in
  (exists e,
     get_chat_model_with_tools model_name enable_tools = Raise e /\
     tr = [Yield (ErrorEvent (exn_str e))]) \/
  (exists model,
     get_chat_model_with_tools model_name enable_tools = Ok model /\
     let ol := tool_loop (Z.to_nat max_iterations) model max_iterations 0
                 (add_pdf_context pdf_chunks messages) w in
     ((exists e,
         value ol = Raise e /\
         tr = session_actions session_id ++ trace ol ++ [Yield (ErrorEvent (exn_str e))]) \/
      (exists looped chunks failure w2 ending,
         let out := process_chunks (is_reasoner model_name) chunks initial_stream_state in
         value ol = Ok looped /\
         astream model (snd looped) (world ol) = (chunks, failure, w2) /\
         tr = session_actions session_id ++ trace ol ++
              Streamed model (snd looped) chunks failure :: map Yield (fst out) ++ ending /\
         ends_with failure (is_reasoner model_name) (snd out)
           (references_for (full_response (snd out)) pdf_chunks) session_id ending))).
Proof.
  intros tr.
  destruct (get_chat_model_with_tools model_name enable_tools) as [model|e0] eqn:Hmodel.
  2:{ left. exists e0. split; [reflexivity|]. subst tr.
      unfold generate_streaming_response_with_tools, generate_body.
      rewrite Hmodel.
      erewrite runs_trace.
      2:{ eapply runs_catch_raise; [|apply runs_yield].
          apply runs_bind_raise. reflexivity. }
      reflexivity. }
  right. exists model. split; [reflexivity|].
  set (msgs0 := add_pdf_context pdf_chunks messages).
  set (ol := tool_loop (Z.to_nat max_iterations) model max_iterations 0 msgs0 w).
  cbv zeta.
  assert (Hsess :
    runs (match session_of session_id with
          | Some sid => yield (SessionInit sid)
          | None => @ret World _ tt
          end) w (session_actions session_id) w (Ok tt)).
  { unfold session_actions. destruct (session_of session_id); reflexivity. }
  pose proof (runs_total (tool_loop (Z.to_nat max_iterations) model max_iterations
                            0 msgs0) w) as Hloop.
  fold ol in Hloop.
  destruct (value ol) as [looped|e1] eqn:Hvalue.
  2:{ left. exists e1. split; [reflexivity|]. subst tr.
      unfold generate_streaming_response_with_tools, generate_body.
      rewrite Hmodel. fold msgs0.
      erewrite runs_trace.
      2:{ eapply runs_catch_raise; [|apply runs_yield].
          eapply runs_bind_ok; [apply runs_ret|].
          eapply runs_bind_ok; [exact Hsess|].
          apply runs_bind_raise. exact Hloop. }
      rewrite app_nil_l, <- app_assoc. reflexivity. }
  right.
  destruct (astream model (snd looped) (world ol)) as [[chunks failure] w2] eqn:Hastream.
  set (out := process_chunks (is_reasoner model_name) chunks initial_stream_state).
  assert (Hstream :
    runs (stream_answer (is_reasoner model_name) model (snd looped)) (world ol)
         (Streamed model (snd looped) chunks failure :: map Yield (fst out)) w2
         (match failure with None => Ok (snd out) | Some e => Raise e end)).
  { unfold runs, stream_answer. rewrite Hastream. fold out.
    destruct out. reflexivity. }
  destruct failure as [e2|].
  - exists looped, chunks, (Some e2), w2. eexists.
    split; [reflexivity|]. split; [exact Hastream|]. split; [|reflexivity]. subst tr.
    unfold generate_streaming_response_with_tools, generate_body.
    rewrite Hmodel. fold msgs0.
    erewrite runs_trace.
    2:{ eapply runs_catch_raise; [|apply runs_yield].
        eapply runs_bind_ok; [apply runs_ret|].
        eapply runs_bind_ok; [exact Hsess|].
        eapply runs_bind_ok; [exact Hloop|].
        apply runs_bind_raise. exact Hstream. }
    rewrite app_nil_l, <- !app_assoc, <- app_comm_cons. reflexivity.
  - set (st := snd out) in *.
    set (references := references_for (full_response st) pdf_chunks).
    assert (Hend :
      runs (if is_reasoner model_name && thought_process_started st &&
               negb (thought_process_ended st)
            then yield ThoughtProcessEnd else @ret World _ tt) w2
           (if is_reasoner model_name && thought_process_started st &&
               negb (thought_process_ended st)
            then [Yield ThoughtProcessEnd] else []) w2 (Ok tt)).
    { destruct (_ && _ && _); reflexivity. }
    assert (Hpersist :
      exists persisted w3,
        runs (match session_of session_id with
              | Some sid =>
                catch
                  (bind (call (append_message sid (full_response st) references)
                              (Appended sid (full_response st) references))
                        (fun _ => ret tt))
                  (fun _ => ret tt)
              | None => @ret World _ tt
              end) w2 persisted w3 (Ok tt) /\
        match session_of session_id with
        | Some sid => exists r, persisted = [Appended sid (full_response st) references r]
        | None => persisted = []
        end).
    { destruct (session_of session_id) as [sid|].
      - unfold runs, catch, bind, call, ret.
        destruct (append_message sid (full_response st) references w2) as [[b|e3] w3];
          cbn [value trace world].
        + exists [Appended sid (full_response st) references (Ok b)], w3.
          split; [reflexivity | eauto].
        + exists [Appended sid (full_response st) references (Raise e3)], w3.
          split; [reflexivity | eauto].
      - exists [], w2. split; reflexivity. }
    destruct Hpersist as [persisted [w3 [Hp Hshape]]].
    exists looped, chunks, None, w2. eexists.
    split; [reflexivity|]. split; [exact Hastream|]. split.
    2:{ exists persisted. split; [reflexivity | exact Hshape]. }
    subst tr.
    unfold generate_streaming_response_with_tools, generate_body.
    rewrite Hmodel. fold msgs0.
    erewrite runs_trace.
    2:{ eapply runs_catch_ok.
        eapply runs_bind_ok; [apply runs_ret|].
        eapply runs_bind_ok; [exact Hsess|].
        eapply runs_bind_ok; [exact Hloop|].
        eapply runs_bind_ok; [exact Hstream|].
        eapply runs_bind_ok; [exact Hend|].
        eapply runs_bind_ok; [exact Hp|].
        apply runs_yield. }
    unfold closing. fold st. fold references. reflexivity.
Qed.

End WithWorld.
End RunShape.

Module SplitterFacts.
Import Py Main Reading MainFacts.

Lemma follows_protocol_skip (thinking thought answering : bool)
    (pre events : list Event) :
  Forall (fun e => is_split_event e = false) pre ->
  follows_protocol thinking thought answering (pre ++ events) =
  follows_protocol thinking thought answering events.
Proof.
  induction 1 as [|e pre He _ IH]; [reflexivity|].
  destruct e; try discriminate He; exact IH.
Qed.

Lemma process_chunk_protocol (r : bool) (chunk : Chunk) (st : StreamState)
    (events : list Event) :
  let out := process_chunk r chunk st in
  follows_protocol (thought_process_started st) (thought_process_ended st)
    (answer_started st) (fst out ++ events) =
  follows_protocol (thought_process_started (snd out)) (thought_process_ended (snd out))
    (answer_started (snd out)) events.
Proof.
  unfold process_chunk.
  destruct (r && truthy (additional_kwargs chunk) && truthy (reasoning_content_of chunk)).
  - cbn [fst snd thought_process_started thought_process_ended answer_started].
    destruct (thought_process_started st); reflexivity.
  - destruct (truthy (content chunk)); [|reflexivity].
    cbn [fst snd thought_process_started thought_process_ended answer_started].
    destruct r, (thought_process_started st), (thought_process_ended st),
      (answer_started st); reflexivity.
Qed.

Lemma process_chunks_protocol (r : bool) (chunks : list Chunk) :
  forall (st : StreamState) (events : list Event),
    let out := process_chunks r chunks st in
    follows_protocol (thought_process_started st) (thought_process_ended st)
      (answer_started st) (fst out ++ events) =
    follows_protocol (thought_process_started (snd out)) (thought_process_ended (snd out))
      (answer_started (snd out)) events.
Proof.
  induction chunks as [|chunk rest IH]; intros st events; [reflexivity|].
  cbv zeta. rewrite process_chunks_cons. cbn [fst snd].
  rewrite <- app_assoc. rewrite process_chunk_protocol. apply IH.
Qed.

(** Without a reasoning channel, the splitter passes every non-empty
    answer payload on, after one [answer_start]. *)
Lemma process_chunks_plain (chunks : list Chunk) :
  forall st : StreamState,
    fst (process_chunks false chunks st) =
    if answer_started st
    then map ContentDelta (List.filter truthy (map content chunks))
    else plain_events (List.filter truthy (map content chunks)).
Proof.
  induction chunks as [|chunk rest IH]; intros st.
  - cbn. destruct (answer_started st); reflexivity.
  - rewrite process_chunks_cons. cbn [fst]. rewrite IH.
    unfold process_chunk. cbn [andb map List.filter].
    destruct (truthy (content chunk)); cbn [fst snd answer_started app].
    + destruct (answer_started st); reflexivity.
    + reflexivity.
Qed.

End SplitterFacts.

Module RunEvents.
Import Py Main Reading MainFacts RoundFacts RunShape SplitterFacts.

Section Run.
Context {World : Type} {C : Collaborators World} {B : Builtins}.
Variables (messages : list Message) (model_name : option str)
  (pdf_chunks : option (list PdfChunk)) (enable_tools : bool)
  (max_iterations : Z) (session_id : option str) (w : World).

Local Abbreviation run :=
  (generate_streaming_response_with_tools messages model_name pdf_chunks
     enable_tools max_iterations session_id w).

Lemma events_of_session : events_of (session_actions session_id) = session_events session_id.
Proof. unfold session_actions, session_events. destruct (session_of session_id); reflexivity. Qed.

Lemma events_of_ending (failure : option Exn) (r : bool) (st : StreamState)
    (refs : list Reference) (ending : list Action) :
  ends_with failure r st refs session_id ending ->
  events_of ending = ending_events failure r st refs.
Proof.
  unfold ends_with, ending_events. destruct failure as [e|].
  - intros ->. reflexivity.
  - intros [persisted [-> Hp]]. apply events_of_closing.
    destruct (session_of session_id) as [sid|].
    + destruct Hp as [res ->]. right. eauto.
    + left. exact Hp.
Qed.

(** The events of a run, written out: the announcement of the session, the
    two events of each round of the loop, the events of the chunks, and
    the ending; after a failed invocation, the rounds and an error; after
    a failed dispatch, the rounds, the calls of the round that failed and
    an error. *)
Lemma run_events :
  (exists e,
     get_chat_model_with_tools model_name enable_tools = Raise e /\
     events_of (trace run) = [ErrorEvent (exn_str e)]) \/
  (exists (model : ChatModel) (rounds : list Round) (unanswered : option Response),
     get_chat_model_with_tools model_name enable_tools = Ok model /\
     (length rounds + length (unanswered_events unanswered)
      <= Z.to_nat max_iterations)%nat /\
     Forall well_answered rounds /\
     (forall response, unanswered = Some response ->
        existsb unanswerable (resp_tool_calls response) = true /\
        In (Invoked model
              (add_pdf_context pdf_chunks messages ++ flat_map round_messages rounds)
              (Ok response))
           (trace run) /\
        events_of (trace run) =
          session_events session_id ++ flat_map round_events rounds ++
          [tool_call_data (resp_tool_calls response);
           ErrorEvent (exn_str tool_message_error)]) /\
     ((exists e,
         events_of (trace run) =
           session_events session_id ++ flat_map round_events rounds ++
           unanswered_events unanswered ++ [ErrorEvent (exn_str e)]) \/
      (exists chunks failure,
         let out := process_chunks (is_reasoner model_name) chunks initial_stream_state in
         unanswered = None /\
         events_of (trace run) =
           session_events session_id ++ flat_map round_events rounds ++ fst out ++
           ending_events failure (is_reasoner model_name) (snd out)
             (references_for (full_response (snd out)) pdf_chunks)))).
Proof.
  destruct (generate_run messages model_name pdf_chunks enable_tools max_iterations
              session_id w)
    as [[e [Hm Htr]] | [model [Hm Hcases]]].
  { left. exists e. split; [exact Hm|]. rewrite Htr. reflexivity. }
  right. cbv zeta in Hcases.
  destruct (tool_loop_rounds (Z.to_nat max_iterations) model max_iterations 0
              (add_pdf_context pdf_chunks messages) w)
    as [rounds [unanswered [Hlen [Hgood [Hev [Hmsgs [Hbroken _]]]]]]].
  exists model, rounds, unanswered.
  split; [exact Hm|]. split; [exact Hlen|]. split; [exact Hgood|].
  destruct Hcases as [[e [Hv Htr]] | [looped [chunks [failure [w2 [ending [Hv [_ [Htr Hend]]]]]]]]].
  - assert (Hevents : events_of (trace run) =
              session_events session_id ++ flat_map round_events rounds ++
              unanswered_events unanswered ++ [ErrorEvent (exn_str e)]).
    { rewrite Htr, !events_of_app, events_of_session, Hev, <- app_assoc. reflexivity. }
    split; [|left; exists e; exact Hevents].
    intros response ->. destruct (Hbroken response eq_refl) as [Hraise [Hbad Hin]].
    split; [exact Hbad|]. split.
    + rewrite Htr. apply in_or_app. right. apply in_or_app. left. exact Hin.
    + rewrite Hraise in Hv. injection Hv as <-. exact Hevents.
  - destruct (Hmsgs looped Hv) as [-> _].
    split; [discriminate|].
    right. exists chunks, failure. cbv zeta. split; [reflexivity|].
    rewrite Htr, !events_of_app, events_of_session, Hev, events_of_streamed,
      events_of_app, events_of_yields, (events_of_ending _ _ _ _ _ Hend).
    cbn [unanswered_events]. rewrite app_nil_r. reflexivity.
Qed.

(** The message lists the model is called on. *)
Lemma run_calls :
  exists rounds : list Round,
    (length rounds <= Z.to_nat max_iterations)%nat /\
    Forall well_answered rounds /\
    Forall (fun a =>
              forall ms, messages_of a = Some ms ->
                exists k, ms = add_pdf_context pdf_chunks messages ++
                               flat_map round_messages (take k rounds))
           (trace run).
Proof.
  assert (Hyields : forall evs, Forall (fun a => forall ms, messages_of a = Some ms ->
            exists k, ms = add_pdf_context pdf_chunks messages ++
                           flat_map round_messages (take k (@nil Round)))
            (map Yield evs)).
  { intros evs. apply List.Forall_forall. intros a Ha ms Hms.
    apply in_map_iff in Ha as [e [<- _]]. discriminate Hms. }
  destruct (generate_run messages model_name pdf_chunks enable_tools max_iterations
              session_id w)
    as [[e [Hm Htr]] | [model [Hm Hcases]]].
  { exists []. split; [cbn; lia|]. split; [constructor|]. rewrite Htr.
    exact (Hyields [ErrorEvent (exn_str e)]). }
  cbv zeta in Hcases.
  destruct (tool_loop_rounds (Z.to_nat max_iterations) model max_iterations 0
              (add_pdf_context pdf_chunks messages) w)
    as [rounds [unanswered [Hlen [Hgood [_ [Hmsgs [_ Hinv]]]]]]].
  exists rounds. split; [lia|]. split; [exact Hgood|].
  assert (Hsess : forall a, In a (session_actions session_id) -> messages_of a = None).
  { unfold session_actions. destruct (session_of session_id); intros a Ha;
      [destruct Ha as [<-|[]]; reflexivity | destruct Ha]. }
  apply List.Forall_forall. intros a Ha ms Hms.
  rewrite List.Forall_forall in Hinv.
  destruct Hcases as [[e [_ Htr]] | [looped [chunks [failure [w2 [ending [Hv [_ [Htr Hend]]]]]]]]];
    rewrite Htr in Ha; apply in_app_or in Ha as [Ha|Ha];
    try (rewrite (Hsess a Ha) in Hms; discriminate Hms);
    apply in_app_or in Ha as [Ha|Ha]; try exact (Hinv a Ha ms Hms).
  - destruct Ha as [<-|[]]. discriminate Hms.
  - destruct Ha as [<-|Ha].
    + injection Hms as <-. exists (length rounds). rewrite firstn_all.
      apply (Hmsgs looped Hv).
    + exfalso. apply in_app_or in Ha as [Ha|Ha].
      * apply in_map_iff in Ha as [e [<- _]]. discriminate Hms.
      * unfold ends_with in Hend. destruct failure as [e|].
        -- subst ending. destruct Ha as [<-|[]]. discriminate Hms.
        -- destruct Hend as [persisted [-> Hp]]. unfold closing in Ha.
           apply in_app_or in Ha as [Ha|Ha].
           { destruct (_ && _ && _); [destruct Ha as [<-|[]]; discriminate Hms | destruct Ha]. }
           apply in_app_or in Ha as [Ha|[<-|[]]]; [|discriminate Hms].
           destruct (session_of session_id);
             [destruct Hp as [r ->]; destruct Ha as [<-|[]]; discriminate Hms
             | subst persisted; destruct Ha].
Qed.

End Run.
End RunEvents.

Module EngineFacts.
Import Py Main Reading MainFacts RoundFacts RunShape SplitterFacts RunEvents.

Lemma filter_all {A} (p : A -> bool) (l : list A) :
  Forall (fun x => p x = true) l -> List.filter p l = l.
Proof.
  induction 1 as [|x l Hx _ IH]; [reflexivity|]. cbn. rewrite Hx, IH. reflexivity.
Qed.

Lemma filter_nothing {A} (p : A -> bool) (l : list A) :
  Forall (fun x => p x = false) l -> List.filter p l = [].
Proof.
  induction 1 as [|x l Hx _ IH]; [reflexivity|]. cbn. rewrite Hx, IH. reflexivity.
Qed.

Lemma session_events_are (session_id : option str) :
  Forall (fun e => is_session_init e = true) (session_events session_id).
Proof. unfold session_events. destruct (session_of session_id); repeat constructor. Qed.

Lemma round_events_are (rounds : list Round) :
  Forall (fun e => is_round_event e = true) (flat_map round_events rounds).
Proof. induction rounds as [|r rounds IH]; [constructor|]. repeat constructor. exact IH. Qed.

Lemma unanswered_events_are (unanswered : option Response) :
  Forall (fun e => is_round_event e = true) (unanswered_events unanswered).
Proof. destruct unanswered; repeat constructor. Qed.

Lemma ending_events_are (failure : option Exn) (r : bool) (st : StreamState)
    (refs : list Reference) :
  Forall (fun e => is_terminal e = true \/ e = ThoughtProcessEnd)
         (ending_events failure r st refs).
Proof.
  unfold ending_events. destruct failure.
  - constructor; [left; reflexivity | constructor].
  - destruct (_ && _ && _); cbn [app].
    + constructor; [right; reflexivity|]. constructor; [left; reflexivity | constructor].
    + constructor; [left; reflexivity | constructor].
Qed.

Lemma in_loop_part (a : Action) (session_id : option str) (t_loop t_rest : list Action) :
  is_loop_action a = true -> is_yield a = false ->
  Forall (fun x => is_loop_action x = false) t_rest ->
  In a (session_actions session_id ++ t_loop ++ t_rest) -> In a t_loop.
Proof.
  intros Hl Hy Hrest Hin.
  apply in_app_or in Hin as [Hin|Hin].
  { exfalso. revert Hin. apply (not_in_by is_yield); [|exact Hy].
    eapply List.Forall_impl; [|apply session_actions_yields].
    intros ? [H _]. exact H. }
  apply in_app_or in Hin as [Hin|Hin]; [exact Hin|].
  exfalso. rewrite List.Forall_forall in Hrest. specialize (Hrest a Hin). congruence.
Qed.

(** What comes after the loop has no loop action and no terminating event
    before its last action. *)
Lemma after_loop (m : ChatModel) (msgs : list Message) (chunks : list Chunk)
    (failure : option Exn) (r : bool) (refs : list Reference)
    (session_id : option str) (ending : list Action) :
  let out := process_chunks r chunks initial_stream_state in
  ends_with failure r (snd out) refs session_id ending ->
  Forall (fun x => is_loop_action x = false)
         (Streamed m msgs chunks failure :: map Yield (fst out) ++ ending) /\
  exists before last,
    ending = before ++ [Yield last] /\
    is_terminal last = true /\
    Forall (fun x => quiet x = true)
           (Streamed m msgs chunks failure :: map Yield (fst out) ++ before).
Proof.
  intros out Hend.
  pose proof (split_yields _ (process_chunks_split r chunks initial_stream_state))
    as Hsplit. fold out in Hsplit.
  assert (Hloop : Forall (fun x => is_loop_action x = false) (map Yield (fst out))).
  { eapply List.Forall_impl; [|exact Hsplit]. intros ? [_ [H _]]. exact H. }
  assert (Hquiet : Forall (fun x => quiet x = true) (map Yield (fst out))).
  { eapply List.Forall_impl; [|exact Hsplit]. intros ? [_ [_ H]]. exact H. }
  unfold ends_with in Hend. destruct failure as [e|].
  - subst ending. split.
    + constructor; [reflexivity|]. apply Forall_app. split; [exact Hloop | repeat constructor].
    + exists [], (ErrorEvent (exn_str e)). split; [reflexivity|]. split; [reflexivity|].
      rewrite app_nil_r. constructor; [reflexivity | exact Hquiet].
  - destruct Hend as [persisted [-> Hp]]. unfold closing.
    assert (Hpers : Forall (fun x => is_loop_action x = false /\ quiet x = true) persisted).
    { destruct (session_of session_id); [destruct Hp as [res ->] | subst persisted];
        repeat constructor. }
    assert (Hclose : Forall (fun x => is_loop_action x = false /\ quiet x = true)
              (if r && thought_process_started (snd out) && negb (thought_process_ended (snd out))
               then [Yield ThoughtProcessEnd] else [])).
    { destruct (_ && _ && _); repeat constructor. }
    split.
    + constructor; [reflexivity|]. apply Forall_app. split; [exact Hloop|].
      apply Forall_app. split; [eapply List.Forall_impl; [|exact Hclose]; intros ? [H _]; exact H|].
      apply Forall_app. split; [eapply List.Forall_impl; [|exact Hpers]; intros ? [H _]; exact H|].
      repeat constructor.
    + eexists (_ ++ persisted), _. split; [rewrite <- app_assoc; reflexivity|].
      split; [reflexivity|].
      constructor; [reflexivity|]. apply Forall_app. split; [exact Hquiet|].
      apply Forall_app.
      split; [eapply List.Forall_impl; [|exact Hclose] | eapply List.Forall_impl; [|exact Hpers]];
        intros ? [_ H]; exact H.
Qed.

Section Run.
Context {World : Type} {C : Collaborators World} {B : Builtins}.
Variables (messages : list Message) (model_name : option str)
  (pdf_chunks : option (list PdfChunk)) (enable_tools : bool)
  (max_iterations : Z) (session_id : option str) (w : World).

Local Abbreviation run :=
  (generate_streaming_response_with_tools messages model_name pdf_chunks
     enable_tools max_iterations session_id w).

(** X4: the [tool_calls] and [tool_results] events of a run come in pairs, one
    pair per round of the loop and in round order: the [tool_calls] event
    of the calls the model asked for, then the [tool_results] event of the
    messages that answer the registered ones among them, by id and name.
    The one exception is a round in which a call to a registered tool has
    no id: the dispatcher raises, the [tool_calls] event of that round
    gets no [tool_results] event, and the [error] event follows it at
    once. There are at most [max_iterations] rounds in all. *)
Theorem tool_events_come_in_rounds :
  exists (rounds : list Round) (unanswered : option Response),
    List.filter is_round_event (events_of (trace run)) =
      flat_map round_events rounds ++ unanswered_events unanswered /\
    Forall well_answered rounds /\
    (length rounds + length (unanswered_events unanswered)
     <= Z.to_nat max_iterations)%nat /\
    (forall response, unanswered = Some response ->
       existsb unanswerable (resp_tool_calls response) = true /\
       (exists m ms, In (Invoked m ms (Ok response)) (trace run)) /\
       exists before,
         events_of (trace run) =
           before ++ [tool_call_data (resp_tool_calls response);
                      ErrorEvent (exn_str tool_message_error)]).
Proof.
  destruct (run_events messages model_name pdf_chunks enable_tools max_iterations
              session_id w)
    as [[e [_ Hev]] | [model [rounds [unanswered [_ [Hlen [Hgood [Hbroken Hcases]]]]]]]].
  { exists [], None. rewrite Hev. split; [reflexivity|].
    split; [constructor|]. split; [cbn; lia | discriminate]. }
  exists rounds, unanswered. split; [|split; [exact Hgood|split; [exact Hlen|]]].
  - assert (Hsess : List.filter is_round_event (session_events session_id) = []).
    { apply filter_nothing. eapply List.Forall_impl; [|apply session_events_are].
      intros []; try discriminate; reflexivity. }
    destruct Hcases as [[e ->] | [chunks [failure [-> Hev]]]].
    + rewrite !List.filter_app, Hsess, (filter_all _ _ (round_events_are rounds)),
        (filter_all _ _ (unanswered_events_are unanswered)).
      cbn. rewrite app_nil_r. reflexivity.
    + cbv zeta in Hev. rewrite Hev.
      rewrite !List.filter_app, Hsess, (filter_all _ _ (round_events_are rounds)).
      rewrite (filter_nothing is_round_event (fst _)).
      2:{ eapply List.Forall_impl; [|apply process_chunks_split].
          intros []; try discriminate; reflexivity. }
      rewrite (filter_nothing is_round_event (ending_events _ _ _ _)).
      2:{ eapply List.Forall_impl; [|apply ending_events_are].
          intros [] [H|H]; try discriminate H; reflexivity. }
      reflexivity.
  - intros response Hsome. destruct (Hbroken response Hsome) as [Hbad [Hin Hev]].
    split; [exact Hbad|]. split; [eauto|].
    exists (session_events session_id ++ flat_map round_events rounds).
    rewrite Hev, <- app_assoc. reflexivity.
Qed.

(** X10: when the model cannot be built the only event is the error, with the
    text of the exception. Otherwise the session is announced exactly
    when the session id is not empty, as the first event, and no other
    event of the run announces a session. *)
Theorem session_announced_first :
  match get_chat_model_with_tools model_name enable_tools with
  | Raise e => events_of (trace run) = [ErrorEvent (exn_str e)]
  | Ok _ =>
    exists rest,
      events_of (trace run) =
        match session_of session_id with
        | Some sid => [SessionInit sid]
        | None => []
        end ++ rest /\
      Forall (fun e => is_session_init e = false) rest
  end.
Proof.
  assert (Hrounds : forall evs, Forall (fun e => is_round_event e = true) evs ->
                      Forall (fun e => is_session_init e = false) evs).
  { intros evs. apply List.Forall_impl. intros []; try discriminate; reflexivity. }
  destruct (run_events messages model_name pdf_chunks enable_tools max_iterations
              session_id w)
    as [[e [Hm Hev]] | [model [rounds [unanswered [Hm [_ [_ [_ Hcases]]]]]]]]; rewrite Hm.
  { exact Hev. }
  destruct Hcases as [[e ->] | [chunks [failure [_ Hev]]]].
  - eexists. split; [reflexivity|].
    apply Forall_app. split; [apply Hrounds, round_events_are|].
    apply Forall_app. split; [apply Hrounds, unanswered_events_are | repeat constructor].
  - cbv zeta in Hev. rewrite Hev.
    eexists. split; [reflexivity|].
    apply Forall_app. split; [apply Hrounds, round_events_are|].
    apply Forall_app. split.
    + eapply List.Forall_impl; [|apply process_chunks_split].
      intros []; try discriminate; reflexivity.
    + eapply List.Forall_impl; [|apply ending_events_are].
      intros [] [H|H]; try discriminate H; reflexivity.
Qed.

(** X11: whatever the chunks of the model, the events of a run keep the order
    the client relies on: [thought_process_start], [thought_process_end]
    and [answer_start] occur at most once each; reasoning content comes
    only after the start of the reasoning, its end only while it is open,
    and an answer delta only after [answer_start]. *)
Theorem events_follow_protocol :
  follows_protocol false false false (events_of (trace run)) = true.
Proof.
  destruct (run_events messages model_name pdf_chunks enable_tools max_iterations
              session_id w)
    as [[e [_ Hev]] | [model [rounds [unanswered [_ [_ [_ [_ Hcases]]]]]]]].
  { rewrite Hev. reflexivity. }
  assert (Hsess : Forall (fun e => is_split_event e = false) (session_events session_id)).
  { eapply List.Forall_impl; [|apply session_events_are].
    intros []; try discriminate; reflexivity. }
  assert (Hrounds : Forall (fun e => is_split_event e = false)
                           (flat_map round_events rounds)).
  { eapply List.Forall_impl; [|apply round_events_are].
    intros []; try discriminate; reflexivity. }
  assert (Hunanswered : Forall (fun e => is_split_event e = false)
                               (unanswered_events unanswered)).
  { eapply List.Forall_impl; [|apply unanswered_events_are].
    intros []; try discriminate; reflexivity. }
  destruct Hcases as [[e ->] | [chunks [failure [_ Hev]]]].
  - rewrite (follows_protocol_skip _ _ _ _ _ Hsess),
      (follows_protocol_skip _ _ _ _ _ Hrounds),
      (follows_protocol_skip _ _ _ _ _ Hunanswered). reflexivity.
  - cbv zeta in Hev. rewrite Hev.
    rewrite (follows_protocol_skip _ _ _ _ _ Hsess),
      (follows_protocol_skip _ _ _ _ _ Hrounds).
    rewrite (process_chunks_protocol (is_reasoner model_name) chunks initial_stream_state).
    unfold ending_events. destruct failure; [reflexivity|].
    destruct (is_reasoner model_name); [|reflexivity].
    destruct (thought_process_started _), (thought_process_ended _); reflexivity.
Qed.

(** X5: every message list the model is called on, in the loop and for the
    final stream, is the list the generator was given (with the PDF
    context added) followed by whole rounds: the assistant message that
    asked for tools, then the tool messages answering its registered
    calls, with their ids and names. Nothing is removed or reordered. *)
Theorem model_calls_extend_messages :
  Forall (fun a =>
            forall ms, messages_of a = Some ms ->
              exists rounds : list Round,
                ms = add_pdf_context pdf_chunks messages ++
                     flat_map round_messages rounds /\
                Forall well_answered rounds /\
                (length rounds <= Z.to_nat max_iterations)%nat)
         (trace run).
Proof.
  destruct (run_calls messages model_name pdf_chunks enable_tools max_iterations
              session_id w) as [rounds [Hlen [Hgood Hall]]].
  eapply List.Forall_impl; [|exact Hall].
  intros a Ha ms Hms. destruct (Ha ms Hms) as [k ->].
  exists (take k rounds). split; [reflexivity|].
  split; [apply Forall_take, Hgood|]. rewrite length_take. lia.
Qed.

(** X6: in a [tool_results] event no tool output is longer than 203
    characters: 200 of the content and the three dots. *)
Theorem tool_results_truncated (results : list (option str * str)) :
  In (ToolResults results) (events_of (trace run)) ->
  Forall (fun r => (length (snd r) <= 203)%nat) results.
Proof.
  intros Hin.
  assert (Hround : forall rounds, In (ToolResults results) (flat_map round_events rounds) ->
                     Forall (fun r => (length (snd r) <= 203)%nat) results).
  { intros rounds H. apply in_flat_map in H as [round [_ [H|[H|[]]]]]; [discriminate H|].
    injection H as <-. apply List.Forall_forall. intros r Hr.
    apply in_map_iff in Hr as [tm [<- _]]. cbn [snd].
    destruct (Nat.ltb_spec 200 (length (tm_content tm))) as [Hlong|Hshort]; [|lia].
    rewrite length_app, length_take.
    replace (length (lit "...")) with 3%nat by reflexivity. lia. }
  assert (Hnot : forall evs, Forall (fun e => is_round_event e = false) evs ->
                   ~ In (ToolResults results) evs).
  { intros evs Hall H. rewrite List.Forall_forall in Hall. specialize (Hall _ H).
    discriminate Hall. }
  assert (Hsess : ~ In (ToolResults results) (session_events session_id)).
  { apply Hnot. eapply List.Forall_impl; [|apply session_events_are].
    intros []; try discriminate; reflexivity. }
  destruct (run_events messages model_name pdf_chunks enable_tools max_iterations
              session_id w)
    as [[e [_ Hev]] | [model [rounds [unanswered [_ [_ [_ [_ Hcases]]]]]]]].
  { rewrite Hev in Hin. destruct Hin as [H|[]]. discriminate H. }
  destruct Hcases as [[e Hev] | [chunks [failure [_ Hev]]]]; cbv zeta in Hev;
    rewrite Hev in Hin; apply in_app_or in Hin as [Hin|Hin]; try contradiction;
    apply in_app_or in Hin as [Hin|Hin]; try exact (Hround rounds Hin).
  - exfalso. apply in_app_or in Hin as [Hin|[H|[]]]; [|discriminate H].
    destruct unanswered; [destruct Hin as [H|[]]; discriminate H | destruct Hin].
  - exfalso. apply in_app_or in Hin as [Hin|Hin]; revert Hin; apply Hnot.
    + eapply List.Forall_impl; [|apply process_chunks_split].
      intros []; try discriminate; reflexivity.
    + eapply List.Forall_impl; [|apply ending_events_are].
      intros [] [H|H]; try discriminate H; reflexivity.
Qed.

(** X12: for a model without a reasoning channel (any name but
    deepseek-reasoner), the events of the streamed answer are one
    [answer_start] followed by a [content_delta] for every chunk whose
    content is not empty, in order; when no chunk has content there is no
    event at all. Reasoning payloads are ignored. *)
Theorem plain_model_streams_every_payload (m : ChatModel) (msgs : list Message)
    (chunks : list Chunk) (failure : option Exn) :
  is_reasoner model_name = false ->
  In (Streamed m msgs chunks failure) (trace run) ->
  List.filter is_split_event (events_of (trace run)) =
  plain_events (List.filter truthy (map content chunks)).
Proof.
  intros Hplain Hin.
  destruct (generate_streamed messages model_name pdf_chunks enable_tools
              max_iterations session_id w m msgs chunks failure Hin)
    as [_ [t_pre [ending [Htr [_ [_ [Hsetup Hending]]]]]]].
  rewrite Htr, events_of_app, events_of_streamed, events_of_app, events_of_yields.
  rewrite !List.filter_app, Hplain.
  rewrite (filter_nothing is_split_event (events_of t_pre)).
  2:{ eapply List.Forall_impl; [|exact Hsetup]. intros []; try discriminate; reflexivity. }
  rewrite (filter_all is_split_event (fst _)) by apply process_chunks_split.
  rewrite (filter_nothing is_split_event (events_of ending)).
  2:{ destruct failure as [e|].
      - subst ending. repeat constructor.
      - destruct Hending as [persisted [-> Hp]]. rewrite events_of_closing.
        + rewrite Hplain. repeat constructor.
        + destruct Hp as [->|[sid [r [_ ->]]]]; [left; reflexivity | right; eauto]. }
  rewrite app_nil_l, app_nil_r. apply process_chunks_plain.
Qed.

(** X13: when the stream of the final answer fails, the events of the chunks
    received before the failure are still delivered, then one [error]
    event carries the text of the exception; nothing is written to the
    conversation store. *)
Theorem stream_failure_reported (m : ChatModel) (msgs : list Message)
    (chunks : list Chunk) (e : Exn) :
  In (Streamed m msgs chunks (Some e)) (trace run) ->
  (exists setup,
     Forall (fun ev => is_setup_event ev = true) setup /\
     events_of (trace run) =
       setup ++ fst (process_chunks (is_reasoner model_name) chunks initial_stream_state)
       ++ [ErrorEvent (exn_str e)]) /\
  Forall (fun a => is_appended a = false) (trace run).
Proof.
  intros Hin.
  destruct (generate_streamed messages model_name pdf_chunks enable_tools
              max_iterations session_id w m msgs chunks (Some e) Hin)
    as [_ [t_pre [ending [Htr [_ [Hpre [Hsetup ->]]]]]]].
  rewrite Htr. split.
  - exists (events_of t_pre). split; [exact Hsetup|].
    rewrite events_of_app, events_of_streamed, events_of_app, events_of_yields.
    reflexivity.
  - apply Forall_app. split.
    + eapply List.Forall_impl; [|exact Hpre].
      intros [] [H|H]; try discriminate H; reflexivity.
    + constructor; [reflexivity|]. apply Forall_app. split; [|repeat constructor].
      apply List.Forall_forall. intros a Ha. apply in_map_iff in Ha as [ev [<- _]].
      reflexivity.
Qed.

(** X9: when an invocation of the model in the loop raises, the run ends
    there: the next and last action is the [error] event with the text of
    the exception; the answer is never streamed and nothing is written to
    the conversation store. *)
Theorem invocation_failure_reported (m : ChatModel) (ms : list Message) (e : Exn) :
  In (Invoked m ms (Raise e)) (trace run) ->
  (exists t, trace run = t ++ [Invoked m ms (Raise e); Yield (ErrorEvent (exn_str e))]) /\
  Forall (fun a => is_streamed a = false /\ is_appended a = false) (trace run).
Proof.
  intros Hin.
  destruct (generate_run messages model_name pdf_chunks enable_tools max_iterations
              session_id w)
    as [[e0 [_ Htr]] | [model [_ Hcases]]].
  { rewrite Htr in Hin. destruct Hin as [H|[]]. discriminate H. }
  cbv zeta in Hcases.
  destruct Hcases as [[e1 [Hv Htr]] | [looped [chunks [failure [w2 [ending [Hv [_ [Htr Hend]]]]]]]]].
  - rewrite Htr in Hin.
    apply in_loop_part in Hin; [|reflexivity|reflexivity|repeat constructor].
    destruct (tool_loop_last _ model max_iterations m ms (Raise e) I _ _ _ Hin)
      as [[t Ht] Hraise].
    rewrite Hraise in Hv. injection Hv as <-. rewrite Htr, Ht. split.
    + exists (session_actions session_id ++ t). rewrite <- !app_assoc. reflexivity.
    + apply Forall_app. split.
      { unfold session_actions. destruct (session_of session_id); repeat constructor. }
      rewrite <- Ht. apply Forall_app. split; [|repeat constructor].
      eapply List.Forall_impl; [|apply tool_loop_actions].
      intros [] H; try discriminate H; split; reflexivity.
  - exfalso. rewrite Htr in Hin.
    apply in_loop_part in Hin; [|reflexivity|reflexivity|].
    + destruct (tool_loop_last _ model max_iterations m ms (Raise e) I _ _ _ Hin)
        as [_ Hraise].
      rewrite Hraise in Hv. discriminate Hv.
    + eapply after_loop. exact Hend.
Qed.

(** X14: when a run ends with [message_complete], its [full_content] is the
    concatenation of the payloads of the [content_delta] events of the
    run, for every model, and its references are those extracted from that
    text. With a session, the store is written exactly once, with that
    same text and those references; without one it is never written. *)
Theorem completed_answer_is_what_was_streamed (full : str) (refs : list Reference) :
  In (Yield (MessageComplete full refs)) (trace run) ->
  full = concat (omap delta_of (events_of (trace run))) /\
  refs = references_for full pdf_chunks /\
  match session_of session_id with
  | Some sid => exists r, List.filter is_appended (trace run) = [Appended sid full refs r]
  | None => List.filter is_appended (trace run) = []
  end.
Proof.
  intros Hin.
  assert (Hquiet : forall t x, Forall (fun a => quiet a = true) t ->
            In (Yield (MessageComplete full refs)) (t ++ [x]) ->
            x = Yield (MessageComplete full refs)).
  { intros t x Hall H. apply in_app_or in H as [H|[H|[]]]; [|exact H].
    rewrite List.Forall_forall in Hall. specialize (Hall _ H). discriminate Hall. }
  assert (Hsess : Forall (fun a => quiet a = true) (session_actions session_id)).
  { eapply List.Forall_impl; [|apply session_actions_yields]. intros ? [_ [_ H]]. exact H. }
  destruct (generate_run messages model_name pdf_chunks enable_tools max_iterations
              session_id w)
    as [[e0 [_ Htr]] | [model [_ Hcases]]].
  { rewrite Htr in Hin. destruct Hin as [H|[]]. discriminate H. }
  cbv zeta in Hcases.
  destruct Hcases as [[e1 [_ Htr]] | [looped [chunks [failure [w2 [ending [_ [_ [Htr Hend]]]]]]]]].
  { exfalso. rewrite Htr, app_assoc in Hin. apply Hquiet in Hin; [discriminate Hin|].
    apply Forall_app. split; [exact Hsess | apply loop_quiet, tool_loop_actions]. }
  set (out := process_chunks (is_reasoner model_name) chunks initial_stream_state) in *.
  destruct (after_loop model (snd looped) chunks failure _ _ _ _ Hend)
    as [_ [before [last [Hlast [_ Hbefore]]]]]. fold out in Hbefore.
  assert (Hfull : last = MessageComplete full refs).
  { rewrite Htr, Hlast in Hin.
    rewrite app_assoc, app_comm_cons, !app_assoc in Hin.
    apply Hquiet in Hin; [injection Hin as ->; reflexivity|].
    rewrite <- !app_assoc. apply Forall_app. split; [exact Hsess|].
    apply Forall_app. split; [apply loop_quiet, tool_loop_actions | exact Hbefore]. }
  unfold ends_with in Hend. destruct failure as [e|].
  { exfalso. subst ending.
    change [Yield (ErrorEvent (exn_str e))]
      with ([] ++ [Yield (ErrorEvent (exn_str e))]) in Hlast.
    apply app_inj_tail in Hlast as [_ Hlast].
    rewrite Hfull in Hlast. discriminate Hlast. }
  destruct Hend as [persisted [Hending Hp]].
  assert (Hmc : full = full_response (snd out) /\
                refs = references_for (full_response (snd out)) pdf_chunks).
  { rewrite Hending in Hlast. unfold closing in Hlast. rewrite !app_assoc in Hlast.
    apply app_inj_tail in Hlast as [_ Hlast]. rewrite Hfull in Hlast.
    injection Hlast as -> ->. split; reflexivity. }
  destruct Hmc as [Hf Hr]. rewrite <- Hf in Hr.
  assert (Hloop_events : omap delta_of (events_of
            (trace (tool_loop (Z.to_nat max_iterations) model max_iterations 0
                      (add_pdf_context pdf_chunks messages) w))) = []).
  { destruct (tool_loop_rounds (Z.to_nat max_iterations) model max_iterations 0
                (add_pdf_context pdf_chunks messages) w)
      as [rounds [unanswered [_ [_ [Hev _]]]]].
    rewrite Hev, omap_app.
    replace (omap delta_of (unanswered_events unanswered)) with (@nil str)
      by (destruct unanswered; reflexivity).
    rewrite app_nil_r. clear. induction rounds as [|r rounds IH]; [reflexivity | exact IH]. }
  split; [|split; [exact Hr|]].
  - rewrite Htr, Hending, !events_of_app, events_of_streamed, events_of_app,
      events_of_yields, !omap_app, Hloop_events.
    rewrite events_of_closing.
    2:{ destruct (session_of session_id); [destruct Hp as [r ->]; right; eauto | left; exact Hp]. }
    destruct (process_chunks_answers (is_reasoner model_name) chunks initial_stream_state)
      as [Hdeltas Hresp]. fold out in Hdeltas, Hresp.
    rewrite Hdeltas, Hf, Hresp.
    replace (omap delta_of (events_of (session_actions session_id))) with (@nil str)
      by (unfold session_actions; destruct (session_of session_id); reflexivity).
    replace (omap delta_of (_ ++ [MessageComplete _ _])) with (@nil str)
      by (destruct (_ && _ && _); reflexivity).
    cbn [app full_response initial_stream_state]. rewrite app_nil_r. reflexivity.
  - assert (Hnone : forall t, Forall (fun a => is_loop_action a = true \/ is_yield a = true) t ->
                       List.filter is_appended t = []).
    { intros t Ht. apply filter_nothing. eapply List.Forall_impl; [|exact Ht].
      intros [] [H|H]; try discriminate H; reflexivity. }
    rewrite Htr, Hending. unfold closing.
    rewrite !List.filter_app. cbn [List.filter is_appended]. rewrite !List.filter_app.
    rewrite (Hnone (session_actions session_id)).
    2:{ eapply List.Forall_impl; [|apply session_actions_yields]. intros ? [H _]. right. exact H. }
    rewrite (Hnone (trace _)).
    2:{ eapply List.Forall_impl; [|apply tool_loop_actions]. intros ? H. left. exact H. }
    rewrite (Hnone (map Yield _)).
    2:{ apply List.Forall_forall. intros a Ha. apply in_map_iff in Ha as [ev [<- _]].
        right. reflexivity. }
    assert (Hclose :
      List.filter is_appended
        (if is_reasoner model_name && thought_process_started (snd out) &&
            negb (thought_process_ended (snd out))
         then [Yield ThoughtProcessEnd] else []) = [])
      by (destruct (_ && _ && _); reflexivity).
    rewrite Hclose. cbn [List.filter is_appended app]. rewrite app_nil_r.
    destruct (session_of session_id) as [sid|].
    + destruct Hp as [r ->]. exists r. rewrite Hf, Hr, Hf. reflexivity.
    + subst persisted. reflexivity.
Qed.

(** X7: with a ceiling of zero or less the loop does nothing: the model is
    not invoked, no tool runs and no tool event is yielded; the answer is
    streamed on the messages the generator was given, with the PDF context
    added. *)
Theorem no_round_without_budget :
  (max_iterations <= 0)%Z ->
  Forall (fun a => is_loop_action a = false) (trace run) /\
  Forall (fun a => forall ms, messages_of a = Some ms ->
                     ms = add_pdf_context pdf_chunks messages) (trace run).
Proof.
  intros Hzero. split.
  - destruct (generate_run messages model_name pdf_chunks enable_tools max_iterations
                session_id w)
      as [[e0 [_ Htr]] | [model [_ Hcases]]].
    { rewrite Htr. repeat constructor. }
    cbv zeta in Hcases. replace (Z.to_nat max_iterations) with 0%nat in Hcases by lia.
    rewrite tool_loop_zero in Hcases. cbn [trace value world] in Hcases.
    assert (Hsess : Forall (fun a => is_loop_action a = false) (session_actions session_id)).
    { eapply List.Forall_impl; [|apply session_actions_yields]. intros ? [_ [H _]]. exact H. }
    destruct Hcases as [[e1 [Hv _]] | [looped [chunks [failure [w2 [ending [_ [_ [Htr Hend]]]]]]]]];
      [discriminate Hv|].
    rewrite Htr. apply Forall_app. split; [exact Hsess|]. cbn [app].
    eapply after_loop. exact Hend.
  - destruct (run_calls messages model_name pdf_chunks enable_tools max_iterations
                session_id w) as [rounds [Hlen [_ Hall]]].
    eapply List.Forall_impl; [|exact Hall].
    intros a Ha ms Hms. destruct (Ha ms Hms) as [k ->].
    destruct rounds as [|r rounds]; [|cbn in Hlen; lia].
    rewrite take_nil. cbn. apply app_nil_r.
Qed.

(** X8: a response of the model without tool calls ends the loop and is
    discarded: the very next action is the final streaming call, made on
    the same model and on the same messages as that invocation. *)
Theorem tool_free_response_ends_loop (m : ChatModel) (ms : list Message)
    (response : Response) :
  In (Invoked m ms (Ok response)) (trace run) ->
  resp_tool_calls response = [] ->
  exists t_pre chunks failure t_post,
    trace run =
      t_pre ++ Invoked m ms (Ok response) :: Streamed m ms chunks failure :: t_post.
Proof.
  intros Hin Hfree.
  destruct (generate_run messages model_name pdf_chunks enable_tools max_iterations
              session_id w)
    as [[e0 [_ Htr]] | [model [_ Hcases]]].
  { rewrite Htr in Hin. destruct Hin as [H|[]]. discriminate H. }
  cbv zeta in Hcases.
  destruct Hcases as [[e1 [Hv Htr]] | [looped [chunks [failure [w2 [ending [Hv [_ [Htr Hend]]]]]]]]];
    rewrite Htr in Hin.
  - exfalso. apply in_loop_part in Hin; [|reflexivity|reflexivity|repeat constructor].
    destruct (tool_loop_last _ model max_iterations m ms (Ok response) Hfree _ _ _ Hin)
      as [_ [it Hok]].
    rewrite Hok in Hv. discriminate Hv.
  - apply in_loop_part in Hin; [|reflexivity|reflexivity|eapply after_loop; exact Hend].
    pose proof (tool_loop_invoked (Z.to_nat max_iterations) model max_iterations 0
                  (add_pdf_context pdf_chunks messages) w) as Hon.
    rewrite List.Forall_forall in Hon. specialize (Hon _ Hin). cbn in Hon. subst m.
    destruct (tool_loop_last _ model max_iterations model ms (Ok response) Hfree _ _ _ Hin)
      as [[t Ht] [it Hok]].
    rewrite Hok in Hv. injection Hv as <-. cbn [snd] in Htr.
    exists (session_actions session_id ++ t), chunks, failure, (map Yield (fst
      (process_chunks (is_reasoner model_name) chunks initial_stream_state)) ++ ending).
    rewrite Htr, Ht, <- !app_assoc. reflexivity.
Qed.

End Run.
End EngineFacts.

Module DispatcherFacts.
Import Py Main Reading MainFacts RoundFacts.

Section WithWorld.
Context {World : Type} {C : Collaborators World} {B : Builtins}.

(** X1: the dispatcher returns normally exactly when every call to a
    registered tool has an id. It then returns one tool message for each
    call whose name is registered, in the order of the calls, each
    carrying the id and the name of its call; a call with an unknown name
    gets no message. When a call to a registered tool has no id, the
    dispatcher raises the validation error of the tool message. All it
    does on the way is to run tools. *)
Theorem dispatcher_answers_registered_calls (tool_calls : list ToolCall)
    (messages : list Message) (w : World) :
  let o := execute_tool_calls tool_calls messages w in
  Forall (fun a => is_tool_run a = true) (trace o) /\
  (existsb unanswerable tool_calls = false ->
   exists tms,
     value o = Ok tms /\
     map answer_key tms = map call_key (List.filter registered tool_calls) /\
     (length tms <= length tool_calls)%nat) /\
  (existsb unanswerable tool_calls = true -> value o = Raise tool_message_error).
Proof.
  cbv zeta. split; [apply execute_tool_calls_runs|].
  pose proof (execute_tool_calls_answers tool_calls messages w) as Hanswers.
  destruct (existsb unanswerable tool_calls).
  - split; [discriminate | intros _; exact Hanswers].
  - split; [|discriminate]. intros _.
    destruct Hanswers as [tms [Hv Hkeys]].
    exists tms. split; [exact Hv|]. split; [exact Hkeys|].
    rewrite <- (length_map answer_key), Hkeys, length_map. apply List.filter_length_le.
Qed.

(** X2: a tool that raises does not stop the dispatcher when its call has an
    id: the call is answered by a tool message whose content is the
    failure text followed by the text of the exception, and the result is
    not reviewed. Without an id the handler cannot build that message
    either, and the dispatcher raises the validation error. *)
Theorem tool_failure_becomes_message (tool_call : ToolCall)
    (messages : list Message) (w w' : World) (tool : str) (e : Exn) :
  find_tool (tc_name tool_call) = Some tool ->
  tool_ainvoke tool (default [] (tc_args tool_call)) w = (Raise e, w') ->
  execute_tool_call tool_call messages w =
  {| trace := [ToolRun tool (default [] (tc_args tool_call)) (Raise e)];
     world := w';
     value :=
       match tc_id tool_call with
       | Some tool_id =>
         Ok [{| tm_content := lit "工具执行失败: " ++ exn_str e;
                tm_tool_call_id := Some tool_id;
                tm_name := tc_name tool_call |}]
       | None => Raise tool_message_error
       end |}.
Proof.
  intros Hfind Hrun. unfold execute_tool_call. rewrite Hfind.
  unfold catch, bind, run_tool, call, tool_message. rewrite Hrun.
  destruct (tc_id tool_call); reflexivity.
Qed.

(** X3: the automatic review never loses a result. It runs the review tool at
    most once, and only for a tool whose name is search-like, on the raw
    result, the latest user question and the date of the day; the content
    returned is the raw result unless the review answered, its answer
    could be parsed and the filter rewrote the text. *)
Theorem review_keeps_result_on_failure (tool_name : option str)
    (messages : list Message) (result : str) (w : World) :
  let o := review_result tool_name messages result w in
  let args := review_args result (user_question_of messages) (today w) in
  (is_search_like tool_name = false /\ trace o = [] /\ value o = Ok result) \/
  (is_search_like tool_name = true /\
   exists r,
     trace o = [ToolRun (lit "review_search_results") args r] /\
     value o =
       Ok match r with
          | Ok review_text =>
            match json_loads_review review_text with
            | Some review_json => default result (filter_by_review review_json)
            | None => result
            end
          | Raise _ => result
          end).
Proof.
  cbv zeta. unfold review_result.
  destruct (is_search_like tool_name); [right | left; repeat split].
  split; [reflexivity|].
  change (List.find _ all_tools) with (Some (lit "review_search_results")).
  unfold catch, bind, run_tool, call, ret.
  destruct (tool_ainvoke _ _ w) as [[review_text|e] w1]; cbn [value trace world].
  - exists (Ok review_text). split; reflexivity.
  - exists (Raise e). split; reflexivity.
Qed.

End WithWorld.
End DispatcherFacts.

Module LegacyFacts.
Import Py Main Legacy MainFacts.

Section WithWorld.
Context {World : Type} {C : Collaborators World} {B : Builtins}.

Lemma bind_ret_l {A R} (a : A) (k : A -> Gen R) (w : World) :
  bind (ret a) k w = k a w.
Proof. unfold bind, ret. cbn. apply outcome_eta. Qed.

Lemma bind_ext {A R} (m : Gen A) (k k' : A -> Gen R) (w : World) :
  (forall a w', k a w' = k' a w') -> bind m k w = bind m k' w.
Proof. intros H. unfold bind. destruct (value (m w)); [rewrite H|]; reflexivity. Qed.

Lemma catch_ext {A} (m m' : Gen A) (h : Exn -> Gen A) (w : World) :
  m w = m' w -> catch m h w = catch m' h w.
Proof. intros H. unfold catch. rewrite H. reflexivity. Qed.

Lemma get_chat_model_with_tools_disabled (model_name : option str) :
  get_chat_model_with_tools model_name false = get_chat_model model_name.
Proof.
  unfold get_chat_model_with_tools. destruct (get_chat_model model_name); reflexivity.
Qed.

(** X15: the generator without tools is the generator with tools run with the
    tools disabled, no iteration allowed and no session: the same actions,
    the same final state of the world and the same outcome. *)
Theorem legacy_generator_is_loop_free_run (messages : list Message)
    (model_name : option str) (pdf_chunks : option (list PdfChunk))
    (max_iterations : Z) (w : World) :
  (max_iterations <= 0)%Z ->
  generate_streaming_response_with_tools messages model_name pdf_chunks false
    max_iterations None w =
  generate_streaming_response messages model_name pdf_chunks w.
Proof.
  intros Hzero.
  unfold generate_streaming_response_with_tools, generate_streaming_response.
  apply catch_ext. unfold generate_body, response_body.
  rewrite get_chat_model_with_tools_disabled.
  apply bind_ext. intros model w1. cbn [session_of].
  rewrite bind_ret_l.
  replace (Z.to_nat max_iterations) with 0%nat by lia. cbn [tool_loop].
  rewrite bind_ret_l. cbn [snd].
  apply bind_ext. intros st w2.
  apply bind_ext. intros [] w3.
  rewrite bind_ret_l. reflexivity.
Qed.

End WithWorld.
End LegacyFacts.

Module HistoryFacts.
Import Py Main History MainFacts.

Section WithBuiltins.
Context {B : Builtins}.

Lemma history_message_turn (msg : HistoryMessage) :
  Forall (fun m => is_turn_message m = true) (history_message msg) /\
  length (history_message msg) = Nat.b2n (is_turn msg).
Proof.
  unfold history_message, is_turn.
  destruct (str_eqb (h_role msg) (lit "user")).
  - destruct (truthy _); split; repeat constructor.
  - destruct (str_eqb (h_role msg) (lit "assistant")); split; repeat constructor.
Qed.

(** X16: the converted history is the system prompt of the model followed by
    one message for each element whose role is user or assistant, in the
    order of the elements; the other elements are dropped. An assistant
    element gives an assistant message with its content and no tool call;
    a user element gives a human message, with its content as text when
    it has no content blocks, and else with the items of its blocks,
    after its content when that is not blank. Since the list starts with
    the system message, the PDF context of the generator is always added
    to the prompt of a conversation built this way, whatever messages
    follow. *)
Theorem history_starts_with_system_prompt (history : list HistoryMessage)
    (model_name : option str) (more : list Message)
    (chunk : PdfChunk) (chunks : list PdfChunk) :
  exists turns,
    convert_history_to_messages history model_name =
      SystemMessage (system_prompt model_name) :: turns /\
    Forall2
      (fun msg m =>
         let content := default [] (h_content msg) in
         let content_blocks := default [] (h_content_blocks msg) in
         (h_role msg = lit "user" /\
          m = HumanMessage
                match content_blocks with
                | [] => Text content
                | _ :: _ =>
                  Blocks ((if truthy (strip content) then [ItemText (Some content)]
                           else []) ++ flat_map block_items content_blocks)
                end) \/
         (h_role msg = lit "assistant" /\
          m = AIMessage {| resp_content := content; resp_tool_calls := [] |}))
      (List.filter is_turn history) turns /\
    Forall (fun m => is_turn_message m = true) turns /\
    length turns = length (List.filter is_turn history) /\
    add_pdf_context (Some (chunk :: chunks))
      (convert_history_to_messages history model_name ++ more) =
    SystemMessage
      (system_prompt model_name ++
       pdf_context_from 1 (chunk :: chunks) (nl ++ nl ++ lit "=== 参考文档内容 ===" ++ nl))
    :: turns ++ more.
Proof.
  exists (flat_map history_message history). split; [reflexivity|].
  split; [|split; [|split]].
  - induction history as [|msg history IH]; [constructor|].
    cbn [flat_map List.filter]. unfold is_turn, history_message at 1.
    destruct (str_eqb (h_role msg) (lit "user")) eqn:Huser.
    + apply str_eqb_eq in Huser. cbn [orb]. cbv zeta.
      destruct (default [] (h_content_blocks msg)) as [|block blocks] eqn:Hblocks;
        cbn [truthy app]; (constructor; [|exact IH]); left;
        (split; [exact Huser|]); cbv zeta; rewrite Hblocks; reflexivity.
    + cbn [orb].
      destruct (str_eqb (h_role msg) (lit "assistant")) eqn:Hassistant; [|exact IH].
      apply str_eqb_eq in Hassistant. cbn [app].
      constructor; [|exact IH]. right. split; [exact Hassistant | reflexivity].
  - induction history as [|msg history IH]; [constructor|].
    cbn [flat_map]. apply Forall_app. split; [apply history_message_turn | exact IH].
  - induction history as [|msg history IH]; [reflexivity|].
    cbn [flat_map List.filter]. rewrite length_app, IH.
    destruct (history_message_turn msg) as [_ ->].
    destruct (is_turn msg); reflexivity.
  - reflexivity.
Qed.

End WithBuiltins.
End HistoryFacts.

Module ReferenceFacts.
Import Py References.

Section WithBuiltins.
Context {B : Builtins}.

Lemma unique_from_length (matches : list str) :
  forall unique_matches,
    (length (unique_from unique_matches matches)
     <= length unique_matches + length matches)%nat.
Proof.
  induction matches as [|m rest IH]; intros unique_matches; cbn [unique_from length].
  - lia.
  - destruct (existsb _ unique_matches).
    + specialize (IH unique_matches). lia.
    + specialize (IH (unique_matches ++ [m])). rewrite length_app in IH. cbn in IH. lia.
Qed.

Lemma reference_text_length (chunk : DocChunk) :
  (length (reference_text chunk) <= 303)%nat.
Proof.
  unfold reference_text.
  destruct (Nat.ltb_spec 300 (length (default [] (doc_content chunk)))) as [Hlong|Hshort];
    [|lia].
  rewrite length_app, length_take.
  replace (length (lit "...")) with 3%nat by reflexivity. lia.
Qed.

Lemma references_from_spec (unique_matches : list str) (pdf_chunks : list DocChunk) :
  forall refs,
    references_from unique_matches pdf_chunks = Some refs ->
    Forall (fun r =>
              exists chunk,
                (1 <= r_id r <= Z.of_nat (length pdf_chunks))%Z /\
                pdf_chunks !! Z.to_nat (r_id r - 1) = Some chunk /\
                r = reference_of (r_id r) chunk) refs /\
    (length refs <= length unique_matches)%nat.
Proof.
  induction unique_matches as [|m rest IH]; intros refs Hrefs; cbn [references_from] in Hrefs.
  - injection Hrefs as <-. split; [constructor | reflexivity].
  - destruct (py_int m) as [ref_num|]; [|discriminate].
    destruct (references_from rest pdf_chunks) as [more|]; [|discriminate].
    cbn [fmap option_fmap option_map] in Hrefs. injection Hrefs as <-.
    destruct (IH more eq_refl) as [Hall Hlen].
    destruct ((1 <=? ref_num)%Z && (ref_num <=? Z.of_nat (length pdf_chunks))%Z) eqn:Hrange.
    2:{ split; [exact Hall | cbn; lia]. }
    apply andb_true_iff in Hrange as [Hlo Hhi].
    apply Z.leb_le in Hlo. apply Z.leb_le in Hhi.
    destruct (pdf_chunks !! Z.to_nat (ref_num - 1)) as [chunk|] eqn:Hchunk.
    2:{ split; [exact Hall | cbn; lia]. }
    split; [|cbn; lia].
    constructor; [|exact Hall].
    exists chunk. cbn [r_id reference_of]. split; [lia|]. split; [exact Hchunk | reflexivity].
Qed.

(** X17: every reference extracted from an answer points into the chunks: its
    id [n] satisfies [1 <= n <= len(pdf_chunks)], it is built from the
    chunk of position [n - 1], and its text has at most 303 characters.
    There are no more references than markers in the answer, and none
    without chunks. *)
Theorem references_point_into_chunks (content : str)
    (pdf_chunks : option (list DocChunk)) (refs : list DocReference) :
  extract_references_from_content content pdf_chunks = Some refs ->
  Forall (fun r =>
            exists chunk,
              (1 <= r_id r <= Z.of_nat (length (default [] pdf_chunks)))%Z /\
              default [] pdf_chunks !! Z.to_nat (r_id r - 1) = Some chunk /\
              r = reference_of (r_id r) chunk /\
              (length (r_text r) <= 303)%nat) refs /\
  (length refs <= length (findall_markers 0 false content))%nat /\
  (default [] pdf_chunks = [] -> refs = []).
Proof.
  unfold extract_references_from_content. cbv zeta. intros Hrefs.
  destruct (truthy (unique_from [] (findall_markers 0 false content)) &&
            truthy (default [] pdf_chunks)) eqn:Hboth.
  2:{ injection Hrefs as <-. split; [constructor|]. split; [cbn; lia | reflexivity]. }
  apply andb_true_iff in Hboth as [_ Hchunks].
  destruct (references_from_spec _ _ _ Hrefs) as [Hall Hlen].
  split; [|split].
  - eapply List.Forall_impl; [|exact Hall].
    intros r [chunk [Hrange [Hchunk Hr]]]. exists chunk. repeat split; try tauto.
    rewrite Hr. apply reference_text_length.
  - pose proof (unique_from_length (findall_markers 0 false content) []) as Hu.
    cbn in Hu. lia.
  - intros Hnil. rewrite Hnil in Hchunks. discriminate Hchunks.
Qed.

Lemma digits_then_close_digits (digits rest : str) :
  Forall (fun c => is_digit c = true) digits ->
  is_digit bracket_close = false ->
  digits_then_close (digits ++ bracket_close :: rest) = Some digits.
Proof.
  intros Hdigits Hclose. induction Hdigits as [|c digits Hc _ IH]; cbn [app digits_then_close].
  - rewrite Hclose. reflexivity.
  - rewrite Hc, IH. reflexivity.
Qed.

Lemma findall_markers_skip (n : nat) (trailing : bool) (pre s : str) :
  length pre = n ->
  findall_markers n trailing (pre ++ s) = findall_markers 0 trailing s.
Proof.
  revert n. induction pre as [|c pre IH]; intros n <-; [reflexivity|].
  cbn [app length findall_markers]. apply IH. reflexivity.
Qed.

Lemma findall_markers_trailing (gap s : str) :
  Forall (fun c => is_marker_char c = true) gap ->
  findall_markers 0 true (gap ++ s) = findall_markers 0 true s.
Proof.
  induction 1 as [|c gap Hc _ IH]; [reflexivity|].
  cbn [app findall_markers andb]. rewrite Hc. exact IH.
Qed.

Lemma findall_markers_plain (s : str) :
  Forall (fun c => c <> bracket_open) s ->
  forall trailing, findall_markers 0 trailing s = [].
Proof.
  induction 1 as [|c s Hc _ IH]; intros trailing; [reflexivity|].
  cbn [findall_markers marker_at].
  destruct (trailing && is_marker_char c); [apply IH|].
  destruct (char_eqb c bracket_open) eqn:Heq; [|apply IH].
  apply N.eqb_eq in Heq. contradiction.
Qed.

(** X18: a marker that follows another one with nothing but white space and
    punctuation of the class in between is not extracted: the run after
    the first marker takes its opening bracket. So of [[1], [2]] only the
    first reference is found. *)
Theorem adjacent_marker_is_swallowed (first second gap : str) :
  first <> [] ->
  Forall (fun c => is_digit c = true) first ->
  Forall (fun c => is_digit c = true /\ is_marker_char c = false) second ->
  Forall (fun c => is_marker_char c = true) gap ->
  is_digit bracket_close = false ->
  findall_markers 0 false
    (bracket_open :: first ++ bracket_close :: gap ++
     bracket_open :: second ++ [bracket_close])
  = [first].
Proof.
  intros Hne Hfirst Hsecond Hgap Hclose.
  assert (Hopen : is_marker_char bracket_open = true).
  { unfold is_marker_char. replace (char_in bracket_open marker_punctuation) with true
      by reflexivity. apply orb_true_r. }
  assert (Hmarker : is_marker_char bracket_close = true).
  { unfold is_marker_char. replace (char_in bracket_close marker_punctuation) with true
      by reflexivity. apply orb_true_r. }
  cbn [findall_markers andb marker_at].
  replace (char_eqb bracket_open bracket_open) with true by reflexivity.
  rewrite (digits_then_close_digits first _ Hfirst Hclose).
  destruct first as [|d ds]; [contradiction|].
  f_equal.
  change (bracket_close :: gap ++ bracket_open :: second ++ [bracket_close])
    with ([bracket_close] ++ gap ++ bracket_open :: second ++ [bracket_close]).
  rewrite app_assoc.
  rewrite (findall_markers_skip (S (length (d :: ds))) true ((d :: ds) ++ [bracket_close]))
    by (rewrite length_app; cbn; lia).
  rewrite (findall_markers_trailing gap _ Hgap).
  cbn [findall_markers andb]. rewrite Hopen.
  destruct second as [|c second'].
  - cbn [app findall_markers andb]. rewrite Hmarker. reflexivity.
  - apply Forall_cons in Hsecond as [[_ Hc] Hrest].
    cbn [app findall_markers andb]. rewrite Hc.
    assert (Hc' : char_eqb c bracket_open = false).
    { apply N.eqb_neq. intros ->. congruence. }
    cbn [marker_at]. rewrite Hc'.
    apply findall_markers_plain. apply Forall_app. split.
    + eapply List.Forall_impl; [|exact Hrest]. intros x [_ Hx] ->. congruence.
    + constructor; [discriminate | constructor].
Qed.

End WithBuiltins.
End ReferenceFacts.

Module RecencyFacts.
Import Py Review ReviewFacts.

Section WithBuiltins.
Context {B : Builtins}.

(** X19: the exact-date rule: a non-empty reference date that occurs in the
    text of an entry, as supplied or with every [-] replaced by [年], gives
    the score 1.0, whatever else the text contains. *)
Theorem recency_date_in_text (current_date title snippet pre post : str) :
  current_date <> [] ->
  title ++ lit " " ++ snippet = pre ++ current_date ++ post \/
  title ++ lit " " ++ snippet = pre ++ replace_char dash [nian] current_date ++ post ->
  _compute_recency_score current_date title snippet = 1.0%Q.
Proof.
  intros Hne Hocc. unfold _compute_recency_score.
  assert (Hin : str_in current_date (title ++ lit " " ++ snippet)
                || str_in (replace_char dash [nian] current_date)
                     (title ++ lit " " ++ snippet) = true).
  { apply orb_true_iff. destruct Hocc as [H|H]; [left | right]; apply str_in_spec; eauto. }
  rewrite Hin. destruct current_date; [contradiction | reflexivity].
Qed.

(** X20: the relative-recency rule: when the exact-date rule does not apply, a
    text that contains one of the nine markers scores 0.8, whatever years
    it mentions. *)
Theorem recency_marker_in_text (current_date title snippet marker pre post : str) :
  let text := title ++ lit " " ++ snippet in
  current_date = [] \/
    (str_in current_date text = false /\
     str_in (replace_char dash [nian] current_date) text = false) ->
  In marker recency_markers ->
  text = pre ++ marker ++ post ->
  _compute_recency_score current_date title snippet = 0.8%Q.
Proof.
  intros text Hdate Hmarker Hocc. unfold _compute_recency_score. fold text.
  assert (Hrule :
    truthy current_date &&
    (str_in current_date text || str_in (replace_char dash [nian] current_date) text)
    = false).
  { destruct Hdate as [-> | [H1 H2]]; [reflexivity|].
    rewrite H1, H2. apply andb_false_r. }
  rewrite Hrule.
  assert (Hfound : search_recency_marker text = true).
  { unfold search_recency_marker. apply existsb_exists. exists marker.
    split; [exact Hmarker | apply str_in_spec; eauto]. }
  rewrite Hfound. reflexivity.
Qed.

(** X21: the score is always one of 1.0, 0.8, 0.6, 0.3 and 0.2, so it lies
    between 0.2 and 1. Without a reference date (the default of the tool)
    only 0.8, 0.3 and 0.2 are possible: a marker gives 0.8, a year alone
    0.2, and neither 0.3. *)
Theorem recency_score_values (current_date title snippet : str) :
  let score := _compute_recency_score current_date title snippet in
  let text := title ++ lit " " ++ snippet in
  In score [1.0%Q; 0.8%Q; 0.6%Q; 0.3%Q; 0.2%Q] /\
  (0.2 <= score <= 1)%Q /\
  _compute_recency_score [] title snippet =
    if search_recency_marker text then 0.8%Q
    else match findall_year text with [] => 0.3%Q | _ :: _ => 0.2%Q end.
Proof.
  cbv zeta.
  assert (Hin : In (_compute_recency_score current_date title snippet)
                   [1.0%Q; 0.8%Q; 0.6%Q; 0.3%Q; 0.2%Q]).
  { unfold _compute_recency_score.
    destruct (truthy current_date && _); [left; reflexivity|].
    destruct (search_recency_marker _); [right; left; reflexivity|].
    destruct (findall_year _) as [|y0 ys]; [do 3 right; left; reflexivity|].
    destruct (now_year_of current_date) as [n|]; [|do 4 right; left; reflexivity].
    destruct (negb (n =? 0)%Z); [|do 4 right; left; reflexivity].
    destruct (py_int y0) as [y|]; [|do 4 right; left; reflexivity].
    destruct (y =? n)%Z; [do 2 right; left; reflexivity | do 4 right; left; reflexivity]. }
  split; [exact Hin|]. split.
  - destruct Hin as [<-|[<-|[<-|[<-|[<-|[]]]]]]; split; discriminate.
  - unfold _compute_recency_score. cbn [truthy andb now_year_of].
    destruct (search_recency_marker _); [reflexivity|].
    destruct (findall_year _); reflexivity.
Qed.

End WithBuiltins.
End RecencyFacts.

Module RankingFacts.
Import Py Review Main ReviewFacts MainFacts.

Section Sorting.
Context {A : Type} (key : A -> Q).

Lemma insert_desc_filter (p : A -> bool) (x : A) (l : list A) :
  (forall y, Qle_bool (key y) (key x) = false -> p x = true -> p y = false) ->
  List.filter p (insert_desc key x l) = List.filter p (x :: l).
Proof.
  intros Hp. induction l as [|y l IH]; [reflexivity|].
  cbn [insert_desc]. destruct (Qle_bool (key y) (key x)) eqn:Hle; [reflexivity|].
  cbn [List.filter] in *. rewrite IH.
  destruct (p x) eqn:Hx; [|reflexivity].
  rewrite (Hp y Hle eq_refl). reflexivity.
Qed.

(** X24: the ranking used for the recommendation fallback and for the padding
    of the rewritten block, [sorted(..., key=score, reverse=True)]: it
    keeps every entry once, puts higher scores first, and leaves entries
    of equal score in their original order. *)
Theorem ranking_is_stable_descending (l : list A) :
  Permutation (sorted_desc key l) l /\
  StronglySorted (fun a b => (key b <= key a)%Q) (sorted_desc key l) /\
  forall k : Q,
    List.filter (fun x => Qeq_bool (key x) k) (sorted_desc key l) =
    List.filter (fun x => Qeq_bool (key x) k) l.
Proof.
  split; [apply sorted_desc_perm|]. split; [apply sorted_desc_sorted|].
  intros k. induction l as [|x l IH]; [reflexivity|].
  cbn [sorted_desc foldr]. fold (sorted_desc key l).
  rewrite insert_desc_filter.
  - cbn [List.filter]. rewrite IH. reflexivity.
  - intros y Hle Hx. apply Qeq_bool_iff in Hx.
    destruct (Qeq_bool (key y) k) eqn:Hy; [|reflexivity].
    apply Qeq_bool_iff in Hy. exfalso.
    assert (Hc : Qle_bool (key y) (key x) = true).
    { apply Qle_bool_iff. rewrite Hx, Hy. apply Qle_refl. }
    congruence.
Qed.

End Sorting.

(** What the selection of the recommendations keeps, whichever of its two
    branches is taken. *)
Lemma recommended_covered (results : list ScoredEntry) :
  (forall i, In i (recommended results) -> exists r, In r results /\ index r = i) /\
  (length (recommended results) <= length results)%nat /\
  (results <> [] -> recommended results <> []).
Proof.
  unfold recommended.
  destruct (List.filter _ results) as [|q qs] eqn:Hf.
  - destruct results as [|r0 results']; [split; [intros i []|split; [reflexivity|congruence]]|].
    cbn [map truthy negb andb]. rewrite top_two_indices.
    set (results := r0 :: results') in *.
    pose proof (sorted_desc_perm final_score results) as Hperm.
    split; [|split].
    + intros i Hi. apply in_map_iff in Hi as [r [<- Hr]]. exists r. split; [|reflexivity].
      apply (Permutation_in _ Hperm).
      rewrite <- (take_drop 2 (sorted_desc final_score results)).
      apply in_or_app. left. exact Hr.
    + rewrite length_map, length_take, (Permutation_length Hperm). lia.
    + intros _ Hnil. apply (f_equal (@length Z)) in Hnil.
      rewrite length_map, length_take, (Permutation_length Hperm) in Hnil.
      cbn in Hnil. lia.
  - replace (negb (truthy (map index (q :: qs))) && truthy results) with false
      by reflexivity.
    rewrite <- Hf. split; [|split].
    + intros i Hi.
      apply in_map_iff in Hi as [r [<- Hr]]. exists r. split; [|reflexivity].
      apply List.filter_In in Hr. apply Hr.
    + rewrite length_map. apply List.filter_length_le.
    + intros _. rewrite Hf. discriminate.
Qed.

(** X25: the recommendations always name entries of the list, there are never
    more of them than entries, and there is at least one as soon as the
    list is not empty. *)
Theorem recommended_names_entries (results : list ScoredEntry) :
  (forall i, In i (recommended results) -> exists r, In r results /\ index r = i) /\
  (length (recommended results) <= length results)%nat /\
  (results <> [] -> recommended results <> []).
Proof. exact (recommended_covered results). Qed.

End RankingFacts.

Module RewriteFacts.
Import Py Review Main ReviewFacts MainFacts.

(** The indices of the recommended part, and where its entries come
    from. *)
Lemma recommended_part_indices (recommendations : list Z) (entries : list JEntry) :
  map j_index (omap (fun idx => entry_map_of entries !! idx) recommendations) =
    List.filter (fun idx => existsb (fun e => (j_index e =? idx)%Z) entries)
                recommendations /\
  Forall (fun e =>
            List.find (fun e' => (j_index e' =? j_index e)%Z) (rev entries) = Some e)
         (omap (fun idx => entry_map_of entries !! idx) recommendations).
Proof.
  induction recommendations as [|idx rest [IH IHall]];
    [split; [reflexivity | constructor]|].
  cbn [List.filter].
  change (omap ?f (idx :: rest))
    with (match f idx with Some y => y :: omap f rest | None => omap f rest end).
  cbv beta. rewrite entry_map_of_lookup.
  destruct (List.find _ (rev entries)) as [e|] eqn:Hfind.
  - pose proof Hfind as Hsome.
    apply find_some in Hfind as [Hin Hidx]. apply Z.eqb_eq in Hidx.
    replace (existsb _ entries) with true.
    + split; [cbn [map]; rewrite IH, Hidx; reflexivity|].
      constructor; [rewrite Hidx; exact Hsome | exact IHall].
    + symmetry. apply existsb_exists. exists e. split; [apply in_rev, Hin|].
      apply Z.eqb_eq, Hidx.
  - replace (existsb _ entries) with false; [split; assumption|].
    symmetry. apply not_true_is_false. intros Hex.
    apply existsb_exists in Hex as [e [Hin Hidx]].
    apply in_rev in Hin. pose proof (List.find_none _ _ Hfind e Hin) as Hno.
    cbv beta in Hno. congruence.
Qed.

Lemma filter_sublist {A} (p : A -> bool) (l : list A) : sublist (List.filter p l) l.
Proof.
  induction l as [|x l IH]; [constructor|].
  cbn. destruct (p x); [apply sublist_skip | apply sublist_cons]; exact IH.
Qed.

(** The selected entries: the recommended part, then a padding without
    repeated index that leaves an index out only when ten entries are
    reached. *)
Lemma select_final_entries_padded (recommendations : list Z) (entries : list JEntry) :
  let part := omap (fun idx => entry_map_of entries !! idx) (take 10 recommendations) in
  let final_entries := select_final_entries recommendations entries in
  exists padding,
    final_entries = part ++ padding /\
    NoDup (map j_index padding) /\
    (forall e, In e padding -> ~ In (j_index e) (map j_index part)) /\
    (forall e, In e padding -> In e entries) /\
    ((forall e, In e entries -> In (j_index e) (map j_index final_entries)) \/
     length final_entries = 10%nat).
Proof.
  cbv zeta. unfold select_final_entries.
  set (part := omap (fun idx => entry_map_of entries !! idx) (take 10 recommendations)).
  pose proof (recommended_part_length recommendations (entry_map_of entries)) as Hpart.
  fold part in Hpart.
  destruct (Nat.ltb_spec (length part) 10) as [Hlt|Hge].
  2:{ exists []. rewrite app_nil_r. split; [reflexivity|]. split; [constructor|].
      split; [intros e []|]. split; [intros e []|]. right. lia. }
  set (ranked := sorted_desc (fun x => default 0%Q (j_final_score x)) entries).
  destruct (pad_entries_complete ranked part (list_to_set (map j_index part)))
    as [padding [Heq [Hnodup [Hnew Hall]]]].
  destruct (pad_entries_spec ranked part (list_to_set (map j_index part)))
    as [padding' [Heq' [Hsub [Hlen _]]]].
  rewrite Heq in Heq'. apply app_inv_head in Heq'. subst padding'.
  exists padding. split; [exact Heq|]. split; [exact Hnodup|]. split; [|split].
  - intros e He Hin. rewrite List.Forall_forall in Hnew. apply (Hnew e He).
    apply elem_of_list_to_set, list_elem_of_In. exact Hin.
  - intros e He.
    apply (Permutation_in _
             (sorted_desc_perm (fun x => default 0%Q (j_final_score x)) entries)).
    fold ranked. apply list_elem_of_In.
    apply (elem_of_sublist padding); [apply list_elem_of_In, He | exact Hsub].
  - rewrite Heq. destruct Hall as [Hall|Hten]; [left | right; specialize (Hlen Hpart); lia].
    intros e He. rewrite map_app. apply in_or_app.
    assert (Hranked : In e ranked).
    { apply (Permutation_in _ (Permutation_sym (sorted_desc_perm _ entries))). exact He. }
    destruct (Hall e Hranked) as [H|H]; [left | right; exact H].
    apply list_elem_of_In. apply elem_of_list_to_set in H. exact H.
Qed.

(** X26: the rewritten block keeps every parsed entry unless it is full: after
    the recommended entries, the padding adds entries of pairwise distinct
    indices, none of them an index already selected, until every index of
    the review is present or ten entries are selected. When the first ten
    recommendations are pairwise distinct and the review has at most ten
    distinct indices, every index of the review is present, so that
    nothing is filtered out. *)
Theorem rewrite_keeps_every_entry (recommendations : list Z) (entries : list JEntry) :
  let part := omap (fun idx => entry_map_of entries !! idx) (take 10 recommendations) in
  let final_entries := select_final_entries recommendations entries in
  (exists padding,
     final_entries = part ++ padding /\
     NoDup (map j_index padding) /\
     (forall e, In e padding -> ~ In (j_index e) (map j_index part)) /\
     ((forall e, In e entries -> In (j_index e) (map j_index final_entries)) \/
      length final_entries = 10%nat)) /\
  (NoDup (take 10 recommendations) ->
   (size (list_to_set (map j_index entries) : gset Z) <= 10)%nat ->
   forall e, In e entries -> In (j_index e) (map j_index final_entries)).
Proof.
  cbv zeta.
  destruct (select_final_entries_padded recommendations entries)
    as [padding [Heq [Hnodup [Hnew [Hfrom Hall]]]]]. cbv zeta in *.
  split; [exists padding; repeat split; assumption|].
  intros Hdistinct Hsize.
  destruct Hall as [Hall|Hten]; [exact Hall|].
  destruct (recommended_part_indices (take 10 recommendations) entries)
    as [Hindices Hfound].
  set (part := omap (fun idx => entry_map_of entries !! idx) (take 10 recommendations))
    in *.
  set (final_entries := select_final_entries recommendations entries) in *.
  assert (Hfinal : NoDup (map j_index final_entries)).
  { rewrite Heq, map_app. apply NoDup_app. split; [|split; [|exact Hnodup]].
    - rewrite Hindices. eapply sublist_NoDup; [exact Hdistinct | apply filter_sublist].
    - intros idx Hin Hin'. apply list_elem_of_In in Hin, Hin'.
      apply in_map_iff in Hin' as [p [<- Hp]]. exact (Hnew p Hp Hin). }
  assert (Hsub : (list_to_set (map j_index final_entries) : gset Z)
                 ⊆ list_to_set (map j_index entries)).
  { intros idx Hin. apply elem_of_list_to_set, list_elem_of_In in Hin.
    apply elem_of_list_to_set, list_elem_of_In.
    apply in_map_iff in Hin as [x [<- Hx]]. apply in_map.
    rewrite Heq in Hx. apply in_app_or in Hx as [Hx|Hx]; [|exact (Hfrom x Hx)].
    rewrite List.Forall_forall in Hfound. specialize (Hfound x Hx).
    apply find_some in Hfound as [Hin _]. apply in_rev. exact Hin. }
  assert (Hsame : (list_to_set (map j_index final_entries) : gset Z)
                  = list_to_set (map j_index entries)).
  { apply set_subseteq_size_eq; [exact Hsub|].
    rewrite (size_list_to_set _ Hfinal), length_map, Hten. exact Hsize. }
  intros e He. apply list_elem_of_In, (elem_of_list_to_set (C := gset Z)).
  rewrite Hsame. apply elem_of_list_to_set, list_elem_of_In, in_map, He.
Qed.

(** X27: the entries selected for the recommendations are, in order, the first
    ten recommendations that some entry carries; a recommendation without
    an entry is skipped, and of two entries with the same index the later
    one is taken. *)
Theorem recommendations_found_in_entries (recommendations : list Z)
    (entries : list JEntry) :
  map j_index (omap (fun idx => entry_map_of entries !! idx) (take 10 recommendations)) =
    List.filter (fun idx => existsb (fun e => (j_index e =? idx)%Z) entries)
                (take 10 recommendations) /\
  Forall (fun e =>
            List.find (fun e' => (j_index e' =? j_index e)%Z) (rev entries) = Some e)
         (omap (fun idx => entry_map_of entries !! idx) (take 10 recommendations)).
Proof. apply recommended_part_indices. Qed.

End RewriteFacts.

Module RelevanceFacts.
Import Py Relevance.

Section WithText.
Context {T : TextBuiltins}.

Lemma findall_runs_chars (s : str) :
  forall run,
    Forall (fun c => is_token_char c = true) run ->
    Forall (fun t => t <> [] /\ Forall (fun c => is_token_char c = true) t)
           (findall_runs run s).
Proof.
  induction s as [|c s IH]; intros run Hrun; cbn [findall_runs].
  - destruct run; [constructor|]. constructor; [|constructor]. split; [discriminate | exact Hrun].
  - destruct (is_token_char c) eqn:Hc.
    + apply IH. apply Forall_app. split; [exact Hrun | repeat constructor; exact Hc].
    + apply Forall_app. split; [|apply IH; constructor].
      destruct run; [constructor|]. constructor; [|constructor].
      split; [discriminate | exact Hrun].
Qed.

(** The runs read from [s] are what is left of [s] when the characters
    outside the class are dropped. *)
Lemma findall_runs_concat (s : str) :
  forall run, concat (findall_runs run s) = run ++ List.filter is_token_char s.
Proof.
  induction s as [|c s IH]; intros run; cbn [findall_runs List.filter].
  - destruct run; cbn; rewrite ?app_nil_r; reflexivity.
  - destruct (is_token_char c).
    + rewrite IH, <- app_assoc. reflexivity.
    + rewrite concat_app, IH. destruct run; cbn; rewrite ?app_nil_r; reflexivity.
Qed.

(** X23: every token has at least two characters, all of them word characters
    or CJK ideographs; a text without such characters has no token. *)
Theorem tokens_are_long_runs (text : str) :
  Forall (fun t => (2 <= length t)%nat /\ Forall (fun c => is_token_char c = true) t)
         (_tokenize text) /\
  (List.filter is_token_char (py_lower text) = [] -> _tokenize text = []).
Proof.
  unfold _tokenize. split.
  - apply List.Forall_forall. intros t Ht. apply List.filter_In in Ht as [Hin Hlen].
    pose proof (findall_runs_chars (py_lower text) [] (Forall_nil_2 _)) as Hall.
    rewrite List.Forall_forall in Hall. destruct (Hall t Hin) as [_ Hchars].
    split; [|exact Hchars]. apply Nat.ltb_lt in Hlen. lia.
  - intros Hnone.
    pose proof (findall_runs_concat (py_lower text) []) as Hcat.
    rewrite Hnone in Hcat. cbn in Hcat.
    pose proof (findall_runs_chars (py_lower text) [] (Forall_nil_2 _)) as Hall.
    destruct (findall_runs [] (py_lower text)) as [|t ts]; [reflexivity|].
    exfalso. apply Forall_cons in Hall as [[Hne _] _].
    cbn in Hcat. destruct t; [contradiction | discriminate].
Qed.

Lemma of_nat_pos (n : nat) : (0 < n)%nat -> Z.pos (Pos.of_nat n) = Z.of_nat n.
Proof.
  intros Hn. destruct n; [lia|]. rewrite <- Pos.of_nat_succ, Zpos_P_of_succ_nat. lia.
Qed.

(** X22: the relevance score is a number between 0 and 1. It is 0 exactly when
    the question and the entry share no token (in particular when either
    has none), and 1 exactly when both have the same, non-empty, set of
    tokens. *)
Theorem relevance_score_bounds (question title snippet : str) :
  let score := _compute_relevance_score question title snippet in
  let q_tokens : gset str := list_to_set (_tokenize question) in
  let doc_tokens : gset str := list_to_set (_tokenize (title ++ lit " " ++ snippet)) in
  (0 <= score <= 1)%Q /\
  ((score == 0)%Q <-> q_tokens ∩ doc_tokens = ∅) /\
  ((score == 1)%Q <-> q_tokens = doc_tokens /\ q_tokens <> ∅).
Proof.
  cbv zeta. unfold _compute_relevance_score.
  set (q := list_to_set (_tokenize question) : gset str).
  set (d := list_to_set (_tokenize (title ++ lit " " ++ snippet)) : gset str).
  destruct (bool_decide (q = ∅)) eqn:Hq; [apply bool_decide_eq_true in Hq|
    apply bool_decide_eq_false in Hq].
  { cbn [orb]. split; [split; discriminate|]. split.
    - split; [intros _; rewrite Hq; apply leibniz_equiv; set_solver | reflexivity].
    - split; [discriminate | intros [_ H]; contradiction]. }
  destruct (bool_decide (d = ∅)) eqn:Hd; [apply bool_decide_eq_true in Hd|
    apply bool_decide_eq_false in Hd].
  { cbn [orb]. split; [split; discriminate|]. split.
    - split; [intros _; rewrite Hd; apply leibniz_equiv; set_solver | reflexivity].
    - split; [discriminate | intros [H _]; congruence]. }
  cbn [orb].
  assert (Hsub : q ∩ d ⊆ q ∪ d) by set_solver.
  pose proof (subseteq_size _ _ Hsub) as Hle.
  assert (Hpos : (0 < size (q ∪ d))%nat).
  { destruct (size (q ∪ d)) eqn:Hs; [|lia].
    apply size_empty_iff in Hs. exfalso. apply Hq. apply leibniz_equiv. set_solver. }
  unfold Qle, Qeq. cbn [Qnum Qden]. rewrite (of_nat_pos _ Hpos).
  split; [lia|]. split.
  - split.
    + intros H. apply leibniz_equiv, size_empty_iff. lia.
    + intros H. rewrite H, size_empty. lia.
  - split.
    + intros H. assert (Heq : q ∩ d = q ∪ d).
      { apply set_subseteq_size_eq; [exact Hsub | lia]. }
      split; [|exact Hq]. apply leibniz_equiv. set_solver.
    + intros [H _]. rewrite <- H.
      replace (q ∩ q) with q by (apply leibniz_equiv; set_solver).
      replace (q ∪ q) with q by (apply leibniz_equiv; set_solver). lia.
Qed.

End WithText.
End RelevanceFacts.

Module ParsingFacts.
Import Py Review Main WebSearch Parsing ReviewTool MainFacts.

Section Regex.
Context {A : Type}.

Lemma re_lit_app (l s : str) (k : str -> option A) : re_lit l (l ++ s) k = k s.
Proof.
  induction l as [|x l IH]; [destruct s; reflexivity|].
  cbn [app re_lit]. unfold char_eqb. rewrite N.eqb_refl. exact IH.
Qed.

Lemma re_lit_other (x y : char) (l s : str) (k : str -> option A) :
  x <> y -> re_lit (x :: l) (y :: s) k = None.
Proof.
  intros Hne. cbn [re_lit]. unfold char_eqb.
  destruct (N.eqb_spec x y) as [->|_]; [contradiction | reflexivity].
Qed.

(** A greedy run takes all of [run] when what follows does not belong to
    the class and the continuation accepts. *)
Lemma re_greedy_run (p : char -> bool) (run s : str) (r : A) :
  Forall (fun c => p c = true) run ->
  match s with c :: _ => p c = false | [] => True end ->
  forall k : str -> str -> option A,
    k run s = Some r -> re_greedy p (run ++ s) k = Some r.
Proof.
  intros Hrun Hstop. induction Hrun as [|c run Hc _ IH]; intros k Hk.
  - destruct s as [|c s]; cbn [app re_greedy]; [exact Hk|].
    rewrite Hstop. exact Hk.
  - cbn [app re_greedy]. rewrite Hc.
    rewrite (IH (fun run' => k (c :: run')) Hk). reflexivity.
Qed.

(** A lazy run stops at the first line break when the continuation
    refuses every text that does not start with one. *)
Lemma re_lazy_line (body s : str) (r : A) :
  Forall (fun c : char => c <> 10%N) body ->
  forall k : str -> str -> option A,
    (forall pre c post, c <> 10%N -> k pre (c :: post) = None) ->
    k body s = Some r ->
    re_lazy any_char (body ++ s) k = Some r.
Proof.
  induction 1 as [|c body Hc _ IH]; intros k Hrefuses Hk.
  - cbn [app]. destruct s; cbn [re_lazy]; rewrite Hk; reflexivity.
  - cbn [app re_lazy]. rewrite (Hrefuses [] c _ Hc). cbn [any_char].
    apply (IH (fun run => k (c :: run))); [|exact Hk].
    intros pre c' post Hc'. apply Hrefuses, Hc'.
Qed.

End Regex.

Section WithBuiltins.
Context {B : Builtins}.

Lemma lstrip_length (s : str) : (length (lstrip s) <= length s)%nat.
Proof.
  induction s as [|c s IH]; [reflexivity|]. cbn [lstrip].
  destruct (is_space c); cbn [length]; lia.
Qed.

Lemma strip_length (s : str) : (length (strip s) <= length (lstrip s))%nat.
Proof.
  unfold strip, rstrip. rewrite length_rev.
  etransitivity; [apply lstrip_length|]. rewrite length_rev. reflexivity.
Qed.

(** A tidy field starts with a character that is not white space. *)
Lemma tidy_head (field rest : str) :
  tidy field ->
  match field ++ rest with c :: _ => is_space c = false | [] => True end.
Proof.
  intros [Hne [Hstrip _]]. destruct field as [|c field]; [contradiction|].
  cbn [app]. destruct (is_space c) eqn:Hc; [|reflexivity].
  exfalso. pose proof (strip_length (c :: field)) as Hlen.
  rewrite Hstrip in Hlen. cbn [lstrip] in Hlen. rewrite Hc in Hlen.
  pose proof (lstrip_length field). cbn [length] in Hlen. lia.
Qed.

Lemma entry_pattern_elsewhere (c : char) (s : str) :
  c <> 91%N -> entry_pattern (c :: s) = None.
Proof.
  intros Hc. unfold entry_pattern. change (lit "[") with [91%N].
  apply re_lit_other. congruence.
Qed.

Lemma finditer_plain (pre s : str) :
  Forall (fun c => c <> 91%N) pre ->
  finditer_from 0 (pre ++ s) = finditer_from 0 s.
Proof.
  induction 1 as [|c pre Hc _ IH]; [reflexivity|].
  cbn [app finditer_from]. rewrite (entry_pattern_elsewhere c _ Hc). exact IH.
Qed.

Lemma finditer_skip (pre s : str) :
  finditer_from (length pre) (pre ++ s) = finditer_from 0 s.
Proof.
  induction pre as [|c pre IH]; [reflexivity|]. cbn [app length finditer_from]. exact IH.
Qed.


Lemma lit_close : lit "] " = lit "]" ++ [32%N].
Proof. reflexivity. Qed.
Lemma lit_memo : lit "📝 " = lit "📝" ++ [32%N].
Proof. reflexivity. Qed.
Lemma lit_link : lit "🔗 " = lit "🔗" ++ [32%N].
Proof. reflexivity. Qed.
Lemma lit_source : lit "📍 来源: " = lit "📍 来源:" ++ [32%N].
Proof. reflexivity. Qed.

Lemma format_result_text (max_length i : nat) (result : SearchResult) :
  format_result max_length i result = entry_text i (shown_entry max_length i result).
Proof.
  unfold format_result, entry_text, shown_entry, url_line.
  cbn [p_title p_snippet p_url p_source].
  rewrite lit_close, lit_memo, lit_link, lit_source.
  destruct (truthy (default [] (sr_url result))); rewrite <- ?app_assoc; reflexivity.
Qed.

Lemma re_opt_some {A G} (group : str -> (G -> str -> option A) -> option A) (s : str)
    (k : option G -> str -> option A) (r : A) :
  group s (fun g => k (Some g)) = Some r -> re_opt group s k = Some r.
Proof. unfold re_opt. intros ->. reflexivity. Qed.

Lemma re_opt_none {A G} (group : str -> (G -> str -> option A) -> option A) (s : str)
    (k : option G -> str -> option A) :
  group s (fun g => k (Some g)) = None -> re_opt group s k = k None s.
Proof. unfold re_opt. intros ->. reflexivity. Qed.

Lemma re_lit_line {A} (l : str) (c : char) (s : str) (k : str -> option A) :
  c <> 10%N -> re_lit (nl ++ l) (c :: s) k = None.
Proof. intros Hc. unfold nl. cbn [app]. apply re_lit_other. congruence. Qed.

(** The pattern matches a formatted result with tidy fields, from its
    opening bracket to its empty line, and its groups are the fields. *)
Lemma entry_pattern_formatted (i : nat) (e : ParsedEntry) (tail : str) :
  is_space 32%N = true -> is_digit 93%N = false ->
  str_of_nat i <> [] -> Forall (fun c => is_digit c = true) (str_of_nat i) ->
  tidy_entry e ->
  entry_pattern
    (lit "[" ++ str_of_nat i ++ lit "]" ++ [32%N] ++ p_title e ++
     (nl ++ lit "📝") ++ [32%N] ++ p_snippet e ++ url_line (p_url e) ++
     (nl ++ lit "📍 来源:") ++ [32%N] ++ p_source e ++ (nl ++ nl) ++ tail) =
  Some (entry_match i e, tail).
Proof.
  intros Hspace Hclose Hne Hdigits [Htitle [Hsnippet [Hsource Hurl]]].
  unfold entry_match.
  assert (Hblank : Forall (fun c => is_space c = true) [32%N])
    by (constructor; [exact Hspace | constructor]).
  unfold entry_pattern. rewrite re_lit_app.
  apply re_greedy_run; [exact Hdigits | exact Hclose |].
  assert (Htruthy : truthy (str_of_nat i) = true)
    by (destruct (str_of_nat i) eqn:E; [congruence | reflexivity]).
  rewrite Htruthy.
  rewrite re_lit_app.
  apply re_greedy_run; [exact Hblank | apply tidy_head, Htitle |].
  apply re_lazy_line; [apply Htitle | intros pre c post Hc; apply re_lit_line, Hc |].
  rewrite re_lit_app.
  apply re_greedy_run; [exact Hblank | apply tidy_head, Hsnippet |].
  apply re_lazy_line; [apply Hsnippet | |].
  { intros pre c post Hc. rewrite re_opt_none; apply re_lit_line, Hc. }
  assert (Hrest :
    forall url : option str,
      re_lit (nl ++ lit "📍 来源:")
        ((nl ++ lit "📍 来源:") ++ [32%N] ++ p_source e ++ (nl ++ nl) ++ tail)
        (fun s =>
           re_greedy is_space s (fun _ s =>
           re_lazy any_char s (fun source s =>
           re_lit (nl ++ nl) s (fun rest =>
           Some ({| g_index := str_of_nat i; g_title := p_title e;
                    g_snippet := p_snippet e; g_url := url; g_source := source |},
                 rest))))) =
      Some ({| g_index := str_of_nat i; g_title := p_title e; g_snippet := p_snippet e;
               g_url := url; g_source := p_source e |}, tail)).
  { intros url. rewrite re_lit_app.
    apply re_greedy_run; [exact Hblank | apply tidy_head, Hsource |].
    apply re_lazy_line; [apply Hsource | intros pre c post Hc; apply re_lit_line, Hc |].
    rewrite re_lit_app. reflexivity. }
  unfold url_line. destruct (truthy (p_url e)) eqn:Hhas.
  - destruct Hurl as [Hnil|Hurl]; [rewrite Hnil in Hhas; discriminate Hhas|].
    apply re_opt_some. rewrite <- !app_assoc. rewrite (app_assoc nl (lit "🔗")).
    rewrite re_lit_app.
    apply re_greedy_run; [exact Hblank | apply tidy_head, Hurl |].
    apply re_lazy_line; [apply Hurl | intros pre c post Hc; apply re_lit_line, Hc |].
    apply Hrest.
  - cbn [app]. rewrite re_opt_none; [apply Hrest|]. reflexivity.
Qed.


Lemma entry_pattern_text (i : nat) (e : ParsedEntry) (tail : str) :
  is_space 32%N = true -> is_digit 93%N = false ->
  str_of_nat i <> [] -> Forall (fun c => is_digit c = true) (str_of_nat i) ->
  tidy_entry e ->
  entry_pattern (entry_text i e ++ tail) = Some (entry_match i e, tail).
Proof.
  intros Hspace Hclose Hne Hdigits Htidy.
  rewrite <- (entry_pattern_formatted i e tail Hspace Hclose Hne Hdigits Htidy).
  f_equal. unfold entry_text. rewrite <- !app_assoc. reflexivity.
Qed.

Lemma format_from_spec (max_length : nat) (results : list SearchResult) :
  forall (i : nat) (formatted : str),
    format_from max_length i results formatted =
    formatted ++
    concat (zip_with (fun i r => entry_text i (shown_entry max_length i r))
              (seq i (length results)) results).
Proof.
  induction results as [|r results IH]; intros i formatted.
  - cbn. rewrite app_nil_r. reflexivity.
  - cbn [format_from length seq zip_with concat].
    rewrite IH, format_result_text, <- app_assoc. reflexivity.
Qed.

(** On the text of tidy entries numbered from [i], the matches are the
    entries, one after the other. *)
Lemma finditer_entries (max_length : nat) (results : list SearchResult) :
  is_space 32%N = true -> is_digit 93%N = false ->
  forall i : nat,
    (forall n, (i <= n < i + length results)%nat -> reads_numeral n) ->
    Forall (fun e => tidy_entry e)
           (zip_with (shown_entry max_length) (seq i (length results)) results) ->
    finditer_from 0
      (concat (zip_with (fun i r => entry_text i (shown_entry max_length i r))
                 (seq i (length results)) results)) =
    zip_with (fun i r => entry_match i (shown_entry max_length i r))
             (seq i (length results)) results.
Proof.
  intros Hspace Hclose.
  induction results as [|r results IH]; intros i Hnum Htidy; [reflexivity|].
  cbn [length seq zip_with concat] in *.
  apply Forall_cons in Htidy as [Hr Hrest].
  destruct (Hnum i ltac:(lia)) as [Hne [Hdigits _]].
  pose proof (entry_pattern_text i (shown_entry max_length i r)
                (concat (zip_with (fun i r => entry_text i (shown_entry max_length i r))
                           (seq (S i) (length results)) results))
                Hspace Hclose Hne Hdigits Hr) as Hmatch.
  set (tail := concat _) in *.
  assert (Hcons : exists body,
            entry_text i (shown_entry max_length i r) = 91%N :: body).
  { unfold entry_text. change (lit "[") with [91%N]. eexists. reflexivity. }
  destruct Hcons as [body Hbody]. rewrite Hbody in *.
  cbn [app finditer_from]. cbn [app] in Hmatch. rewrite Hmatch.
  f_equal.
  rewrite length_app, Nat.add_sub, finditer_skip. subst tail. apply IH; [|exact Hrest].
  intros n Hn. apply Hnum. lia.
Qed.

Lemma strip_nil : strip (B := B) [] = [].
Proof. reflexivity. Qed.

Lemma entry_of_entry_match (i : nat) (e : ParsedEntry) :
  reads_numeral i -> tidy_entry e -> p_index e = Z.of_nat i ->
  entry_of_match (entry_match i e) = Some e.
Proof.
  intros [_ [_ Hint]] [[_ [Htitle _]] [[_ [Hsnippet _]] [[_ [Hsource _]] Hurl]]] Hindex.
  unfold entry_of_match, entry_match. cbn [g_index g_title g_snippet g_url g_source].
  rewrite Hint. unfold mbind, option_bind. rewrite Htitle, Hsnippet, Hsource.
  assert (Hu : strip (default [] (if truthy (p_url e) then Some (p_url e) else None))
               = p_url e).
  { destruct Hurl as [Hnil|[_ [Hstrip _]]].
    - rewrite Hnil. reflexivity.
    - destruct (truthy (p_url e)) eqn:Hhas; [exact Hstrip|].
      destruct (p_url e); [reflexivity | discriminate Hhas]. }
  destruct e as [idx t sn u so]. cbn [p_index p_title p_snippet p_url p_source] in *.
  subst idx. do 2 f_equal. exact Hu.
Qed.

End WithBuiltins.
End ParsingFacts.

Module PipelineFacts.
Import Py Review Main Relevance WebSearch Parsing ReviewTool.
Import ReviewFacts MainFacts RankingFacts RewriteFacts ParsingFacts.

Section WithBuiltins.
Context {B : Builtins}.

Lemma search_header_plain : Forall (fun c => c <> 91%N) search_header.
Proof.
  apply List.Forall_forall. intros c Hc.
  assert (Hall : forallb (fun c => negb (c =? 91)%N) search_header = true) by reflexivity.
  rewrite forallb_forall in Hall. specialize (Hall c Hc).
  intros ->. discriminate Hall.
Qed.

Lemma entries_of_matches (max_length : nat) (results : list SearchResult) :
  forall i : nat,
    (forall n, (i <= n < i + length results)%nat -> reads_numeral n) ->
    Forall (fun e => tidy_entry e)
           (zip_with (shown_entry max_length) (seq i (length results)) results) ->
    mapM entry_of_match
      (zip_with (fun i r => entry_match i (shown_entry max_length i r))
                (seq i (length results)) results) =
    Some (zip_with (shown_entry max_length) (seq i (length results)) results).
Proof.
  induction results as [|r results IH]; intros i Hnum Htidy; [reflexivity|].
  cbn [length seq zip_with] in *.
  apply Forall_cons in Htidy as [Hr Hrest].
  apply mapM_Some. constructor.
  - apply entry_of_entry_match; [apply Hnum; lia | exact Hr | reflexivity].
  - apply mapM_Some. apply IH; [|exact Hrest]. intros n Hn. apply Hnum. lia.
Qed.

(** X28: what [format_results] writes, [_parse_formatted_results] reads
    back: for results whose title, shown snippet and source are tidy (not
    empty, on one line, without white space at either end) and whose url
    is empty or tidy, the parsed entries are the results, numbered from 1,
    with the defaults and the cut of the snippet applied. *)
Theorem parse_inverts_format (results : list SearchResult) (max_length : nat) :
  results <> [] ->
  is_space 32%N = true -> is_digit 93%N = false ->
  (forall n, (1 <= n <= length results)%nat -> reads_numeral n) ->
  Forall (fun e => tidy_entry e)
         (zip_with (shown_entry max_length) (seq 1 (length results)) results) ->
  _parse_formatted_results (format_results results max_length) =
  Some (zip_with (shown_entry max_length) (seq 1 (length results)) results).
Proof.
  intros Hne Hspace Hclose Hnum Htidy.
  unfold format_results. destruct results as [|r results]; [contradiction|].
  cbn [truthy]. rewrite format_from_spec.
  unfold _parse_formatted_results.
  assert (Htext : forall s, truthy (search_header ++ s) = true) by reflexivity.
  rewrite Htext.
  rewrite (finditer_plain search_header _ search_header_plain).
  rewrite (finditer_entries max_length (r :: results) Hspace Hclose 1);
    [|intros n Hn; apply Hnum; lia | exact Htidy].
  rewrite (entries_of_matches max_length (r :: results) 1);
    [|intros n Hn; apply Hnum; lia | exact Htidy].
  reflexivity.
Qed.

Lemma lstrip_keeps (c : char) (s : str) :
  In c s -> is_space c = false -> In c (lstrip s).
Proof.
  intros Hin Hc. induction s as [|x s IH]; [contradiction|].
  cbn [lstrip]. destruct (is_space x) eqn:Hx; [|exact Hin].
  destruct Hin as [->|Hin]; [congruence | apply IH, Hin].
Qed.

Lemma strip_keeps (c : char) (s : str) :
  In c s -> is_space c = false -> In c (strip s).
Proof.
  intros Hin Hc. unfold strip, rstrip.
  apply in_rev. rewrite rev_involutive. apply lstrip_keeps; [|exact Hc].
  apply in_rev. rewrite rev_involutive. apply lstrip_keeps; assumption.
Qed.

(** A character that is not a line break lies in one of the pieces
    between the empty lines. *)
Lemma split_from_covers (c : char) (s : str) :
  c <> 10%N ->
  forall (skip : nat) (cur : str),
    Forall (fun x => x = 10%N) (take skip s) ->
    In c cur \/ In c (drop skip s) ->
    exists piece, In piece (split_from (nl ++ nl) skip cur s) /\ In c piece.
Proof.
  intros Hc. induction s as [|x s IH]; intros skip cur Hskip Hin.
  - exists cur. split; [left; reflexivity|].
    destruct Hin as [Hin|Hin]; [exact Hin|]. rewrite drop_nil in Hin. contradiction.
  - cbn [split_from]. destruct skip as [|k].
    + cbn [drop] in Hin.
      destruct (startswith (nl ++ nl) (x :: s)) eqn:Hsep.
      * apply startswith_spec in Hsep as [post Hpost]. injection Hpost as -> ->.
        destruct Hin as [Hin|[Hin|Hin]].
        -- exists cur. split; [left; reflexivity | exact Hin].
        -- congruence.
        -- destruct Hin as [Hin|Hin]; [congruence|].
           destruct (IH 1%nat [] ltac:(repeat constructor) (or_intror Hin))
             as [piece [Hp Hcp]].
           exists piece. split; [right; exact Hp | exact Hcp].
      * apply (IH 0%nat (cur ++ [x])); [constructor|].
        destruct Hin as [Hin|[->|Hin]].
        -- left. apply in_or_app. left. exact Hin.
        -- left. apply in_or_app. right. left. reflexivity.
        -- right. exact Hin.
    + cbn [take] in Hskip. apply Forall_cons in Hskip as [-> Hskip].
      cbn [drop] in Hin. apply (IH k cur Hskip Hin).
Qed.

(** A text with a character that is not white space has a block. *)
Lemma blocks_of_text (formatted : str) (c : char) :
  is_space 10%N = true -> In c formatted -> is_space c = false ->
  blocks_of formatted <> [].
Proof.
  intros Hnl Hin Hc.
  assert (Hne : c <> 10%N) by (intros ->; congruence).
  destruct (split_from_covers c formatted Hne 0 [] ltac:(constructor) (or_intror Hin))
    as [piece [Hpiece Hcp]].
  unfold blocks_of. intros Hnil.
  assert (Hblock : In (strip piece) (List.filter truthy (map strip (split (nl ++ nl) formatted)))).
  { apply List.filter_In. split; [apply in_map, Hpiece|].
    pose proof (strip_keeps c piece Hcp Hc) as Hkept.
    destruct (strip piece); [contradiction | reflexivity]. }
  rewrite Hnil in Hblock. contradiction.
Qed.

(** The parser finds an entry in every text that is not blank. *)
Lemma parse_finds_entries (formatted : str) (c : char) (entries : list ParsedEntry) :
  is_space 10%N = true -> In c formatted -> is_space c = false ->
  _parse_formatted_results formatted = Some entries -> entries <> [].
Proof.
  intros Hnl Hin Hc. unfold _parse_formatted_results.
  destruct formatted as [|x formatted]; [contradiction|]. cbn [truthy].
  destruct (mapM entry_of_match _) as [found|]; [|discriminate].
  cbn [mbind option_bind]. unfold mbind, option_bind.
  destruct found as [|e found]; cbn [truthy].
  - intros [= <-].
    pose proof (blocks_of_text (x :: formatted) c Hnl Hin Hc) as Hblocks.
    destruct (blocks_of (x :: formatted)); [contradiction | discriminate].
  - intros [= <-]. discriminate.
Qed.

End WithBuiltins.

Section Review.
Context {B : Builtins} {T : TextBuiltins} {F : FloatOps}.

(** X29: the review always rewrites a result that is not blank: whatever the
    text (search results, the sentence for no result, or an error
    message) and whatever the scores, an answer of the review tool has at
    least one entry and one recommendation, and the filter of the
    dispatcher makes of that answer a block rendered from at least one
    entry. *)
Theorem review_always_rewrites (formatted_results user_question current_date : str)
    (c : char) (answer : ReviewOutput) :
  is_space 10%N = true -> In c formatted_results -> is_space c = false ->
  review_search_results formatted_results user_question current_date = Some answer ->
  out_entries answer <> [] /\
  out_recommendations answer <> [] /\
  exists final_entries,
    final_entries <> [] /\
    filter_by_review (review_json (Some answer)) =
      Some (render_from 1 final_entries review_header).
Proof.
  intros Hnl Hin Hc. unfold review_search_results.
  destruct (_parse_formatted_results formatted_results) as [entries|] eqn:Hparse;
    [|discriminate].
  unfold mbind, option_bind. intros [= <-].
  cbn [out_entries out_recommendations review_json].
  pose proof (parse_finds_entries _ _ _ Hnl Hin Hc Hparse) as Hentries.
  set (results := map (review_entry user_question current_date) entries).
  assert (Hresults : results <> []).
  { subst results. destruct entries; [contradiction | discriminate]. }
  destruct (recommended_covered results) as [Hnames [_ Hsome]].
  specialize (Hsome Hresults).
  split; [exact Hresults|]. split; [exact Hsome|].
  unfold filter_by_review. cbn [recommendations Main.entries].
  destruct (recommended results) as [|idx recs] eqn:Hrec; [contradiction|].
  assert (Hjson : map json_entry results <> []).
  { destruct results; [contradiction | discriminate]. }
  replace (truthy (idx :: recs) && truthy (map json_entry results)) with true
    by (destruct (map json_entry results); [contradiction | reflexivity]).
  destruct (Hnames idx (or_introl eq_refl)) as [r [Hr Hidx]].
  assert (Hfound : exists e, entry_map_of (map json_entry results) !! idx = Some e).
  { rewrite entry_map_of_lookup.
    destruct (List.find _ (rev (map json_entry results))) as [e|] eqn:Hfind;
      [eauto|].
    exfalso.
    assert (Hin' : In (json_entry r) (rev (map json_entry results)))
      by (apply in_rev; rewrite rev_involutive; apply in_map, Hr).
    pose proof (List.find_none _ _ Hfind _ Hin') as Hno. cbv beta in Hno.
    cbn [json_entry j_index] in Hno. rewrite Hidx, Z.eqb_refl in Hno. discriminate Hno. }
  destruct Hfound as [e He].
  assert (Hfinal : select_final_entries (idx :: recs) (map json_entry results) <> []).
  { unfold select_final_entries.
    set (part := omap _ (take 10 (idx :: recs))).
    assert (Hpart : exists rest, part = e :: rest).
    { subst part. cbn [take].
      change (omap ?f (idx :: ?l))
        with (match f idx with Some y => y :: omap f l | None => omap f l end).
      cbv beta. rewrite He. eexists. reflexivity. }
    destruct Hpart as [rest Hpart].
    destruct (length part <? 10)%nat; [|rewrite Hpart; discriminate].
    destruct (pad_entries_spec
                (sorted_desc (fun x => default 0%Q (j_final_score x))
                   (map json_entry results))
                part (list_to_set (map j_index part))) as [padding [-> _]].
    rewrite Hpart. discriminate. }
  exists (select_final_entries (idx :: recs) (map json_entry results)).
  split; [exact Hfinal|].
  destruct (select_final_entries (idx :: recs) (map json_entry results));
    [contradiction | reflexivity].
Qed.

End Review.
End PipelineFacts.

Module Witnesses.
Import Py Review Main Scenarios Reading Relevance Legacy History References
  WebSearch Parsing ReviewTool Cases.
Import EngineFacts DispatcherFacts RecencyFacts LegacyFacts ReferenceFacts
  PipelineFacts.

(** The 250 characters of the tool are cut to 203 in the event. *)
Lemma tool_results_truncated_witness :
  In (ToolResults [(Some (lit "get_current_time"), take 200 long_output ++ lit "...")])
     (events_of (trace verbose_run)) /\
  Forall (fun r : option str * str => (length (snd r) <= 203)%nat)
         [(Some (lit "get_current_time"), take 200 long_output ++ lit "...")].
Proof.
  assert (Hin : In (ToolResults [(Some (lit "get_current_time"),
                                  take 200 long_output ++ lit "...")])
                   (events_of (trace verbose_run))).
  { vm_compute. right. left. reflexivity. }
  split; [exact Hin|].
  exact (tool_results_truncated (C := scripted verbose_tools) _ _ _ _ _ _ _ _ Hin).
Defined.

(** The answer of [ceiling_run], a model without a reasoning channel. *)
Lemma plain_model_streams_every_payload_witness :
  List.filter is_split_event (events_of (trace ceiling_run)) =
  plain_events (List.filter truthy (map content [answer_chunk "hi"])).
Proof.
  assert (Hin : In (Streamed tools_model ceiling_messages [answer_chunk "hi"] None)
                   (trace ceiling_run)).
  { vm_compute. do 8 right. left. reflexivity. }
  eapply (plain_model_streams_every_payload (C := scripted plain)); [|exact Hin].
  reflexivity.
Defined.

(** The stream breaks after "par": the delta is delivered, then the error. *)
Lemma stream_failure_reported_witness :
  (exists setup,
     Forall (fun ev => is_setup_event ev = true) setup /\
     events_of (trace broken_stream_run) =
       setup ++ fst (process_chunks false [answer_chunk "par"] initial_stream_state)
       ++ [ErrorEvent (lit "connection lost")]) /\
  Forall (fun a => is_appended a = false) (trace broken_stream_run).
Proof.
  assert (Hin : In (Streamed tools_model hello [answer_chunk "par"]
                      (Some (Exception (lit "connection lost"))))
                   (trace broken_stream_run)).
  { vm_compute. do 2 right. left. reflexivity. }
  exact (stream_failure_reported (C := scripted broken_stream) _ _ _ _ _ _ _ _ _ _ _ Hin).
Defined.

(** The first invocation raises: the error follows at once. *)
Lemma invocation_failure_reported_witness :
  (exists t,
     trace refused_run =
       t ++ [Invoked tools_model hello (Raise (Exception (lit "rate limit")));
             Yield (ErrorEvent (lit "rate limit"))]) /\
  Forall (fun a => is_streamed a = false /\ is_appended a = false) (trace refused_run).
Proof.
  assert (Hin : In (Invoked tools_model hello (Raise (Exception (lit "rate limit"))))
                   (trace refused_run)).
  { vm_compute. right. left. reflexivity. }
  exact (invocation_failure_reported (C := scripted plain) _ _ _ _ _ _ _ _ _ _ Hin).
Defined.

(** The answer "hi" is completed and stored once. *)
Lemma completed_answer_is_what_was_streamed_witness :
  lit "hi" = concat (omap delta_of (events_of (trace direct_run))) /\
  [] = references_for (C := scripted plain) (lit "hi") None /\
  exists r, List.filter is_appended (trace direct_run) =
            [Appended (lit "s1") (lit "hi") [] r].
Proof.
  assert (Hin : In (Yield (MessageComplete (lit "hi") [])) (trace direct_run)).
  { vm_compute. do 6 right. left. reflexivity. }
  exact (completed_answer_is_what_was_streamed (C := scripted plain) _ _ _ _ _ _ _ _ _ Hin).
Defined.

(** With the ceiling 0 the model's wish for a tool is never heard. *)
Lemma no_round_without_budget_witness :
  Forall (fun a => is_loop_action a = false) (trace unlooped_run) /\
  Forall (fun a => forall ms, messages_of a = Some ms -> ms = add_pdf_context None hello)
         (trace unlooped_run).
Proof.
  apply (no_round_without_budget (C := scripted plain)). lia.
Defined.

(** The model answers "done" without asking for a tool: that response is
    dropped and the answer is streamed on the same messages. *)
Lemma tool_free_response_ends_loop_witness :
  exists t_pre chunks failure t_post,
    trace direct_run =
      t_pre ++ Invoked tools_model hello (Ok done)
            :: Streamed tools_model hello chunks failure :: t_post.
Proof.
  assert (Hin : In (Invoked tools_model hello (Ok done)) (trace direct_run)).
  { vm_compute. right. left. reflexivity. }
  exact (tool_free_response_ends_loop (C := scripted plain) _ _ _ _ _ _ _ _ _ _ Hin eq_refl).
Defined.

(** The clock raises: the call is answered by the failure text. *)
Lemma tool_failure_becomes_message_witness :
  execute_tool_call (C := scripted broken_tools) (call_of "get_current_time") hello [] =
  {| trace := [ToolRun (lit "get_current_time") [] (Raise (Exception (lit "timeout")))];
     world := [];
     value := Ok [{| tm_content := lit "工具执行失败: " ++ lit "timeout";
                     tm_tool_call_id := Some (lit "call_1");
                     tm_name := Some (lit "get_current_time") |}] |}.
Proof.
  apply (tool_failure_becomes_message (C := scripted broken_tools)
           (call_of "get_current_time") hello [] [] (lit "get_current_time")
           (Exception (lit "timeout"))); reflexivity.
Defined.

(** The date as supplied, and the date with its dashes replaced. *)
Lemma recency_date_in_text_witness :
  _compute_recency_score (lit "2025-11-22") (lit "2025-11-22 要闻") (lit "摘要") = 1.0%Q /\
  _compute_recency_score (lit "2025-11-22") (lit "要闻") (lit "2025年11年22 摘要") = 1.0%Q.
Proof.
  split.
  - apply (recency_date_in_text (lit "2025-11-22") (lit "2025-11-22 要闻") (lit "摘要")
             [] (lit " 要闻 摘要")); [discriminate | left; reflexivity].
  - apply (recency_date_in_text (lit "2025-11-22") (lit "要闻") (lit "2025年11年22 摘要")
             (lit "要闻 ") (lit " 摘要")); [discriminate | right; reflexivity].
Defined.

(** A title with a marker and an old year. *)
Lemma recency_marker_in_text_witness :
  _compute_recency_score (lit "2025-11-22") (lit "最近的2019年回顾") (lit "摘要") = 0.8%Q.
Proof.
  apply (recency_marker_in_text (lit "2025-11-22") (lit "最近的2019年回顾") (lit "摘要")
           (lit "最近") [] (lit "的2019年回顾 摘要"));
    [right; split; reflexivity | left; reflexivity | reflexivity].
Defined.

(** The two generators on the same request. *)
Lemma legacy_generator_is_loop_free_run_witness :
  generate_streaming_response_with_tools (C := scripted plain) hello
    (Some (lit "deepseek-chat")) None false 0 None [] =
  generate_streaming_response (C := scripted plain) hello
    (Some (lit "deepseek-chat")) None [].
Proof.
  apply (legacy_generator_is_loop_free_run (C := scripted plain)). lia.
Defined.

(** Three markers, of which the second is lost, over three chunks. *)
Lemma references_point_into_chunks_witness :
  Forall (fun r =>
            exists chunk,
              (1 <= r_id r <= 3)%Z /\
              three_docs !! Z.to_nat (r_id r - 1) = Some chunk /\
              r = reference_of (r_id r) chunk /\
              (length (r_text r) <= 303)%nat)
         [reference_of 1 (doc "alpha"); reference_of 3 (doc "gamma")] /\
  (2 <= length (findall_markers 0 false (lit "see [1], [2] and [3]")))%nat /\
  (three_docs = [] ->
   [reference_of 1 (doc "alpha"); reference_of 3 (doc "gamma")] = []).
Proof.
  apply (references_point_into_chunks (lit "see [1], [2] and [3]") (Some three_docs)
           [reference_of 1 (doc "alpha"); reference_of 3 (doc "gamma")]).
  vm_compute. reflexivity.
Defined.

(** [[1], [2]] yields the first marker only. *)
Lemma adjacent_marker_is_swallowed_witness :
  findall_markers 0 false (lit "[1], [2]") = [lit "1"].
Proof.
  apply (adjacent_marker_is_swallowed (lit "1") (lit "2") (lit ", "));
    [discriminate | repeat constructor | repeat constructor | repeat constructor
    | reflexivity].
Defined.

Ltac numeral_read :=
  split; [vm_compute; discriminate|];
  split; [vm_compute; repeat constructor | vm_compute; reflexivity].

Ltac tidy_field :=
  split; [vm_compute; discriminate|];
  split; [vm_compute; reflexivity|];
  vm_compute; repeat (constructor; [discriminate|]); constructor.

(** Two results are formatted and read back. *)
Lemma parse_inverts_format_witness :
  _parse_formatted_results (format_results two_results 500) =
  Some (zip_with (shown_entry 500) (seq 1 (length two_results)) two_results).
Proof.
  apply (parse_inverts_format (B := ascii_builtins) two_results 500).
  - discriminate.
  - reflexivity.
  - reflexivity.
  - intros n Hn. change (length two_results) with 2%nat in Hn.
    assert (Hcases : n = 1%nat \/ n = 2%nat) by lia.
    destruct Hcases as [-> | ->]; numeral_read.
  - cbn [two_results length seq zip_with].
    constructor; [|constructor; [|constructor]].
    + split; [tidy_field|]. split; [tidy_field|]. split; [tidy_field|].
      right. tidy_field.
    + split; [tidy_field|]. split; [tidy_field|]. split; [tidy_field|].
      left. reflexivity.
Defined.

(** The failure text of the search is reviewed and rewritten. *)
Lemma review_always_rewrites_witness :
  out_entries failure_review <> [] /\
  out_recommendations failure_review <> [] /\
  exists final_entries,
    final_entries <> [] /\
    filter_by_review (review_json (Some failure_review)) =
      Some (render_from 1 final_entries review_header).
Proof.
  apply (review_always_rewrites (B := ascii_builtins) (T := ascii_text) (F := exact_scores)
           search_failure (lit "weather today") (lit "2025-11-22") 116%N failure_review).
  - reflexivity.
  - vm_compute. do 6 right. left. reflexivity.
  - reflexivity.
  - vm_compute. reflexivity.
Defined.

End Witnesses.

(** ** The added parts on samples *)

Module Samples.
Import Py Review Main Scenarios Relevance Legacy History References WebSearch
  Parsing ReviewTool Cases.

(** The markers the pattern finds in six texts. *)
Example markers_found :
  map (fun s => findall_markers 0 false (lit s))
      ["see [1], [2] and [3]"; "[1][2]"; "a[1]b[2]"; "[[1]]"; "([1])([2])";
       "[12]x [3]"]%string =
  [[lit "1"; lit "3"]; [lit "1"]; [lit "1"; lit "2"]; [lit "1"]; [lit "1"];
   [lit "12"; lit "3"]].
Proof. vm_compute. reflexivity. Qed.

(** The references of an answer over three chunks: the second marker is
    lost, the two others give the first and the third chunk. *)
Example references_extracted :
  extract_references_from_content (lit "see [1], [2] and [3]") (Some three_docs) =
  Some [reference_of 1 (doc "alpha"); reference_of 3 (doc "gamma")].
Proof. vm_compute. reflexivity. Qed.

(** One-character words are no tokens. *)
Example tokens_found :
  _tokenize (lit "A b-c De_f 中文 x") = [lit "de_f"; lit "中文"].
Proof. vm_compute. reflexivity. Qed.

(** Two shared tokens out of four. *)
Example relevance_of_sample :
  (_compute_relevance_score (lit "Rust async runtime") (lit "Async runtime")
     (lit "tokio") == 0.5)%Q.
Proof. vm_compute. reflexivity. Qed.

(** The system entry of the history is dropped. *)
Example history_converted :
  convert_history_to_messages sample_history None =
  [SystemMessage default_prompt; HumanMessage (Text (lit "hello"));
   AIMessage {| resp_content := lit "hi"; resp_tool_calls := [] |}].
Proof. reflexivity. Qed.

(** A user entry with an image and a transcribed recording. *)
Example blocks_converted :
  history_message
    {| h_role := lit "user"; h_content := Some (lit " ");
       h_content_blocks :=
         Some [{| hb_type := Some (lit "image");
                  hb_content := Some (lit "data:image/png;base64,AAAA");
                  hb_transcription := None |};
               {| hb_type := Some (lit "image"); hb_content := Some (lit "http://x/y.png");
                  hb_transcription := None |};
               {| hb_type := Some (lit "audio"); hb_content := None;
                  hb_transcription := Some (lit "hello") |}] |} =
  [HumanMessage (Blocks [ItemOther; ItemText (Some (lit "[音频转写] hello"))])].
Proof. vm_compute. reflexivity. Qed.

(** One round with a long tool output: the two events of the round, then
    the answer. *)
Example verbose_run_events :
  events_of (trace verbose_run) =
  [ToolCalls [(Some (lit "get_current_time"), Some [])];
   ToolResults [(Some (lit "get_current_time"), take 200 long_output ++ lit "...")];
   AnswerStart; ContentDelta (lit "hi"); MessageComplete (lit "hi") []].
Proof. vm_compute. reflexivity. Qed.

(** The failure text of the search is read as one entry. *)
Example failure_text_parsed :
  _parse_formatted_results search_failure =
  Some [{| p_index := 1; p_title := search_failure; p_snippet := []; p_url := [];
           p_source := [] |}].
Proof. vm_compute. reflexivity. Qed.

(** The two results, formatted and read back: the default of the snippet
    is an entry's snippet like any other. *)
Example two_results_parsed :
  _parse_formatted_results (format_results two_results 500) =
  Some [{| p_index := 1; p_title := lit "Rocq 9.1 released";
           p_snippet := lit "The release notes.";
           p_url := lit "https://rocq-prover.org/news"; p_source := lit "DuckDuckGo" |};
        {| p_index := 2; p_title := lit "今日天气"; p_snippet := lit "无描述";
           p_url := []; p_source := lit "百度搜索" |}].
Proof. vm_compute. reflexivity. Qed.

(** A result with an empty title: the title of the match runs on to the
    second line of the next result, and one entry is read for the two. *)
Example empty_title_runs_on :
  _parse_formatted_results
    (format_results
       [{| sr_title := Some []; sr_snippet := Some (lit "s"); sr_url := None;
           sr_source := Some (lit "w") |};
        {| sr_title := Some (lit "t"); sr_snippet := Some (lit "s2"); sr_url := None;
           sr_source := Some (lit "w2") |}] 500) =
  Some [{| p_index := 1;
           p_title := lit "📝 s" ++ nl ++ lit "📍 来源: w" ++ nl ++ nl ++ lit "[2] t";
           p_snippet := lit "s2"; p_url := []; p_source := lit "w2" |}].
Proof. vm_compute. reflexivity. Qed.

(** The review of the failure text, and the block the dispatcher makes
    of it. *)
Example failure_text_reviewed :
  review_search_results search_failure (lit "weather today") (lit "2025-11-22") =
  Some failure_review /\
  filter_by_review (review_json (Some failure_review)) =
  Some (review_header ++ lit "[1] 搜索失败: timeout" ++ nl ++ lit "📝 " ++ nl ++
        lit "📍 来源: " ++ nl ++
        lit "💡 推荐理由: 关键词匹配弱(0.00), 时间不明确或较旧" ++ nl ++ nl).
Proof. split; vm_compute; reflexivity. Qed.

(** A call without an id: both tools run, the second tool message cannot
    be built, and the run ends with the error right after the
    [tool_calls] event. *)
Example anonymous_call_run :
  trace anonymous_run =
  [Invoked tools_model hello
     (Ok {| resp_content := [];
            resp_tool_calls := [call_of "get_current_time"; anonymous_call] |});
   Yield (ToolCalls [(Some (lit "get_current_time"), Some []);
                     (Some (lit "get_current_time"), None)]);
   ToolRun (lit "get_current_time") [] (Ok (lit "12:00"));
   ToolRun (lit "get_current_time") [] (Ok (lit "12:00"));
   Yield (ErrorEvent (lit "1 validation error for ToolMessage"))].
Proof. vm_compute. reflexivity. Qed.

(** Ten recommendations of entry 1: it is selected ten times, and entry
    2, with the better score, is left out. *)
Example repeated_recommendation :
  map j_index
    (select_final_entries (repeat 1%Z 10) [jentry 1 "first" 0.5; jentry 2 "second" 0.9])
  = repeat 1%Z 10.
Proof. vm_compute. reflexivity. Qed.

End Samples.
